(** * Quantum Vibe Trader: the decision-fusion core, embedded and verified

    A shallow embedding of the quantitative core of the repository:
    the indicator library and technical analyzer
    (src/strategies/technical_analyzer.js), the sentiment fusion engine
    (src/strategies/sentiment_engine.js), the risk manager
    (src/strategies/risk_manager.js), the orchestrator
    (src/ai/decision_engine.js) and the simulator
    (src/utils/simulator.js).

    Numbers.  JavaScript numbers are IEEE-754 doubles; they are modelled
    here by the real numbers [R], i.e. every arithmetic operation is
    taken without rounding error and on finite values.  The places where
    the source can produce [Infinity] or [NaN] without any rounding (the
    [reduce] seeded with [Infinity] in [scoreMarketStructure], the
    weights 0 / 0 of [analyzePortfolioCorrelation]) are modelled with an
    explicit [option].  [null]/[undefined] results are [None].

    Where the real numbers and the doubles part ways.  An exact
    comparison on a computed value can come out differently after
    rounding, and then the source takes another branch than the model:
    - [calculateCorrelation] tests [den === 0]: the one-pass variance of
      a constant, or nearly constant, series leaves a rounding residue
      that is not 0 and may be negative, so the source answers -1, NaN
      or 0 where the real-number model answers 0 or 1.  Module
      [Binary64] below repeats this function on binary64 floats; the
      statements about the real-number model that involve a computed
      correlation assume windows that are [wellConditioned];
    - [kellyFraction] breaks even at a win probability of 0.4 for the
      ratio 1.5: exactly 0 over [R], a residue of 2^-54 at the double
      0.4.  Statements about a size of exactly 0 stay strictly below
      0.4;
    - [ema] keeps a constant series constant over [R]; in doubles the
      smoothing drifts by an ulp, which can decide the strict
      comparisons of the trend bias.  No statement below relies on an
      EMA being exact;
    - [Math.round] and [toFixed] ties are decided on the exact real.
      No statement below depends on a tie. *)

From Stdlib Require Import Reals Lra Lia List ZArith Bool.
From Stdlib Require PrimFloat.
Import ListNotations.
Open Scope R_scope.

(* ================================================================== *)
(** * JavaScript number primitives over [R] *)
(* ================================================================== *)

Module Js.

(** Comparisons as booleans. *)
Definition lt (x y : R) : bool := if Rlt_dec x y then true else false.
Definition gt (x y : R) : bool := if Rlt_dec y x then true else false.
Definition le (x y : R) : bool := if Rle_dec x y then true else false.
Definition ge (x y : R) : bool := if Rle_dec y x then true else false.
(** [x === y] on numbers. *)
Definition eq (x y : R) : bool := if Req_dec_T x y then true else false.

(** Truthiness of a number: every number but 0 (and NaN, which a real
    cannot be) is truthy. *)
Definition truthy (x : R) : bool := negb (eq x 0).

(** [x || y] on numbers. *)
Definition or (x y : R) : R := if truthy x then x else y.

(** Truthiness of a number-or-null value, as in [rsi5 && ...]. *)
Definition truthy_opt (o : option R) : bool :=
  match o with Some x => truthy x | None => false end.

(** [o || y] where [o] may be null/undefined. *)
Definition or_opt (o : option R) (y : R) : R :=
  match o with Some x => or x y | None => y end.

(** [o ?? y]. *)
Definition nullish (o : option R) (y : R) : R :=
  match o with Some x => x | None => y end.

(** [Math.floor]. *)
Definition floor (x : R) : Z := Int_part x.

(** [Math.round]: the nearest integer, halves rounded towards
    +Infinity, that is [floor (x + 0.5)].  A tie is decided on the exact
    real; the source decides it on the rounded double. *)
Definition round (x : R) : R := IZR (floor (x + / 2)).

(** [Number(x.toFixed(2))]: [toFixed] picks the integer [n] with
    [n / 100] closest to [x], the larger one on a tie (for [x >= 0];
    a negative [x] is formatted as [-] followed by [(-x).toFixed(2)]).
    A tie is decided on the exact real; the source decides it on the
    rounded double. *)
Definition toFixed2 (x : R) : R :=
  if lt x 0 then - (IZR (floor (- x * 100 + / 2)) / 100)
  else IZR (floor (x * 100 + / 2)) / 100.

(** [arr.reduce((a, b) => a + b, 0)]. *)
Definition sum (l : list R) : R := fold_left (fun a b => a + b) l 0.

(** [arr.slice(-n)] for [0 < n]: the last [n] elements (the whole
    array when it is shorter). *)
Definition lastn {A} (n : nat) (l : list A) : list A :=
  skipn (length l - n) l.

(** [arr[arr.length - 1]]. *)
Definition last_opt {A} (l : list A) : option A := nth_error l (length l - 1).

(** [clamp] of sentiment_engine.js. *)
Definition clamp (x a b : R) : R := Rmin b (Rmax a x).

End Js.

(* ================================================================== *)
(** * config/trading_config.js: the [trading.risk] block *)
(* ================================================================== *)

Record RiskConfig := {
  maxPositionUsd : R;
  maxDailyLossUsd : R;
  stopLossBps : R;
  takeProfitBps : R
}.

(** The values used when the environment sets none. *)
Definition defaultRisk : RiskConfig :=
  {| maxPositionUsd := 5000; maxDailyLossUsd := 1000;
     stopLossBps := 100; takeProfitBps := 200 |}.

(* ================================================================== *)
(** * src/strategies/risk_manager.js *)
(* ================================================================== *)

Inductive Side := SideBuy | SideSell.

Record Stops := { stopLoss : R; takeProfit : R }.

Record Regime := { highVol : bool; trending : bool; liquid : bool }.

Module RiskManager.
Section WithConfig.
Variable risk : RiskConfig.

Definition capOrderSizeUsd (desiredUsd : R) : R :=
  let max := maxPositionUsd risk in
  Rmax 0 (Rmin desiredUsd max).

(** [drawdownFromPeakPct] and [circuitBreaker] default to 0 and false
    at the call sites that omit them. *)
Definition shouldHaltTrading (realizedPnlTodayUsd drawdownFromPeakPct : R)
           (circuitBreaker : bool) : bool :=
  if circuitBreaker then true
  else if Js.le realizedPnlTodayUsd (- Rabs (maxDailyLossUsd risk)) then true
  else if Js.ge drawdownFromPeakPct 10 then true
  else false.

Definition bps (p : R) : R := p / 10000.

(** [atrValue] is [None] when the caller passes [null]/[undefined];
    a missing or zero ATR, or a zero entry price, selects the
    basis-point fallback. *)
Definition computeStops (entryPrice : R) (side : Side) (atrValue : option R)
  : Stops :=
  let slBps := stopLossBps risk in
  let tpBps := takeProfitBps risk in
  let a := Js.nullish atrValue 0 in
  if Js.truthy_opt atrValue && Js.truthy entryPrice then
    let multSL := 1.2 in
    let multTP := 2.0 in
    match side with
    | SideBuy => {| stopLoss := entryPrice - a * multSL;
                    takeProfit := entryPrice + a * multTP |}
    | SideSell => {| stopLoss := entryPrice + a * multSL;
                     takeProfit := entryPrice - a * multTP |}
    end
  else
    match side with
    | SideBuy => {| stopLoss := entryPrice * (1 - bps slBps);
                    takeProfit := entryPrice * (1 + bps tpBps) |}
    | SideSell => {| stopLoss := entryPrice * (1 + bps slBps);
                     takeProfit := entryPrice * (1 - bps tpBps) |}
    end.

Definition detectRegime (atrPct emaSlope : R) (liquidityScore : option R)
  : Regime :=
  {| highVol := Js.gt atrPct 0.02;
     trending := Js.gt (Rabs emaSlope) 0.0005;
     liquid := Js.gt (Js.nullish liquidityScore 0.5) 0.5 |}.

(** Over [R] the fraction is exactly 0 at the break-even probability
    (0.4 for the ratio 1.5); the source, on doubles, keeps a rounding
    residue there. *)
Definition kellyFraction (winProb winLossRatio : R) : R :=
  let p := Rmax 0 (Rmin 1 winProb) in
  let R' := Rmax 0.01 winLossRatio in
  let f := p - (1 - p) / R' in
  Rmax 0 (Rmin 0.25 f).

Definition positionSizeUsd (accountEquityUsd confidence atrPct
                            maxRiskPctPerTrade : R) : R :=
  let volAdj := Rmax 0.25 (1 - atrPct / 0.04) in
  let kelly := kellyFraction confidence 1.5 in
  let raw := accountEquityUsd * Rmin maxRiskPctPerTrade kelly * 5 in
  raw * volAdj.

Definition marketCircuitBreaker (change1hPct change5mPct orderbookImbalance : R)
           (volatilitySpike correlationBreakdown : bool) : bool :=
  if Js.gt (Rabs change1hPct) 8 then true
  else if Js.gt (Rabs change5mPct) 3.5 then true
  else if Js.gt (Rabs orderbookImbalance) 0.8 then true
  else if volatilitySpike then true
  else if correlationBreakdown then true
  else false.

(** [returns1.reduce((a, b) => a + b * b, 0)]. *)
Definition sumSq (l : list R) : R := fold_left (fun a b => a + b * b) l 0.

(** [returns1.reduce((acc, val, i) => acc + val * returns2[i], 0)];
    it is only reached when both arrays have the same length, so every
    [returns2[i]] exists. *)
Definition pSum (l1 l2 : list R) : R :=
  fold_left (fun acc p => acc + fst p * snd p) (combine l1 l2) 0.

(** Over [R] the test [den === 0] fires exactly when one of the series
    has no variance.  On doubles the two factors under the root carry a
    rounding residue, and the source leaves the sentinel branch, or
    takes it, on other inputs: see [Binary64.calculateCorrelation]. *)
Definition calculateCorrelation (returns1 returns2 : list R) : R :=
  if negb (Nat.eqb (length returns1) (length returns2))
     || Nat.ltb (length returns1) 2 then 0
  else
    let n := INR (length returns1) in
    let sum1 := Js.sum returns1 in
    let sum2 := Js.sum returns2 in
    let sum1Sq := sumSq returns1 in
    let sum2Sq := sumSq returns2 in
    let pS := pSum returns1 returns2 in
    let num := pS - (sum1 * sum2 / n) in
    let den := sqrt ((sum1Sq - sum1 * sum1 / n) * (sum2Sq - sum2 * sum2 / n)) in
    if Js.eq den 0 then 0 else num / den.

End WithConfig.
End RiskManager.

(* ================================================================== *)
(** * src/strategies/technical_analyzer.js *)
(* ================================================================== *)

(** A candle as the data model has it; the accessor chains of the
    source ([c.close ?? c.c ?? c[4]]) all read these fields. *)
Record Candle := {
  c_open : R; c_high : R; c_low : R; c_close : R; c_volume : R
}.

Record Macd := { macdLine : R; macdSignal : R; histogram : R }.

Record Bollinger := { bbMiddle : R; bbUpper : R; bbLower : R; bbStd : R }.

Record VolumeProfile := {
  vp_nodes : list R;
  vp_poc : option R;
  vp_range : option (R * R)    (** (min, max) *)
}.

Inductive TechAction := BUY | SELL | HOLD.

(** Every look-back period is positive at the call sites.  With a
    period of 0 the source divides 0 by 0; a real number cannot stand
    for the resulting NaN, so that case is outside the model. *)
Module Indicators.

(** Over [R] the smoothing keeps a constant series constant; on doubles
    it may drift by an ulp. *)
Definition ema (values : list R) (period : nat) : option R :=
  if Nat.ltb (length values) period then None
  else
    let k := 2 / (INR period + 1) in
    let seed := Js.sum (firstn period values) / INR period in
    Some (fold_left (fun emaPrev v => v * k + emaPrev * (1 - k))
                    (skipn period values) seed).

(** [values[i] - values[i - 1]] for the consecutive entries of a
    window. *)
Fixpoint changes (l : list R) : list R :=
  match l with
  | a :: (b :: _) as t => (b - a) :: changes t
  | _ => []
  end.

(** One iteration of the loop of [rsi] on the pair (gains, losses). *)
Definition rsiStep (acc : R * R) (change : R) : R * R :=
  if Js.gt change 0 then (fst acc + change, snd acc)
  else (fst acc, snd acc - change).

(** The loop runs over [i = length - period .. length - 1], i.e. over
    the differences of the last [period + 1] values.  [period] is the
    positive look-back length (14 at every call site). *)
Definition rsi (values : list R) (period : nat) : option R :=
  if Nat.ltb (length values) (period + 1) then None
  else
    let window := Js.lastn (period + 1) values in
    let gl := fold_left rsiStep (changes window) (0, 0) in
    let avgGain := fst gl / INR period in
    let avgLoss := snd gl / INR period in
    if Js.eq avgLoss 0 then Some 100
    else
      let rs := avgGain / avgLoss in
      Some (100 - 100 / (1 + rs)).

(** The body of the loop that rebuilds the MACD history: the entry
    pushed for index [i], if any. *)
Definition macdAt (values : list R) (fast slow : nat) (i : nat) : list R :=
  let slice := firstn (i + 1) values in
  match ema slice fast, ema slice slow with
  | Some emaFast, Some emaSlow => [emaFast - emaSlow]
  | _, _ => []
  end.

Definition macd (values : list R) (fast slow signal : nat) : option Macd :=
  if Nat.ltb (length values) (slow + signal) then None
  else
    match ema values fast, ema values slow with
    | Some fastEma, Some slowEma =>
        let macdValue := fastEma - slowEma in
        let k := 2 / (INR signal + 1) in
        let start := (length values - (slow + signal + 20))%nat in
        let macdSeries :=
          flat_map (macdAt values fast slow)
                   (seq start (length values - start)) in
        let signalEma :=
          match macdSeries with
          | [] => macdValue
          | m0 :: rest =>
              fold_left (fun s m => m * k + s * (1 - k)) rest m0
          end in
        Some {| macdLine := macdValue; macdSignal := signalEma;
                histogram := macdValue - signalEma |}
    | _, _ => None
    end.

Definition bollinger (values : list R) (period : nat) (mult : R)
  : option Bollinger :=
  if Nat.ltb (length values) period then None
  else
    let slice := Js.lastn period values in
    let mean := Js.sum slice / INR period in
    let variance :=
      fold_left (fun a b => a + (b - mean) * (b - mean)) slice 0
      / INR period in
    let std := sqrt variance in
    Some {| bbMiddle := mean; bbUpper := mean + mult * std;
            bbLower := mean - mult * std; bbStd := std |}.

(** True ranges of the consecutive candles of a window: [prev] is the
    candle before [cur] (it always exists, the window starts at index
    [length - period >= 1]). *)
Fixpoint trueRanges (l : list Candle) : list R :=
  match l with
  | prev :: (cur :: _) as t =>
      let high := c_high cur in
      let low := c_low cur in
      let closePrev := c_close prev in
      Rmax (Rmax (high - low) (Rabs (high - closePrev)))
           (Rabs (low - closePrev))
      :: trueRanges t
  | _ => []
  end.

Definition atr (candles : list Candle) (period : nat) : option R :=
  if Nat.ltb (length candles) (period + 1) then None
  else
    let trs := trueRanges (Js.lastn (period + 1) candles) in
    Some (Js.sum trs / INR (length trs)).

(** [Math.min(...xs)] and [Math.max(...xs)] of a non-empty array. *)
Definition minOf (l : list R) : R :=
  match l with [] => 0 | x :: t => fold_left Rmin t x end.

Definition maxOf (l : list R) : R :=
  match l with [] => 0 | x :: t => fold_left Rmax t x end.

(** [nodes[idx] += v] for an index inside the array. *)
Fixpoint addAt (idx : nat) (v : R) (nodes : list R) : list R :=
  match nodes, idx with
  | [], _ => []
  | x :: t, O => (x + v) :: t
  | x :: t, S i => x :: addAt i v t
  end.

(** [nodes.indexOf(x)], counted from [i]; -1 when [x] does not occur. *)
Fixpoint indexOfFrom (x : R) (l : list R) (i : Z) : Z :=
  match l with
  | [] => (-1)%Z
  | y :: t => if Js.eq y x then i else indexOfFrom x t (i + 1)%Z
  end.

(** [bins] is positive at the call site (16). *)
Definition volumeProfile (candles : list Candle) (bins : nat) : VolumeProfile :=
  match candles with
  | [] => {| vp_nodes := []; vp_poc := None; vp_range := None |}
  | _ =>
      let prices := map c_close candles in
      let min := minOf prices in
      let max := maxOf prices in
      let step := Js.or ((max - min) / INR bins) 1 in
      let nodes :=
        fold_left
          (fun nodes c =>
             let idx := Z.min (Z.of_nat bins - 1)
                              (Z.max 0 (Js.floor ((c_close c - min) / step))) in
             addAt (Z.to_nat idx) (Js.or (c_volume c) 0) nodes)
          candles (repeat 0 bins) in
      let pocIdx := indexOfFrom (maxOf nodes) nodes 0 in
      let poc := min + IZR pocIdx * step + step / 2 in
      {| vp_nodes := nodes; vp_poc := Some poc; vp_range := Some (min, max) |}
  end.

Definition normalize (x a b : R) : R :=
  if Js.eq b a then 0
  else Rmax 0 (Rmin 1 ((x - a) / (b - a))).

End Indicators.

Record MultiTf := {
  candles5m : option (list Candle);
  candles1h : option (list Candle);
  candles4h : option (list Candle)
}.

(** The indicator snapshot returned for audit.  (The rationale text of
    the signal is display only and is not part of the model.) *)
Record TechContext := {
  ctx_rsi5m : option R; ctx_rsi1h : option R; ctx_rsi4h : option R;
  ctx_macd1h : option Macd; ctx_macd4h : option Macd;
  ctx_bb5m : option Bollinger; ctx_bb1h : option Bollinger;
  ctx_ema9 : option R; ctx_ema21 : option R; ctx_ema50 : option R;
  ctx_atr1h : option R;
  ctx_volumeProfile1h : VolumeProfile;
  ctx_reversionTarget : option R
}.

Record TechSignal := {
  tech_action : TechAction;
  tech_confidence : R;
  tech_size : R;
  tech_context : TechContext
}.

Module Technical.
Import Indicators.

(** [(cs || []).map((c) => Number(c.close ...))]. *)
Definition toCloses (cs : option (list Candle)) : list R :=
  map c_close (match cs with Some l => l | None => [] end).

(** The "Mean reversion on 5m" block of [analyzeMultiTimeframe]:
    the value of [mrBias] after it. *)
Definition mrBias (bb5 : option Bollinger) (last5 rsi5 : option R) : R :=
  match bb5, last5 with
  | Some bb, Some l5 =>
      if Js.gt l5 (bbUpper bb) && Js.truthy_opt rsi5
         && Js.gt (Js.nullish rsi5 0) 70 then -1
      else if Js.lt l5 (bbLower bb) && Js.truthy_opt rsi5
              && Js.lt (Js.nullish rsi5 0) 30 then 1
      else 0
  | _, _ => 0
  end.

(** The "Trend following on 1h/4h" block: the value of [trendBias]. *)
Definition trendBias (ema9 ema21 ema50 : option R) (macd1 : option Macd) : R :=
  match ema9, ema21, ema50 with
  | Some e9, Some e21, Some e50 =>
      let h := match macd1 with Some m => histogram m | None => 0 end in
      if Js.gt e9 e21 && Js.gt e21 e50 && Js.gt h 0 then 1
      else if Js.lt e9 e21 && Js.lt e21 e50 && Js.lt h 0 then -1
      else 0
  | _, _, _ => 0
  end.

(** The mean-reversion bias of a short-timeframe close series, as
    [analyzeMultiTimeframe] computes it from [closes5]. *)
Definition meanReversionBias (closes5 : list R) : R :=
  mrBias (bollinger closes5 20 2) (Js.last_opt closes5) (rsi closes5 14).

Definition analyzeMultiTimeframe (tf : MultiTf) : TechSignal :=
  let closes5 := toCloses (candles5m tf) in
  let closes1h := toCloses (candles1h tf) in
  let closes4h := toCloses (candles4h tf) in
  let rsi5 := rsi closes5 14 in
  let rsi1 := rsi closes1h 14 in
  let rsi4 := rsi closes4h 14 in
  let macd1 := macd closes1h 12 26 9 in
  let macd4 := macd closes4h 12 26 9 in
  let bb5 := bollinger closes5 20 2 in
  let bb1 := bollinger closes1h 20 2 in
  let ema9 := ema closes1h 9 in
  let ema21 := ema closes1h 21 in
  let ema50 := ema closes1h 50 in
  let atr1 := atr (match candles1h tf with Some l => l | None => [] end) 14 in
  let vp1 := volumeProfile
               (match candles1h tf with Some l => l | None => [] end) 16 in
  let last5 := Js.last_opt closes5 in
  let last1 := Js.last_opt closes1h in
  let mr := mrBias bb5 last5 rsi5 in
  let reversionTarget :=
    match bb5 with Some bb => Some (bbMiddle bb) | None => last5 end in
  let tr := trendBias ema9 ema21 ema50 macd1 in
  let volNorm :=
    normalize (Js.or_opt atr1 0) 0
              (if Js.truthy_opt last1 then Js.nullish last1 0 * 0.03 else 1) in
  let mrWeight := 0.45 * (1 - volNorm) in
  let trendWeight := 0.55 * (0.5 + volNorm / 2) in
  let bias := mr * mrWeight + tr * trendWeight in
  let action :=
    if Js.gt bias 0.1 then BUY
    else if Js.lt bias (-0.1) then SELL
    else HOLD in
  let confidence := Rmin 0.99 (Rabs bias) in
  let size := Rmax 0.05 (Rmin 0.5 (0.25 * (0.5 + volNorm / 2))) in
  {| tech_action := action;
     tech_confidence := Js.toFixed2 confidence;
     tech_size := Js.toFixed2 size;
     tech_context :=
       {| ctx_rsi5m := rsi5; ctx_rsi1h := rsi1; ctx_rsi4h := rsi4;
          ctx_macd1h := macd1; ctx_macd4h := macd4;
          ctx_bb5m := bb5; ctx_bb1h := bb1;
          ctx_ema9 := ema9; ctx_ema21 := ema21; ctx_ema50 := ema50;
          ctx_atr1h := atr1;
          ctx_volumeProfile1h := vp1;
          ctx_reversionTarget := reversionTarget |} |}.

End Technical.

(* ================================================================== *)
(** * src/strategies/sentiment_engine.js *)
(* ================================================================== *)

(** Every field of the collector objects is optional and has its own
    default in the destructuring patterns of the scorers. *)
Record Social := {
  twitterScore : option R; telegramScore : option R;
  trendsScore : option R; newsScore : option R
}.

Record OnChain := {
  whaleInflowUsd : option R; whaleOutflowUsd : option R;
  exchangeNetflow : option R; gasPriceGwei : option R;
  activeAddrsDelta : option R
}.

Record Cluster := { cl_price : R; cl_size : R }.

Record Orderbook := {
  imbalance : option R; bidDepth : option R; askDepth : option R
}.

Record Market := {
  supports : option (list R);
  resistances : option (list R);
  liquidationClusters : option (list Cluster);
  orderbook : option Orderbook
}.

Inductive Label := bullish | bearish | neutral.

Record Breakdown := { socialScore : R; onchainScore : R; structureScore : R }.

Record Sentiment := { score : R; label : Label; breakdown : Breakdown }.

Module SentimentEngine.

Definition emptySocial : Social :=
  {| twitterScore := None; telegramScore := None;
     trendsScore := None; newsScore := None |}.

Definition emptyOnChain : OnChain :=
  {| whaleInflowUsd := None; whaleOutflowUsd := None;
     exchangeNetflow := None; gasPriceGwei := None;
     activeAddrsDelta := None |}.

Definition emptyOrderbook : Orderbook :=
  {| imbalance := None; bidDepth := None; askDepth := None |}.

Definition emptyMarket : Market :=
  {| supports := None; resistances := None;
     liquidationClusters := None; orderbook := None |}.

Definition scoreSocial (social : option Social) : R :=
  let s := match social with Some s => s | None => emptySocial end in
  let twitter := Js.nullish (twitterScore s) 0 in
  let telegram := Js.nullish (telegramScore s) 0 in
  let trends := Js.nullish (trendsScore s) 0 in
  let news := Js.nullish (newsScore s) 0 in
  let weighted := 0.35 * twitter + 0.2 * telegram + 0.25 * news + 0.2 * trends in
  Js.clamp (Js.round (weighted * 50 + 50)) 0 100.

Definition scoreOnChain (onchain : option OnChain) : R :=
  let o := match onchain with Some o => o | None => emptyOnChain end in
  let whaleIn := Js.nullish (whaleInflowUsd o) 0 in
  let whaleOut := Js.nullish (whaleOutflowUsd o) 0 in
  let netflow := Js.nullish (exchangeNetflow o) 0 in
  let gas := Js.nullish (gasPriceGwei o) 0 in
  let addrs := Js.nullish (activeAddrsDelta o) 0 in
  let whaleNetUsd := whaleIn - whaleOut in
  let whaleTerm := tanh (whaleNetUsd / 1000000) in
  let flowTerm := Js.clamp netflow (-1) 1 in
  let gasTerm := tanh ((gas - 20) / 50) in
  let addrTerm := Js.clamp addrs (-1) 1 in
  let weighted :=
    0.45 * whaleTerm - 0.25 * flowTerm + 0.15 * gasTerm + 0.15 * addrTerm in
  Js.clamp (Js.round (weighted * 50 + 50)) 0 100.

(** The accumulator of the liquidation-cluster [reduce]:
    distance, whether the cluster is above the price, and its size. *)
Definition nearestStep (lastPrice : R) (best : option (R * bool * R))
           (c : Cluster) : option (R * bool * R) :=
  let d := Rabs (cl_price c - lastPrice) in
  match best with
  | None => Some (d, Js.gt (cl_price c) lastPrice, cl_size c)
  | Some (bd, _, _) =>
      if Js.lt d bd then Some (d, Js.gt (cl_price c) lastPrice, cl_size c)
      else best
  end.

(** [levels.reduce((p, s) => Math.min(p, Math.abs(s - lastPrice)),
    Infinity)]; [None] stands for [Infinity]. *)
Definition closest (lastPrice : R) (levels : list R) : option R :=
  fold_left (fun p s =>
               match p with
               | None => Some (Rabs (s - lastPrice))
               | Some p' => Some (Rmin p' (Rabs (s - lastPrice)))
               end) levels None.

(** [Math.tanh((nearR - nearS) * 5)] with [nearS = closestSupport /
    lastPrice] and [nearR = closestResistance / lastPrice], where a
    closest distance may be [Infinity]: [Infinity / lastPrice] has
    the sign of [lastPrice], and [tanh] of an infinity is 1 or -1.
    Both being infinite does not occur, one of the two lists is
    non-empty. *)
Definition srBiasOf (lastPrice : R) (cs cr : option R) : R :=
  match cs, cr with
  | Some s, Some r => tanh ((r / lastPrice - s / lastPrice) * 5)
  | None, Some _ => if Js.gt lastPrice 0 then -1 else 1
  | Some _, None => if Js.gt lastPrice 0 then 1 else -1
  | None, None => 0
  end.

Definition scoreMarketStructure (market : option Market) (lastPrice : R) : R :=
  let m := match market with Some m => m | None => emptyMarket end in
  let sups := match supports m with Some l => l | None => [] end in
  let ress := match resistances m with Some l => l | None => [] end in
  let clusters := match liquidationClusters m with Some l => l | None => [] end in
  let ob := match orderbook m with Some o => o | None => emptyOrderbook end in
  let imb := Js.nullish (imbalance ob) 0 in
  let bid := Js.nullish (bidDepth ob) 0 in
  let ask := Js.nullish (askDepth ob) 0 in
  let clusterBias :=
    if negb (Nat.eqb (length clusters) 0) && Js.truthy lastPrice then
      match fold_left (nearestStep lastPrice) clusters None with
      | Some (_, above, size) =>
          tanh ((if above then - size else size) / 1000000)
      | None => 0
      end
    else 0 in
  let depthBias :=
    tanh (((bid - ask) / Rmax 1 (bid + ask)) * 3) + Js.clamp imb (-1) 1 * 0.5 in
  let srBias :=
    if Js.truthy lastPrice
       && (negb (Nat.eqb (length sups) 0) || negb (Nat.eqb (length ress) 0))
    then srBiasOf lastPrice (closest lastPrice sups) (closest lastPrice ress)
    else 0 in
  let weighted := 0.5 * depthBias + 0.5 * srBias + 0.3 * clusterBias in
  Js.clamp (Js.round (weighted * 50 + 50)) 0 100.

Definition fuseSentiment (social : option Social) (onchain : option OnChain)
           (market : option Market) (lastPrice : R) : Sentiment :=
  let socialS := scoreSocial social in
  let onchainS := scoreOnChain onchain in
  let structureS := scoreMarketStructure market lastPrice in
  let sc := Js.round (0.45 * socialS + 0.35 * onchainS + 0.2 * structureS) in
  let lab :=
    if Js.gt sc 60 then bullish
    else if Js.lt sc 40 then bearish
    else neutral in
  {| score := sc; label := lab;
     breakdown := {| socialScore := socialS; onchainScore := onchainS;
                     structureScore := structureS |} |}.

End SentimentEngine.

(* ================================================================== *)
(** * src/ai/decision_engine.js *)
(* ================================================================== *)

(** [(t.strategy || '').toLowerCase()], classified by the three string
    comparisons of [computePerfWeights]. *)
Inductive StrategyKey := KeyTech | KeyTechnical | KeySentiment | KeyOther.

Record Trade := {
  strategy : StrategyKey;
  success : bool;      (** [t.success === true] *)
  rr : R               (** [Number(t.rr)] *)
}.

Record Events := {
  ev_social : option Social;
  ev_onchain : option OnChain;
  ev_market : option Market
}.

Record Positions := { equityUsd : option R }.

(** The argument object of [decideTrade] (the symbol is only copied
    into the result and the prompts). *)
Record Input := {
  candles : option (list Candle);
  events : option Events;
  positions : option Positions;
  multiTf : option MultiTf;
  recentTrades : option (list Trade)
}.

(** What [sanitizeDecision] returns: the action is one of the three
    allowed words, the numbers are clamped by it. *)
Record LlmDecision := {
  llm_action : TechAction;
  llm_confidence : R;
  positionSizePct : R;
  llm_stopLoss : R;
  llm_takeProfit : R
}.

(** What [consultDeepSeek] resolves to, when it is not [null]: a
    sanitized decision, or [{ raw: text }] when the reply held no JSON
    object.  The call itself is an external oracle, its result is an
    input of the model. *)
Inductive Advisory := Sanitized (d : LlmDecision) | RawText.

Inductive Action := buy | sell | hold.

Record TradeDecision := {
  action : Action;
  confidence : R;
  sizeUsd : R;
  regime : Regime;
  stops : Stops;
  llmDecision : option Advisory
}.

(** Exceptions the body of [decideTrade] can raise. *)
Inductive JsError :=
| TypeError_AssignmentToConstant.   (** an assignment to a [const] binding *)

(** The result of one call: the record [{ action: 'hold', reason:
    'risk_halt' }] of the gate, the full decision record of the final
    [return], or a rejected promise. *)
Inductive Outcome :=
| RiskHalt
| Emit (d : TradeDecision)
| Throw (e : JsError).

Module Orchestrator.
Section WithConfig.
Variable risk : RiskConfig.

Definition isTechKey (t : Trade) : bool :=
  match strategy t with KeyTech | KeyTechnical => true | _ => false end.

Definition isSentimentKey (t : Trade) : bool :=
  match strategy t with KeySentiment => true | _ => false end.

(** The inner [score] of [computePerfWeights]. *)
Definition perfScore (arr : list Trade) : R :=
  match arr with
  | [] => 0.5
  | _ =>
      let n := INR (length arr) in
      let wins := INR (length (filter success arr)) / n in
      let avgRr := fold_left (fun a b => a + Js.or (rr b) 0) arr 0 / n in
      Rmax 0 (Rmin 1 (0.6 * wins + 0.4 * tanh avgRr))
  end.

(** Returns the pair (tech, sentiment). *)
Definition computePerfWeights (trades : list Trade) : R * R :=
  let techScore := perfScore (filter isTechKey trades) in
  let sentScore := perfScore (filter isSentimentKey trades) in
  let sum := Js.or (techScore + sentScore) 1 in
  (techScore / sum, sentScore / sum).

Definition lastCloseOf (cs : option (list Candle)) : option R :=
  match cs with
  | Some l => option_map c_close (Js.last_opt l)
  | None => None
  end.

(** [multiTf?.candles1h?.[...]?.close || candles?.[...]?.close || 0]. *)
Definition lastClose (inp : Input) : R :=
  let viaTf := match multiTf inp with
               | Some tf => lastCloseOf (candles1h tf)
               | None => None
               end in
  Js.or_opt viaTf (Js.or_opt (lastCloseOf (candles inp)) 0).

(** [analyzeMultiTimeframe(multiTf || { candles5m: candles, ... })]. *)
Definition techOf (inp : Input) : TechSignal :=
  Technical.analyzeMultiTimeframe
    (match multiTf inp with
     | Some tf => tf
     | None => {| candles5m := candles inp; candles1h := candles inp;
                  candles4h := candles inp |}
     end).

Definition sentimentOf (inp : Input) : Sentiment :=
  let ev := events inp in
  SentimentEngine.fuseSentiment
    (match ev with Some e => ev_social e | None => None end)
    (match ev with Some e => ev_onchain e | None => None end)
    (match ev with Some e => ev_market e | None => None end)
    (lastClose inp).

(** [tech?.context?.atr?.['1h'] || 0]. *)
Definition atr1Of (inp : Input) : R :=
  Js.or_opt (ctx_atr1h (tech_context (techOf inp))) 0.

Definition atrPctOf (inp : Input) : R :=
  if Js.truthy (atr1Of inp) && Js.truthy (lastClose inp)
  then atr1Of inp / lastClose inp else 0.

Definition regimeOf (inp : Input) : Regime :=
  let ctx := tech_context (techOf inp) in
  let ema9 := Js.or_opt (ctx_ema9 ctx) (lastClose inp) in
  let ema21 := Js.or_opt (ctx_ema21 ctx) (lastClose inp) in
  let emaSlope := (ema9 - ema21) / Rmax 1 (lastClose inp) in
  let hasOrderbook :=
    match events inp with
    | Some e => match ev_market e with
                | Some m => match orderbook m with Some _ => true | None => false end
                | None => false
                end
    | None => false
    end in
  RiskManager.detectRegime (atrPctOf inp) emaSlope
                           (Some (if hasOrderbook then 0.6 else 0.5)).

(** The locally computed action and confidence: strategy fusion
    followed by conflict resolution, i.e. the values of [action] and
    [confidence] just before the position is sized. *)
Definition localSignal (inp : Input) : Action * R :=
  let tech := techOf inp in
  let sentiment := sentimentOf inp in
  let reg := regimeOf inp in
  let baseTechWeight := if trending reg then 0.65 else 0.45 in
  let baseSentWeight := 1 - baseTechWeight in
  let perfW := computePerfWeights
                 (match recentTrades inp with Some l => l | None => [] end) in
  let techWeight := Rmin 0.8 (Rmax 0.2 (0.5 * baseTechWeight + 0.5 * fst perfW)) in
  let sentWeight := Rmin 0.8 (Rmax 0.2 (0.5 * baseSentWeight + 0.5 * snd perfW)) in
  let norm := Js.or (techWeight + sentWeight) 1 in
  let techBias :=
    match tech_action tech with BUY => 1 | SELL => -1 | HOLD => 0 end in
  let techStrength := Js.or (tech_confidence tech) 0.5 in
  let sentimentBias := (score sentiment - 50) / 50 in
  let fused := (techBias * techStrength) * (techWeight / norm)
               + sentimentBias * (sentWeight / norm) in
  let action0 :=
    if Js.gt fused 0.1 then buy
    else if Js.lt fused (-0.1) then sell
    else hold in
  let conf := Rmin 0.99 (Rabs fused) in
  let conflict :=
    (Js.gt techBias 0 && Js.lt sentimentBias (-0.25))
    || (Js.lt techBias 0 && Js.gt sentimentBias 0.25) in
  let action1 :=
    if conflict && Js.lt conf 0.25 then hold
    else if conflict && Js.ge conf 0.25 then
      (if trending reg
       then (if Js.gt techBias 0 then buy else sell)
       else (if Js.gt sentimentBias 0 then buy else sell))
    else action0 in
  (action1, conf).

Definition accountEquityUsd (inp : Input) : R :=
  Js.or_opt (match positions inp with
             | Some p => equityUsd p
             | None => None
             end) 10000.

(** [const sizeUsd = capOrderSizeUsd(notionalSize)]. *)
Definition localSizeUsd (inp : Input) : R :=
  RiskManager.capOrderSizeUsd risk
    (RiskManager.positionSizeUsd (accountEquityUsd inp)
       (snd (localSignal inp)) (atrPctOf inp) 0.02).

Definition lowerAction (a : TechAction) : Action :=
  match a with BUY => buy | SELL => sell | HOLD => hold end.

(** The condition under which the advisory reply overrides the local
    signal. *)
Definition accepts (act : Action) (conf : R) (l : LlmDecision) : bool :=
  let llmBias :=
    match llm_action l with BUY => 1 | SELL => -1 | HOLD => 0 end in
  let aligns :=
    match act with
    | buy => Js.gt llmBias 0
    | sell => Js.lt llmBias 0
    | hold => Js.eq llmBias 0
    end in
  let confOk := Js.ge (Js.or (llm_confidence l) 0) (conf - 0.1) in
  (aligns && confOk) || Js.gt (Js.or (llm_confidence l) 0) (conf + 0.2).

(** The final [return] of [decideTrade]. *)
Definition emit (inp : Input) (act : Action) (conf size : R)
           (adv : option Advisory) : Outcome :=
  Emit {| action := act;
          confidence := conf;
          sizeUsd := size;
          regime := regimeOf inp;
          stops := RiskManager.computeStops risk
                     (Js.or (lastClose inp) 0)
                     (match act with sell => SideSell | _ => SideBuy end)
                     (Some (atr1Of inp));
          llmDecision := adv |}.

(** [advisory] is what [await consultDeepSeek(...)] yields.

    The gate evaluates both predicates on literal arguments.

    [sizeUsd] is declared with [const]; the statement
    [sizeUsd = Math.min(sizeUsd, sized)] in the overlay is therefore an
    assignment to a constant binding, which raises a TypeError when it
    is executed (the right-hand side is evaluated first and has no
    effect). *)
Definition decideTrade (inp : Input) (advisory : option Advisory) : Outcome :=
  let circuit := RiskManager.marketCircuitBreaker 0 0 0 false false in
  if RiskManager.shouldHaltTrading risk 0 0 circuit then RiskHalt
  else
    let act := fst (localSignal inp) in
    let conf := snd (localSignal inp) in
    let size := localSizeUsd inp in
    match advisory with
    | Some (Sanitized l) =>
        if accepts act conf l then
          let act' := lowerAction (llm_action l) in
          let conf' := Rmax conf (Js.or (llm_confidence l) 0) in
          if Js.truthy (positionSizePct l) then
            let llmSizeUsd := accountEquityUsd inp * (positionSizePct l / 100) in
            let sized := RiskManager.capOrderSizeUsd risk llmSizeUsd in
            if Js.gt sized 0 then Throw TypeError_AssignmentToConstant
            else emit inp act' conf' size advisory
          else emit inp act' conf' size advisory
        else emit inp act conf size advisory
    | _ => emit inp act conf size advisory
    end.

End WithConfig.
End Orchestrator.

(* ================================================================== *)
(** * src/strategies/risk_manager.js: portfolio analysis *)
(* ================================================================== *)

(** A position object; [notionalValue] may be missing. *)
Record Holding := { notionalValue : option R }.

(** [riskConcentration] is [None] where the source computes NaN: every
    weight is 0 / 0 when all notional values are 0. *)
Record CorrelationStats := {
  avgCorrelation : R;
  maxCorrelation : R;
  riskConcentration : option R
}.

Record VolatilityMetrics := { currentVol : option R; avgVol : option R }.

Record RiskFlags := {
  correlationBreakdown : bool;
  concentrationRisk : bool;
  volatilitySpike : bool;
  drawdownLimit : bool
}.

Record RiskAssessment := {
  correlation : CorrelationStats;
  riskFlags : RiskFlags;
  shouldHalt : bool
}.

Module PortfolioRisk.
Section WithSymbols.
(** The keys of the [positions] and [priceHistory] objects. *)
Variable Symbol : Type.

(** The [positions] object as its entries in key order, and the
    [priceHistory] object as its lookup. *)
Definition PositionsObj := list (Symbol * Holding).
Definition PriceHistory := Symbol -> option (list R).

(** [priceHistory[sym] || []]. *)
Definition historyOf (h : PriceHistory) (s : Symbol) : list R :=
  match h s with Some l => l | None => [] end.

(** The body of the inner loop: what is pushed for the pair. *)
Definition pairCorrelation (h : PriceHistory) (sym1 sym2 : Symbol) : list R :=
  let returns1 := historyOf h sym1 in
  let returns2 := historyOf h sym2 in
  if Nat.leb 10 (length returns1) && Nat.leb 10 (length returns2) then
    [Rabs (RiskManager.calculateCorrelation (Js.lastn 20 returns1)
                                            (Js.lastn 20 returns2))]
  else [].

(** The two nested loops over [i < j]. *)
Fixpoint pairCorrelations (h : PriceHistory) (symbols : list Symbol) : list R :=
  match symbols with
  | [] => []
  | sym1 :: rest =>
      flat_map (pairCorrelation h sym1) rest ++ pairCorrelations h rest
  end.

(** [Math.abs(pos.notionalValue || 0)]. *)
Definition absNotional (pos : Holding) : R :=
  Rabs (Js.or_opt (notionalValue pos) 0).

(** The pair correlations are real numbers here.  In the source a pair
    with a constant history can be NaN, and [Math.abs], the average and
    [Math.max] pass a NaN on: the statements about these statistics
    exclude such histories. *)
Definition analyzePortfolioCorrelation (positions : PositionsObj)
           (priceHistory : PriceHistory) : CorrelationStats :=
  let symbols := map fst positions in
  if Nat.ltb (length symbols) 2 then
    {| avgCorrelation := 0; maxCorrelation := 0; riskConcentration := Some 0 |}
  else
    let correlations := pairCorrelations priceHistory symbols in
    let avg :=
      match correlations with
      | [] => 0
      | _ => Js.sum correlations / INR (length correlations)
      end in
    let max :=
      match correlations with
      | [] => 0
      | _ => Indicators.maxOf correlations
      end in
    let totalValue :=
      fold_left (fun sum pos => sum + absNotional (snd pos)) positions 0 in
    let weights := map (fun pos => absNotional (snd pos) / totalValue) positions in
    let conc :=
      if Js.eq totalValue 0 then None
      else Some (fold_left (fun sum w => sum + w * w) weights 0) in
    {| avgCorrelation := avg; maxCorrelation := max; riskConcentration := conc |}.

(** [x > 0.6] on a value that may be NaN: false for NaN. *)
Definition gtOpt (o : option R) (y : R) : bool :=
  match o with Some x => Js.gt x y | None => false end.

Definition advancedRiskCheck (positions : PositionsObj)
           (priceHistory : PriceHistory) (currentDrawdown : R)
           (volatilityMetrics : option VolatilityMetrics) : RiskAssessment :=
  let corr := analyzePortfolioCorrelation positions priceHistory in
  let correlationBreakdown := Js.gt (maxCorrelation corr) 0.8 in
  let concentrationRisk := gtOpt (riskConcentration corr) 0.6 in
  let cur := match volatilityMetrics with
             | Some vm => Js.or_opt (currentVol vm) 0 | None => 0 end in
  let av := match volatilityMetrics with
            | Some vm => Js.or_opt (avgVol vm) 0 | None => 0 end in
  let volatilitySpike := Js.gt cur (av * 2) in
  let drawdownLimit := Js.gt currentDrawdown 0.08 in
  {| correlation := corr;
     riskFlags := {| correlationBreakdown := correlationBreakdown;
                     concentrationRisk := concentrationRisk;
                     volatilitySpike := volatilitySpike;
                     drawdownLimit := drawdownLimit |};
     shouldHalt := correlationBreakdown || concentrationRisk
                   || volatilitySpike || drawdownLimit |}.

End WithSymbols.
End PortfolioRisk.

(* ================================================================== *)
(** * src/strategies/risk_manager.js: the correlation in binary64 *)
(* ================================================================== *)

(** [calculateCorrelation] once more, operation by operation and in the
    order of the source, on binary64 floats with round-to-nearest-even:
    the arithmetic the source runs on.  [eqb] is the IEEE equality of
    [===] (false on NaN); [sqrt] of a negative number is NaN, as
    [Math.sqrt]. *)
Module Binary64.
Import PrimFloat.
#[local] Set Warnings "-inexact-float".
Local Open Scope float_scope.

(** An array length as a number; exact below 2^53. *)
Fixpoint ofNat (n : nat) : float :=
  match n with
  | O => 0
  | S m => ofNat m + 1
  end.

Definition sum (l : list float) : float := fold_left (fun a b => a + b) l 0.

Definition sumSq (l : list float) : float :=
  fold_left (fun a b => a + b * b) l 0.

Definition pSum (l1 l2 : list float) : float :=
  fold_left (fun acc p => acc + fst p * snd p) (combine l1 l2) 0.

Definition calculateCorrelation (returns1 returns2 : list float) : float :=
  if negb (Nat.eqb (length returns1) (length returns2))
     || Nat.ltb (length returns1) 2 then 0
  else
    let n := ofNat (length returns1) in
    let sum1 := sum returns1 in
    let sum2 := sum returns2 in
    let sum1Sq := sumSq returns1 in
    let sum2Sq := sumSq returns2 in
    let pS := pSum returns1 returns2 in
    let num := pS - (sum1 * sum2 / n) in
    let den := sqrt ((sum1Sq - sum1 * sum1 / n) * (sum2Sq - sum2 * sum2 / n)) in
    if eqb den 0 then 0 else num / den.

(** Three return series: a constant one, a rising one, and one whose
    two points differ in the ninth significant digit. *)
Definition constantSeries : list float := [0.1; 0.1; 0.1].

Definition risingSeries : list float := [1; 2; 3].

Definition offsetSeries : list float := [1000000.01; 1000000.02].

End Binary64.

(* ================================================================== *)
(** * src/utils/simulator.js *)
(* ================================================================== *)

(** The trade record of [executeTrade].  Its [id] (clock and random
    number), timestamp and rationale text are left out; the record has
    no [pnl] property. *)
Record SimTrade (Symbol : Type) := {
  st_symbol : Symbol;
  st_side : Action;
  st_quantity : R;
  st_price : R;
  st_value : R;
  st_fee : R;
  st_confidence : R
}.
Arguments st_symbol {Symbol}.
Arguments st_side {Symbol}.
Arguments st_quantity {Symbol}.
Arguments st_price {Symbol}.
Arguments st_value {Symbol}.
Arguments st_fee {Symbol}.
Arguments st_confidence {Symbol}.

(** The fields of a [TradingSimulator]; [heldQty] is the [positions]
    object, [None] for a symbol without an entry. *)
Record SimState (Symbol : Type) := {
  initialBalance : R;
  balance : R;
  heldQty : Symbol -> option R;
  trades : list (SimTrade Symbol);
  equity : R;
  peakEquity : R;
  maxDrawdown : R;
  fees : R
}.
Arguments initialBalance {Symbol}.
Arguments balance {Symbol}.
Arguments heldQty {Symbol}.
Arguments trades {Symbol}.
Arguments equity {Symbol}.
Arguments peakEquity {Symbol}.
Arguments maxDrawdown {Symbol}.
Arguments fees {Symbol}.

Record Performance := {
  totalReturn : R;
  sharpeRatio : R;
  perfMaxDrawdown : R;
  winRate : R;
  totalTrades : nat;
  finalEquity : R;
  totalPnl : R
}.

(** One entry of [results.equity]. *)
Record EquityPoint := { ep_equity : R; ep_drawdown : R }.

Module Simulator.
Section WithSymbols.
Variable Symbol : Type.
(** [===] on the keys of the [positions] object. *)
Variable symbol_eqb : Symbol -> Symbol -> bool.

Definition State := SimState Symbol.

(** [new TradingSimulator(options)]. *)
Definition construct (optInitialBalance optFees : option R) : State :=
  let ib := Js.or_opt optInitialBalance 10000 in
  {| initialBalance := ib; balance := ib; heldQty := fun _ => None;
     trades := []; equity := ib; peakEquity := ib; maxDrawdown := 0;
     fees := Js.or_opt optFees 0.001 |}.

(** [positions[symbol] = v] and [delete positions[symbol]]. *)
Definition setQty (m : Symbol -> option R) (symbol : Symbol) (v : option R)
  : Symbol -> option R :=
  fun k => if symbol_eqb k symbol then v else m k.

(** The tail of [executeTrade]: build the record, push it, return it. *)
Definition recordTrade (s : State) (symbol : Symbol) (decision : TradeDecision)
           (quantity price feeAmount : R) : option (SimTrade Symbol) * State :=
  let trade := {| st_symbol := symbol; st_side := action decision;
                  st_quantity := quantity; st_price := price;
                  st_value := sizeUsd decision; st_fee := feeAmount;
                  st_confidence := confidence decision |} in
  (Some trade,
   {| initialBalance := initialBalance s; balance := balance s;
      heldQty := heldQty s; trades := trades s ++ [trade];
      equity := equity s; peakEquity := peakEquity s;
      maxDrawdown := maxDrawdown s; fees := fees s |}).

Definition withBalanceQty (s : State) (b : R) (m : Symbol -> option R) : State :=
  {| initialBalance := initialBalance s; balance := b; heldQty := m;
     trades := trades s; equity := equity s; peakEquity := peakEquity s;
     maxDrawdown := maxDrawdown s; fees := fees s |}.

(** Returns the trade ([None] for [null]) and the simulator after the
    call.  The price is the close of the candle; a price of 0 makes the
    source divide by zero and is outside the model. *)
Definition executeTrade (s : State) (symbol : Symbol) (decision : TradeDecision)
           (currentCandle : Candle) : option (SimTrade Symbol) * State :=
  let price := c_close currentCandle in
  let quantity := sizeUsd decision / price in
  let feeAmount := sizeUsd decision * fees s in
  match action decision with
  | buy =>
      if Js.lt (balance s) (sizeUsd decision + feeAmount) then (None, s)
      else
        let s' := withBalanceQty s
                    (balance s - (sizeUsd decision + feeAmount))
                    (setQty (heldQty s) symbol
                            (Some (Js.or_opt (heldQty s symbol) 0 + quantity))) in
        recordTrade s' symbol decision quantity price feeAmount
  | sell =>
      let currentPosition := Js.or_opt (heldQty s symbol) 0 in
      if Js.le currentPosition 0 then (None, s)
      else
        let sellQuantity := Rmin quantity currentPosition in
        let sellValue := sellQuantity * price in
        let left := currentPosition - sellQuantity in
        let s' := withBalanceQty s
                    (balance s + (sellValue - feeAmount))
                    (setQty (heldQty s) symbol
                            (if Js.le left 0 then None else Some left)) in
        recordTrade s' symbol decision quantity price feeAmount
  | hold => recordTrade s symbol decision quantity price feeAmount
  end.

(** The peak equity is positive in every run that starts from a
    positive balance; with a peak of 0 the source divides by zero. *)
Definition updateEquity (s : State) : State :=
  let eq := balance s in
  let peak := if Js.gt eq (peakEquity s) then eq else peakEquity s in
  let currentDrawdown := (peak - eq) / peak in
  {| initialBalance := initialBalance s; balance := balance s;
     heldQty := heldQty s; trades := trades s;
     equity := eq; peakEquity := peak;
     maxDrawdown := if Js.gt currentDrawdown (maxDrawdown s)
                    then currentDrawdown else maxDrawdown s;
     fees := fees s |}.

(** [t.pnl]: no trade record has that property. *)
Definition pnlOf (t : SimTrade Symbol) : option R := None.

Definition calculateStandardDeviation (values : list R) : R :=
  if Nat.ltb (length values) 2 then 0
  else
    let mean := Js.sum values / INR (length values) in
    let squaredDiffs := map (fun value => (value - mean) * (value - mean)) values in
    let avgSquaredDiff := Js.sum squaredDiffs / INR (length values) in
    sqrt avgSquaredDiff.

Definition calculatePerformance (s : State) : Performance :=
  let totalReturn := (equity s - initialBalance s) / initialBalance s in
  let winningTrades :=
    length (filter (fun t => Js.truthy_opt (pnlOf t)
                             && Js.gt (Js.nullish (pnlOf t) 0) 0) (trades s)) in
  let winRate :=
    if Nat.ltb 0 (length (trades s))
    then INR winningTrades / INR (length (trades s)) else 0 in
  let returns := map (fun t => Js.or_opt (pnlOf t) 0) (trades s) in
  let avgReturn :=
    if Nat.ltb 0 (length returns) then Js.sum returns / INR (length returns)
    else 0 in
  let returnStd := calculateStandardDeviation returns in
  let sharpeRatio :=
    if Js.gt returnStd 0 then (avgReturn / returnStd) * sqrt 252 else 0 in
  {| totalReturn := totalReturn; sharpeRatio := sharpeRatio;
     perfMaxDrawdown := maxDrawdown s; winRate := winRate;
     totalTrades := length (trades s); finalEquity := equity s;
     totalPnl := equity s - initialBalance s |}.

Definition reset (s : State) : State :=
  {| initialBalance := initialBalance s; balance := initialBalance s;
     heldQty := fun _ => None; trades := [];
     equity := initialBalance s; peakEquity := initialBalance s;
     maxDrawdown := 0; fees := fees s |}.

(** [getPositionsForSymbol(symbol)], as far as [decideTrade] reads it. *)
Definition getPositionsForSymbol (s : State) (symbol : Symbol) : Positions :=
  {| equityUsd := Some (equity s) |}.

(** The events literal of [backtest], [{ social: 50, onChain: 50,
    market: 50 }]: destructuring the number 50 yields no property, so
    [social] and [market] behave like empty objects, and [onchain]
    (lower case) is missing. *)
Definition backtestEvents : Events :=
  {| ev_social := Some SentimentEngine.emptySocial;
     ev_onchain := None;
     ev_market := Some SentimentEngine.emptyMarket |}.

(** The argument of [decideTrade] in [backtest]: [prepareHistoricalData]
    hands over one candle per data point. *)
Definition backtestInput (s : State) (symbol : Symbol) (candle : Candle) : Input :=
  {| candles := Some [candle];
     events := Some backtestEvents;
     positions := Some (getPositionsForSymbol s symbol);
     multiTf := Some {| candles5m := Some [candle]; candles1h := Some [candle];
                        candles4h := Some [candle] |};
     recentTrades := None |}.

(** One iteration of the loop of [backtest], given what [decideTrade]
    resolved to: the trade pushed to [results.trades], the equity point
    pushed to [results.equity], and the simulator afterwards.  A
    rejected promise lands in the [catch], which only logs. *)
Definition backtestStep (s : State) (symbol : Symbol) (candle : Candle)
           (outcome : Outcome)
  : option (SimTrade Symbol) * option EquityPoint * State :=
  let snapshot (s' : State) :=
    Some {| ep_equity := equity s';
            ep_drawdown := (peakEquity s' - equity s') / peakEquity s' |} in
  match outcome with
  | Throw _ => (None, None, s)
  | RiskHalt => (None, snapshot s, s)
  | Emit decision =>
      if negb (match action decision with hold => true | _ => false end)
         && Js.gt (sizeUsd decision) 0 then
        match executeTrade s symbol decision candle with
        | (Some trade, s') =>
            let s'' := updateEquity s' in (Some trade, snapshot s'', s'')
        | (None, s') => (None, snapshot s', s')
        end
      else (None, snapshot s, s)
  end.

End WithSymbols.
End Simulator.

(* ================================================================== *)
(** * Vocabulary of the statements and the inputs used in examples *)
(* ================================================================== *)

(** The factor of a series under the square root of the correlation's
    denominator. *)
Definition windowVar (l : list R) : R :=
  RiskManager.sumSq l - Js.sum l * Js.sum l / INR (length l).

(** Mean and population variance of a window. *)
Definition mean (l : list R) : R := Js.sum l / INR (length l).

Definition sqDev (m : R) (l : list R) : R :=
  fold_left (fun a b => a + (b - m) * (b - m)) l 0.

Definition variance (l : list R) : R := sqDev (mean l) l / INR (length l).

(** Each value is strictly above the one before it. *)
Fixpoint strictlyIncreasing (l : list R) : Prop :=
  match l with
  | a :: (b :: _) as t => a < b /\ strictlyIncreasing t
  | _ => True
  end.

(** Each value is strictly below the one before it. *)
Fixpoint strictlyDecreasing (l : list R) : Prop :=
  match l with
  | a :: (b :: _) as t => b < a /\ strictlyDecreasing t
  | _ => True
  end.

(** No value is below the one before it. *)
Fixpoint nonDecreasing (l : list R) : Prop :=
  match l with
  | a :: (b :: _) as t => a <= b /\ nonDecreasing t
  | _ => True
  end.

(** The [avgLoss] of [rsi]: the losses accumulated over the trailing
    [period] differences, divided by [period]. *)
Definition trailingAvgLoss (values : list R) (period : nat) : R :=
  snd (fold_left Indicators.rsiStep
                 (Indicators.changes (Js.lastn (period + 1) values)) (0, 0))
  / INR period.

(** Twenty 5-minute closes: nineteen at 100, then a drop to 20. *)
Definition crashCloses : list R := repeat 100 19 ++ [20].

(** A call with no candles, no events, no positions and no history. *)
Definition emptyInput : Input :=
  {| candles := None; events := None; positions := None;
     multiTf := None; recentTrades := None |}.

(** An order book that leans 90% to one side, everything else absent. *)
Definition imbalancedInput : Input :=
  {| candles := None;
     events := Some {| ev_social := None; ev_onchain := None;
                       ev_market := Some
                         {| supports := None; resistances := None;
                            liquidationClusters := None;
                            orderbook := Some {| imbalance := Some 0.9;
                                                 bidDepth := None;
                                                 askDepth := None |} |} |};
     positions := None; multiTf := None; recentTrades := None |}.

(** A well-formed advisory reply: hold, confidence 0.5, 10% of equity. *)
Definition holdAdvice : LlmDecision :=
  {| llm_action := HOLD; llm_confidence := 0.5; positionSizePct := 10;
     llm_stopLoss := 0; llm_takeProfit := 0 |}.

(** The advisory action is the local action. *)
Definition aligned (act : Action) (l : LlmDecision) : Prop :=
  Orchestrator.lowerAction (llm_action l) = act.

(** The order-book imbalance an input reports, 0 when it reports none. *)
Definition orderbookImbalanceOf (inp : Input) : R :=
  match events inp with
  | Some e =>
      match ev_market e with
      | Some m =>
          match orderbook m with
          | Some ob => Js.nullish (imbalance ob) 0
          | None => 0
          end
      | None => 0
      end
  | None => 0
  end.

(** The multi-timeframe argument built from absent candles. *)
Definition noCandles : MultiTf :=
  {| candles5m := None; candles1h := None; candles4h := None |}.

(** The intermediate values of [analyzeMultiTimeframe], named: the two
    biases, the normalized volatility and the blended bias. *)
Definition mrBiasOf (tf : MultiTf) : R :=
  Technical.meanReversionBias (Technical.toCloses (candles5m tf)).

Definition trendBiasOf (tf : MultiTf) : R :=
  let closes1h := Technical.toCloses (candles1h tf) in
  Technical.trendBias (Indicators.ema closes1h 9) (Indicators.ema closes1h 21)
                      (Indicators.ema closes1h 50)
                      (Indicators.macd closes1h 12 26 9).

Definition volNormOf (tf : MultiTf) : R :=
  let last1 := Js.last_opt (Technical.toCloses (candles1h tf)) in
  Indicators.normalize
    (Js.or_opt (Indicators.atr
                  (match candles1h tf with Some l => l | None => [] end) 14) 0)
    0 (if Js.truthy_opt last1 then Js.nullish last1 0 * 0.03 else 1).

Definition blendedBias (tf : MultiTf) : R :=
  mrBiasOf tf * (0.45 * (1 - volNormOf tf))
  + trendBiasOf tf * (0.55 * (0.5 + volNormOf tf / 2)).

(** Every candle of an optional candle list closes at [p]. *)
Definition closesAt (p : R) (cs : option (list Candle)) : Prop :=
  Forall (fun v => v = p) (Technical.toCloses cs).

(** The [totalValue] of [analyzePortfolioCorrelation]: the sum of the
    absolute notional values. *)
Definition totalNotional {Symbol : Type}
           (positions : PortfolioRisk.PositionsObj Symbol) : R :=
  Js.sum (map (fun pos => PortfolioRisk.absNotional (snd pos)) positions).

(** Every entry of the [positions] object of the simulator holds a
    strictly positive quantity. *)
Definition positiveHoldings {Symbol : Type} (s : SimState Symbol) : Prop :=
  forall k q, heldQty s k = Some q -> 0 < q.

(** Twenty 5-minute closes: eighteen at 100, a tick up to 101, then a
    drop to 20. *)
Definition dipCloses : list R := repeat 100 18 ++ [101; 20].

(** A candle that opens, peaks, bottoms and closes at [p]. *)
Definition flatCandle (p : R) : Candle :=
  {| c_open := p; c_high := p; c_low := p; c_close := p; c_volume := 0 |}.

(** Fifty 1-hour candles: forty-nine at 0, then one at 1; no other
    timeframe. *)
Definition spikeTf : MultiTf :=
  {| candles5m := None;
     candles1h := Some (repeat (flatCandle 0) 49 ++ [flatCandle 1]);
     candles4h := None |}.

(** A call with a single candle at 100 and nothing else. *)
Definition oneCandleInput : Input :=
  {| candles := Some [flatCandle 100]; events := None; positions := None;
     multiTf := None; recentTrades := None |}.

(** A decision to buy 100 USD. *)
Definition buyDecision : TradeDecision :=
  {| action := buy; confidence := 0.5; sizeUsd := 100;
     regime := {| highVol := false; trending := false; liquid := false |};
     stops := {| stopLoss := 49; takeProfit := 52 |};
     llmDecision := None |}.

(** Ten returns that alternate between 0 and 1, and the same series
    shifted by one step. *)
Definition zigzag : list R := [0; 1; 0; 1; 0; 1; 0; 1; 0; 1].


(** A window on which the one-pass variance of the source keeps its
    meaning in binary64: the variance is positive and not negligible
    against the level of the series (a coefficient of variation of at
    least 0.001). *)
Definition wellConditioned (l : list R) : Prop :=
  0 < variance l /\ mean l * mean l <= 1000000 * variance l.

(** The action and the stops that a result of [decideTrade] carries:
    the record of the gate is a hold without stops, a rejected promise
    carries nothing. *)
Definition outcomeAction (o : Outcome) : option Action :=
  match o with
  | RiskHalt => Some hold
  | Emit d => Some (action d)
  | Throw _ => None
  end.

Definition outcomeStops (o : Outcome) : option Stops :=
  match o with
  | Emit d => Some (stops d)
  | _ => None
  end.

(** The advisory overlay reaches the statement that assigns to
    [sizeUsd]: the reply is accepted, names a position size and the
    capped advisory size is positive. *)
Definition overlayAssigns (risk : RiskConfig) (inp : Input) (l : LlmDecision)
  : bool :=
  Orchestrator.accepts (fst (Orchestrator.localSignal inp))
                       (snd (Orchestrator.localSignal inp)) l
  && Js.truthy (positionSizePct l)
  && Js.gt (RiskManager.capOrderSizeUsd risk
              (Orchestrator.accountEquityUsd inp * (positionSizePct l / 100))) 0.

(** The default configuration with MAX_DAILY_LOSS_USD set to 0. *)
Definition zeroLossLimitRisk : RiskConfig :=
  {| maxPositionUsd := 5000; maxDailyLossUsd := 0;
     stopLossBps := 100; takeProfitBps := 200 |}.

(** A call whose multi-timeframe input holds one 1-hour candle at 100
    and nothing else. *)
Definition hourInput : Input :=
  {| candles := None; events := None; positions := None;
     multiTf := Some {| candles5m := None;
                        candles1h := Some [flatCandle 100];
                        candles4h := None |};
     recentTrades := None |}.

(* ================================================================== *)
(** * Basic facts about the number primitives *)
(* ================================================================== *)

Lemma lt_true x y : Js.lt x y = true <-> x < y.
Proof. unfold Js.lt; destruct (Rlt_dec x y); split; intros; auto; discriminate. Qed.

Lemma lt_false x y : Js.lt x y = false <-> y <= x.
Proof.
  unfold Js.lt; destruct (Rlt_dec x y); split; intros; auto; try discriminate; lra.
Qed.

Lemma gt_true x y : Js.gt x y = true <-> y < x.
Proof. unfold Js.gt; destruct (Rlt_dec y x); split; intros; auto; discriminate. Qed.

Lemma gt_false x y : Js.gt x y = false <-> x <= y.
Proof.
  unfold Js.gt; destruct (Rlt_dec y x); split; intros; auto; try discriminate; lra.
Qed.

Lemma le_true x y : Js.le x y = true <-> x <= y.
Proof. unfold Js.le; destruct (Rle_dec x y); split; intros; auto; discriminate. Qed.

Lemma le_false x y : Js.le x y = false <-> y < x.
Proof.
  unfold Js.le; destruct (Rle_dec x y); split; intros; auto; try discriminate; lra.
Qed.

Lemma ge_true x y : Js.ge x y = true <-> y <= x.
Proof. unfold Js.ge; destruct (Rle_dec y x); split; intros; auto; discriminate. Qed.

Lemma ge_false x y : Js.ge x y = false <-> x < y.
Proof.
  unfold Js.ge; destruct (Rle_dec y x); split; intros; auto; try discriminate; lra.
Qed.

Lemma eq_true x y : Js.eq x y = true <-> x = y.
Proof. unfold Js.eq; destruct (Req_dec_T x y); split; intros; auto; discriminate. Qed.

Lemma eq_false x y : Js.eq x y = false <-> x <> y.
Proof.
  unfold Js.eq; destruct (Req_dec_T x y); split; intros; auto;
    try discriminate; contradiction.
Qed.

Lemma truthy_true x : Js.truthy x = true <-> x <> 0.
Proof. unfold Js.truthy. rewrite negb_true_iff. apply eq_false. Qed.

Lemma truthy_false x : Js.truthy x = false <-> x = 0.
Proof. unfold Js.truthy. rewrite negb_false_iff. apply eq_true. Qed.

Lemma or_zero x : Js.or x 0 = x.
Proof.
  unfold Js.or. destruct (Js.truthy x) eqn:E; auto.
  apply truthy_false in E. auto.
Qed.

Lemma or_nonzero x y : x <> 0 -> Js.or x y = x.
Proof. intros H. unfold Js.or. apply truthy_true in H. now rewrite H. Qed.

(** Replaces the boolean comparisons on numerals by their values. *)
Ltac js_bool :=
  repeat match goal with
  | |- context [Js.lt ?x ?y] =>
      first [ replace (Js.lt x y) with true by (symmetry; apply lt_true; lra)
            | replace (Js.lt x y) with false by (symmetry; apply lt_false; lra) ]
  | |- context [Js.gt ?x ?y] =>
      first [ replace (Js.gt x y) with true by (symmetry; apply gt_true; lra)
            | replace (Js.gt x y) with false by (symmetry; apply gt_false; lra) ]
  | |- context [Js.le ?x ?y] =>
      first [ replace (Js.le x y) with true by (symmetry; apply le_true; lra)
            | replace (Js.le x y) with false by (symmetry; apply le_false; lra) ]
  | |- context [Js.ge ?x ?y] =>
      first [ replace (Js.ge x y) with true by (symmetry; apply ge_true; lra)
            | replace (Js.ge x y) with false by (symmetry; apply ge_false; lra) ]
  | |- context [Js.eq ?x ?y] =>
      first [ replace (Js.eq x y) with true by (symmetry; apply eq_true; lra)
            | replace (Js.eq x y) with false by (symmetry; apply eq_false; lra) ]
  end.

Lemma round_int (z : Z) (x : R) : IZR z - / 2 <= x < IZR z + / 2 -> Js.round x = IZR z.
Proof.
  intros H. unfold Js.round, Js.floor. f_equal. symmetry.
  apply Int_part_spec. lra.
Qed.

(** Sums written with [reduce] unfold like the usual recursive sum. *)
Lemma fold_add_acc (A : Type) (f : A -> R) (l : list A) (a : R) :
  fold_left (fun acc b => acc + f b) l a
  = a + fold_left (fun acc b => acc + f b) l 0.
Proof.
  revert a. induction l as [|x l IH]; intros a; simpl.
  - lra.
  - rewrite IH. rewrite (IH (0 + f x)). lra.
Qed.

Lemma sum_cons x l : Js.sum (x :: l) = x + Js.sum l.
Proof.
  unfold Js.sum. simpl.
  rewrite (fold_add_acc R (fun b => b) l (0 + x)). lra.
Qed.

Lemma sum_nil : Js.sum [] = 0.
Proof. reflexivity. Qed.

Lemma sumSq_cons x l :
  RiskManager.sumSq (x :: l) = x * x + RiskManager.sumSq l.
Proof.
  unfold RiskManager.sumSq. simpl.
  rewrite (fold_add_acc R (fun b => b * b) l (0 + x * x)). lra.
Qed.

Lemma pSum_cons x y l1 l2 :
  RiskManager.pSum (x :: l1) (y :: l2) = x * y + RiskManager.pSum l1 l2.
Proof.
  unfold RiskManager.pSum. simpl.
  rewrite (fold_add_acc (R * R) (fun p => fst p * snd p) (combine l1 l2) (0 + x * y)).
  lra.
Qed.

Lemma pSum_self l : RiskManager.pSum l l = RiskManager.sumSq l.
Proof.
  induction l as [|x l IH]; [reflexivity|].
  rewrite pSum_cons, sumSq_cons, IH. reflexivity.
Qed.

(** The sum of squared deviations from any point [x], expanded. *)
Lemma sq_dev_nonneg l x :
  0 <= RiskManager.sumSq l - 2 * x * Js.sum l + INR (length l) * (x * x).
Proof.
  induction l as [|y l IH].
  - cbn. lra.
  - rewrite sumSq_cons, sum_cons.
    change (length (y :: l)) with (S (length l)). rewrite S_INR.
    pose proof (Rle_0_sqr (y - x)) as Hsq. unfold Rsqr in Hsq.
    set (n := INR (length l)) in *. set (Q := RiskManager.sumSq l) in *.
    set (S := Js.sum l) in *. nra.
Qed.

(** Cauchy-Schwarz for a series against the constant series. *)
Lemma sum_sq_le l :
  Js.sum l * Js.sum l <= INR (length l) * RiskManager.sumSq l.
Proof.
  induction l as [|y l IH].
  - cbn. lra.
  - rewrite sumSq_cons, sum_cons.
    change (length (y :: l)) with (S (length l)). rewrite S_INR.
    pose proof (sq_dev_nonneg l y) as Hd.
    set (n := INR (length l)) in *. set (Q := RiskManager.sumSq l) in *.
    set (S := Js.sum l) in *. nra.
Qed.

Lemma windowVar_nonneg l : (0 < length l)%nat -> 0 <= windowVar l.
Proof.
  intros Hn. unfold windowVar.
  assert (Hpos : 0 < INR (length l)) by (apply lt_0_INR; lia).
  pose proof (sum_sq_le l) as H.
  apply Rmult_le_reg_l with (INR (length l)); [exact Hpos|].
  rewrite Rmult_0_r.
  replace (INR (length l) * (RiskManager.sumSq l - Js.sum l * Js.sum l / INR (length l)))
    with (INR (length l) * RiskManager.sumSq l - Js.sum l * Js.sum l)
    by (field; lra).
  lra.
Qed.

(* ================================================================== *)
(** * Risk manager: correlation *)
(* ================================================================== *)

(** Over [R], where the factor under the root is exact. *)
Lemma calculateCorrelation_self (A : list R) :
  (2 <= length A)%nat -> windowVar A <> 0 ->
  RiskManager.calculateCorrelation A A = 1.
Proof.
  intros Hlen Hv. unfold RiskManager.calculateCorrelation.
  rewrite Nat.eqb_refl. simpl negb. rewrite orb_false_l.
  replace (Nat.ltb (length A) 2) with false
    by (symmetry; apply Nat.ltb_ge; lia).
  rewrite pSum_self. fold (windowVar A).
  assert (Hnn : 0 <= windowVar A) by (apply windowVar_nonneg; lia).
  rewrite (sqrt_square _ Hnn).
  replace (Js.eq (windowVar A) 0) with false
    by (symmetry; apply eq_false; exact Hv).
  field. exact Hv.
Qed.

Lemma sqDev_cons m x l : sqDev m (x :: l) = (x - m) * (x - m) + sqDev m l.
Proof.
  unfold sqDev. simpl.
  rewrite (fold_add_acc R (fun b => (b - m) * (b - m)) l (0 + (x - m) * (x - m))).
  lra.
Qed.

Lemma sqDev_expand m l :
  sqDev m l = RiskManager.sumSq l - 2 * m * Js.sum l + INR (length l) * (m * m).
Proof.
  induction l as [|x l IH].
  - cbn. lra.
  - rewrite sqDev_cons, sumSq_cons, sum_cons, IH.
    change (length (x :: l)) with (S (length l)). rewrite S_INR. ring.
Qed.

(** The factor under the square root is the length times the
    variance. *)
Lemma windowVar_variance l :
  (0 < length l)%nat -> windowVar l = INR (length l) * variance l.
Proof.
  intros Hn. assert (Hpos : 0 < INR (length l)) by (apply lt_0_INR; lia).
  unfold windowVar, variance, mean. rewrite sqDev_expand. field. lra.
Qed.

Lemma windowVar_zero_iff l :
  (0 < length l)%nat -> (windowVar l = 0 <-> variance l = 0).
Proof.
  intros Hn. assert (Hpos : 0 < INR (length l)) by (apply lt_0_INR; lia).
  rewrite (windowVar_variance l Hn). split; intros H.
  - apply Rmult_integral in H. destruct H; [lra|assumption].
  - rewrite H. ring.
Qed.

Section Binary64Facts.
Import PrimFloat.

(** C7, what the source computes in its own arithmetic.  The sentinel
    for a series without variance is missed: the correlation of the
    constant series 0.1, 0.1, 0.1 with itself is -1 and with 1, 2, 3 it
    is NaN, because the variance residue under the square root is not
    exactly 0, so that [den === 0] does not fire.  And the correlation of
    1000000.01, 1000000.02 with itself is 0, not 1: here the residue is
    exactly 0 although the series varies. *)
Theorem calculateCorrelation_sentinel_missed_in_binary64 :
  Binary64.calculateCorrelation Binary64.constantSeries Binary64.constantSeries
  = (-1)%float
  /\ Binary64.calculateCorrelation Binary64.constantSeries Binary64.risingSeries
     = nan
  /\ Binary64.calculateCorrelation Binary64.offsetSeries Binary64.offsetSeries
     = 0%float.
Proof. vm_compute. repeat split. Qed.

End Binary64Facts.

(** C10.  Two return series of unequal length give 0: the mismatch is
    answered like degenerate input, without an error and without
    cutting the series to a common window. *)
Theorem calculateCorrelation_unequal_length (returns1 returns2 : list R) :
  length returns1 <> length returns2 ->
  RiskManager.calculateCorrelation returns1 returns2 = 0.
Proof.
  intros H. unfold RiskManager.calculateCorrelation.
  destruct (Nat.eqb (length returns1) (length returns2)) eqn:E.
  - apply Nat.eqb_eq in E. contradiction.
  - reflexivity.
Qed.

Lemma calculateCorrelation_unequal_length_witness :
  RiskManager.calculateCorrelation [1; 2; 4] [1; 2] = 0.
Proof.
  apply (calculateCorrelation_unequal_length [1; 2; 4] [1; 2]).
  simpl. lia.
Defined.

(* ================================================================== *)
(** * Risk manager: protective stops *)
(* ================================================================== *)

(** C8.  For a strictly positive entry price the stop is strictly below
    and the target strictly above the entry for a buy, and the other way
    round for a sell: in the ATR branch, taken when a strictly positive
    ATR is supplied, and in the basis-point fallback, taken when the ATR
    is missing or zero, for strictly positive configured stop and
    take-profit basis points. *)
Theorem computeStops_correct_side (risk : RiskConfig) (entryPrice : R) :
  0 < entryPrice ->
  (forall a, 0 < a ->
     let b := RiskManager.computeStops risk entryPrice SideBuy (Some a) in
     let s := RiskManager.computeStops risk entryPrice SideSell (Some a) in
     (stopLoss b < entryPrice < takeProfit b)
     /\ (takeProfit s < entryPrice < stopLoss s))
  /\
  (0 < stopLossBps risk -> 0 < takeProfitBps risk ->
   forall atr, Js.truthy_opt atr = false ->
     let b := RiskManager.computeStops risk entryPrice SideBuy atr in
     let s := RiskManager.computeStops risk entryPrice SideSell atr in
     (stopLoss b < entryPrice < takeProfit b)
     /\ (takeProfit s < entryPrice < stopLoss s)).
Proof.
  intros He. split.
  - intros a Ha. unfold RiskManager.computeStops. simpl Js.truthy_opt.
    replace (Js.truthy a) with true by (symmetry; apply truthy_true; lra).
    replace (Js.truthy entryPrice) with true by (symmetry; apply truthy_true; lra).
    simpl. lra.
  - intros Hsl Htp atr Hatr. unfold RiskManager.computeStops.
    rewrite Hatr. simpl. unfold RiskManager.bps.
    assert (0 < entryPrice * (stopLossBps risk / 10000)) by
      (apply Rmult_lt_0_compat; lra).
    assert (0 < entryPrice * (takeProfitBps risk / 10000)) by
      (apply Rmult_lt_0_compat; lra).
    lra.
Qed.

Lemma computeStops_correct_side_witness :
  let b := RiskManager.computeStops defaultRisk 100 SideBuy (Some 5) in
  let s := RiskManager.computeStops defaultRisk 100 SideSell None in
  stopLoss b < 100 < takeProfit b /\ takeProfit s < 100 < stopLoss s.
Proof.
  assert (H100 : 0 < 100) by lra.
  pose proof (computeStops_correct_side defaultRisk 100 H100) as [Hatr Hbps].
  split.
  - apply (Hatr 5). lra.
  - apply (Hbps ltac:(simpl; lra) ltac:(simpl; lra) None). reflexivity.
Defined.

(* ================================================================== *)
(** * Indicator library: RSI *)
(* ================================================================== *)

Lemma strictlyIncreasing_tail a l :
  strictlyIncreasing (a :: l) -> strictlyIncreasing l.
Proof. destruct l; simpl; tauto. Qed.

Lemma strictlyIncreasing_skipn n l :
  strictlyIncreasing l -> strictlyIncreasing (skipn n l).
Proof.
  revert l. induction n as [|n IH]; intros l H; [exact H|].
  destruct l as [|a l]; [exact H|].
  simpl skipn. apply IH. eapply strictlyIncreasing_tail; eauto.
Qed.

Lemma changes_increasing l :
  strictlyIncreasing l -> Forall (fun c => 0 < c) (Indicators.changes l).
Proof.
  induction l as [|a l IH]; intros H; [constructor|].
  destruct l as [|b l]; [constructor|].
  destruct H as [Hab Hrest].
  change (Indicators.changes (a :: b :: l))
    with ((b - a) :: Indicators.changes (b :: l)).
  constructor; [lra|]. apply IH. exact Hrest.
Qed.

(** Gains never touch the accumulated losses. *)
Lemma rsi_loop_gains cs g l :
  Forall (fun c => 0 < c) cs ->
  snd (fold_left Indicators.rsiStep cs (g, l)) = l.
Proof.
  revert g l. induction cs as [|c cs IH]; intros g l H; [reflexivity|].
  inversion H as [|? ? Hc Hcs]; subst. simpl fold_left.
  unfold Indicators.rsiStep at 2. simpl fst; simpl snd.
  replace (Js.gt c 0) with true by (symmetry; apply gt_true; exact Hc).
  apply IH. exact Hcs.
Qed.

Lemma rsi_avgLoss_zero (values : list R) (period : nat) :
  (period < length values)%nat ->
  trailingAvgLoss values period = 0 ->
  Indicators.rsi values period = Some 100.
Proof.
  intros Hlen Hz. unfold Indicators.rsi.
  replace (Nat.ltb (length values) (period + 1)) with false
    by (symmetry; apply Nat.ltb_ge; lia).
  cbv zeta. fold (trailingAvgLoss values period). rewrite Hz.
  replace (Js.eq 0 0) with true by (symmetry; apply eq_true; reflexivity).
  reflexivity.
Qed.

Lemma increasing_avgLoss_zero (values : list R) (period : nat) :
  strictlyIncreasing values -> trailingAvgLoss values period = 0.
Proof.
  intros Hinc. unfold trailingAvgLoss.
  rewrite rsi_loop_gains.
  - unfold Rdiv. apply Rmult_0_l.
  - apply changes_increasing. unfold Js.lastn.
    apply strictlyIncreasing_skipn. exact Hinc.
Qed.

(** C6.  For a look-back [period] of at least one and a series longer
    than it, [rsi] returns exactly 100 when the series is strictly
    increasing and, more generally, whenever the average loss over the
    trailing [period] differences is zero. *)
Theorem rsi_all_gains_is_100 (values : list R) (period : nat) :
  (0 < period)%nat -> (period < length values)%nat ->
  (strictlyIncreasing values -> Indicators.rsi values period = Some 100)
  /\ (trailingAvgLoss values period = 0 ->
      Indicators.rsi values period = Some 100).
Proof.
  intros _ Hlen. split.
  - intros Hinc. apply rsi_avgLoss_zero; [exact Hlen|].
    apply increasing_avgLoss_zero. exact Hinc.
  - apply rsi_avgLoss_zero. exact Hlen.
Qed.

Lemma rsi_all_gains_is_100_witness :
  Indicators.rsi [1; 2; 4] 2 = Some 100.
Proof.
  apply (proj1 (rsi_all_gains_is_100 [1; 2; 4] 2 ltac:(lia) ltac:(simpl; lia))).
  simpl. lra.
Defined.

(* ================================================================== *)
(** * Technical analyzer: mean-reversion bias *)
(* ================================================================== *)

Lemma rsiStep_gain g l c : 0 < c -> Indicators.rsiStep (g, l) c = (g + c, l).
Proof.
  intros H. unfold Indicators.rsiStep.
  replace (Js.gt c 0) with true by (symmetry; apply gt_true; exact H).
  reflexivity.
Qed.

Lemma rsiStep_loss g l c : c <= 0 -> Indicators.rsiStep (g, l) c = (g, l - c).
Proof.
  intros H. unfold Indicators.rsiStep.
  replace (Js.gt c 0) with false by (symmetry; apply gt_false; exact H).
  reflexivity.
Qed.

(** Turns [INR] of a numeral into the numeral. *)
Ltac inr_lit :=
  rewrite ?INR_IZR_INZ;
  cbn [Z.of_nat Pos.of_succ_nat Pos.succ length Nat.add].

Lemma crash_bollinger :
  Indicators.bollinger crashCloses 20 2
  = Some {| bbMiddle := 96; bbUpper := 96 + 2 * sqrt 304;
            bbLower := 96 - 2 * sqrt 304; bbStd := sqrt 304 |}.
Proof.
  unfold Indicators.bollinger, crashCloses, Js.lastn, Js.sum.
  cbn [repeat app length Nat.ltb Nat.leb Nat.sub skipn fold_left].
  inr_lit.
  match goal with |- context [?s / 20] =>
    replace (s / 20) with 96 by lra end.
  match goal with |- context [sqrt ?v] =>
    replace v with 304 by lra end.
  reflexivity.
Qed.

Lemma crash_rsi : Indicators.rsi crashCloses 14 = Some 0.
Proof.
  unfold Indicators.rsi, crashCloses, Js.lastn.
  cbn [repeat app length Nat.ltb Nat.leb Nat.sub Nat.add skipn
       Indicators.changes fold_left].
  rewrite !rsiStep_loss by lra.
  cbn [fst snd]. inr_lit.
  js_bool. f_equal.
  match goal with |- context [?x / 14 / ?d] =>
    replace (x / 14 / d) with 0 by
      (unfold Rdiv; rewrite !Rmult_0_l; reflexivity) end.
  lra.
Qed.

Lemma crash_last : Js.last_opt crashCloses = Some 20.
Proof. reflexivity. Qed.

Lemma sqrt_304_lt : sqrt 304 < 38.
Proof.
  replace 38 with (sqrt (38 * 38)) by (apply sqrt_square; lra).
  apply sqrt_lt_1_alt. lra.
Qed.

(** Where the source agrees with the stated rule: an available band and
    an RSI other than 0. *)
Lemma mrBias_rule (bb : Bollinger) (last5 r : R) :
  r <> 0 ->
  (last5 < bbLower bb /\ r < 30 ->
   Technical.mrBias (Some bb) (Some last5) (Some r) = 1)
  /\ (last5 > bbUpper bb /\ r > 70 ->
      Technical.mrBias (Some bb) (Some last5) (Some r) = -1)
  /\ (~ (last5 < bbLower bb /\ r < 30) -> ~ (last5 > bbUpper bb /\ r > 70) ->
      Technical.mrBias (Some bb) (Some last5) (Some r) = 0).
Proof.
  intros Hr. unfold Technical.mrBias. cbn [Js.truthy_opt Js.nullish].
  replace (Js.truthy r) with true by (symmetry; apply truthy_true; exact Hr).
  rewrite !andb_true_r.
  repeat split.
  - intros [Hl H30].
    replace (Js.gt r 70) with false by (symmetry; apply gt_false; lra).
    rewrite andb_false_r.
    replace (Js.lt last5 (bbLower bb)) with true by (symmetry; apply lt_true; lra).
    replace (Js.lt r 30) with true by (symmetry; apply lt_true; lra).
    reflexivity.
  - intros [Hu H70].
    replace (Js.gt last5 (bbUpper bb)) with true by (symmetry; apply gt_true; lra).
    replace (Js.gt r 70) with true by (symmetry; apply gt_true; lra).
    reflexivity.
  - intros Hn1 Hn2.
    destruct (Js.gt last5 (bbUpper bb)) eqn:E1, (Js.gt r 70) eqn:E2;
      destruct (Js.lt last5 (bbLower bb)) eqn:E3, (Js.lt r 30) eqn:E4;
      cbn [andb]; try reflexivity; exfalso;
      rewrite ?gt_true, ?lt_true in *;
      first [apply Hn1; split; lra | apply Hn2; split; lra].
Qed.

(** C5, at the series [crashCloses].  The 20-period band and the
    14-period RSI are both available, the last price 20 is strictly
    below the lower band and the RSI, 0, is strictly below 30; the
    mean-reversion bias is nevertheless 0 and not +1, because the test
    [rsi5 && rsi5 < 30] treats an RSI of exactly 0 as a missing value. *)
Theorem meanReversionBias_rsi_zero_no_signal :
  exists bb r last5,
    Indicators.bollinger crashCloses 20 2 = Some bb
    /\ Indicators.rsi crashCloses 14 = Some r
    /\ Js.last_opt crashCloses = Some last5
    /\ last5 < bbLower bb /\ r < 30
    /\ Technical.meanReversionBias crashCloses = 0.
Proof.
  eexists. exists 0, 20.
  split; [apply crash_bollinger|].
  split; [apply crash_rsi|].
  split; [apply crash_last|].
  cbn [bbLower]. pose proof sqrt_304_lt as Hs.
  split; [lra|]. split; [lra|].
  unfold Technical.meanReversionBias.
  rewrite crash_bollinger, crash_rsi, crash_last.
  unfold Technical.mrBias. cbn [Js.truthy_opt Js.nullish bbUpper bbLower].
  replace (Js.truthy 0) with false by (symmetry; apply truthy_false; reflexivity).
  rewrite !andb_false_r. reflexivity.
Qed.

(* ================================================================== *)
(** * Sentiment fusion engine: the defaults *)
(* ================================================================== *)

Lemma tanh_0 : tanh 0 = 0.
Proof. unfold tanh, sinh. rewrite Ropp_0, exp_0. unfold Rdiv. ring. Qed.

Lemma exp_fifth_bounds : 6 / 5 <= exp (1 / 5) <= 5 / 4.
Proof.
  split.
  - pose proof (exp_ineq1_le (1 / 5)). lra.
  - pose proof (exp_ineq1_le (- (1 / 5))) as H.
    rewrite exp_Ropp in H.
    pose proof (exp_pos (1 / 5)) as Hp.
    assert (Hinv : / exp (1 / 5) * exp (1 / 5) = 1) by (field; lra).
    nra.
Qed.

(** [tanh(-0.4)], the gas term of an on-chain record without gas data,
    lies strictly between -7/15 and -1/3. *)
Lemma tanh_gas_default : - (7 / 15) < tanh (- (2 / 5)) < - (1 / 3).
Proof.
  pose proof exp_fifth_bounds as [Hlo Hhi].
  set (e := exp (1 / 5)) in *.
  assert (He2 : exp (2 / 5) = e * e).
  { replace (2 / 5) with (1 / 5 + 1 / 5) by lra. apply exp_plus. }
  assert (Hu : 36 / 25 <= exp (2 / 5) <= 25 / 16) by (rewrite He2; nra).
  set (u := exp (2 / 5)) in *.
  assert (Hw : 2 < u * u < 11 / 4) by nra.
  assert (Ht : tanh (- (2 / 5)) = (1 - u * u) / (1 + u * u)).
  { unfold tanh, sinh, cosh. rewrite Ropp_involutive, exp_Ropp.
    fold u. field. split; nra. }
  rewrite Ht.
  assert (Hd : 0 < 1 + u * u) by nra.
  split.
  - apply Rmult_lt_reg_r with (1 + u * u); [exact Hd|].
    replace ((1 - u * u) / (1 + u * u) * (1 + u * u)) with (1 - u * u)
      by (field; lra).
    nra.
  - apply Rmult_lt_reg_r with (1 + u * u); [exact Hd|].
    replace ((1 - u * u) / (1 + u * u) * (1 + u * u)) with (1 - u * u)
      by (field; lra).
    nra.
Qed.

Lemma clamp_inside x a b : a <= x <= b -> Js.clamp x a b = x.
Proof.
  intros H. unfold Js.clamp.
  rewrite (Rmax_right a x) by lra. rewrite Rmin_right by lra. reflexivity.
Qed.

Lemma scoreSocial_default : SentimentEngine.scoreSocial None = 50.
Proof.
  unfold SentimentEngine.scoreSocial, SentimentEngine.emptySocial.
  cbn [twitterScore telegramScore trendsScore newsScore Js.nullish].
  rewrite (round_int 50) by lra.
  apply clamp_inside. lra.
Qed.

Lemma scoreOnChain_default : SentimentEngine.scoreOnChain None = 47.
Proof.
  unfold SentimentEngine.scoreOnChain, SentimentEngine.emptyOnChain.
  cbn [whaleInflowUsd whaleOutflowUsd exchangeNetflow gasPriceGwei
       activeAddrsDelta Js.nullish].
  replace ((0 - 0) / 1000000) with 0 by lra.
  replace ((0 - 20) / 50) with (- (2 / 5)) by lra.
  rewrite tanh_0, (clamp_inside 0 (-1) 1) by lra.
  pose proof tanh_gas_default as Ht.
  rewrite (round_int 47) by lra.
  apply clamp_inside. lra.
Qed.

Lemma scoreMarketStructure_default lastPrice :
  SentimentEngine.scoreMarketStructure None lastPrice = 50.
Proof.
  unfold SentimentEngine.scoreMarketStructure, SentimentEngine.emptyMarket,
    SentimentEngine.emptyOrderbook.
  cbn [supports resistances liquidationClusters orderbook imbalance bidDepth
       askDepth Js.nullish length Nat.eqb negb orb andb].
  rewrite andb_false_r.
  rewrite (Rmax_left 1 (0 + 0)) by lra.
  replace ((0 - 0) / 1 * 3) with 0 by lra.
  rewrite tanh_0, (clamp_inside 0 (-1) 1) by lra.
  rewrite (round_int 50) by lra.
  apply clamp_inside. lra.
Qed.

Lemma fuseSentiment_default lastPrice :
  SentimentEngine.fuseSentiment None None None lastPrice
  = {| score := 49; label := neutral;
       breakdown := {| socialScore := 50; onchainScore := 47;
                       structureScore := 50 |} |}.
Proof.
  unfold SentimentEngine.fuseSentiment.
  rewrite scoreSocial_default, scoreOnChain_default,
    scoreMarketStructure_default.
  rewrite (round_int 49) by lra.
  cbv zeta. js_bool. reflexivity.
Qed.

(** C4, what the source computes.  With the social, on-chain and
    market-structure inputs all absent, the social and market-structure
    sub-scores are 50 and the label is 'neutral', but the on-chain
    sub-score is 47 and the blended score 49: an absent gas price is
    defaulted to 0 gwei, 20 gwei below the baseline of its own term,
    whereas every other default sits on its neutral point. *)
Theorem fuseSentiment_absent_inputs (lastPrice : R) :
  let s := SentimentEngine.fuseSentiment None None None lastPrice in
  socialScore (breakdown s) = 50
  /\ onchainScore (breakdown s) = 47
  /\ structureScore (breakdown s) = 50
  /\ score s = 49
  /\ label s = neutral.
Proof.
  cbv zeta. rewrite fuseSentiment_default. cbn. repeat split.
Qed.

(** The defaults are not the neutral 50 throughout. *)
Lemma fuseSentiment_absent_inputs_not_all_50 :
  ~ (let s := SentimentEngine.fuseSentiment None None None 0 in
     socialScore (breakdown s) = 50
     /\ onchainScore (breakdown s) = 50
     /\ structureScore (breakdown s) = 50
     /\ score s = 50
     /\ label s = neutral).
Proof.
  cbv zeta. rewrite fuseSentiment_default. cbn [breakdown onchainScore].
  intros (_ & H & _). lra.
Qed.

(* ================================================================== *)
(** * Orchestrator *)
(* ================================================================== *)

Lemma circuit_literal : RiskManager.marketCircuitBreaker 0 0 0 false false = false.
Proof.
  unfold RiskManager.marketCircuitBreaker. rewrite Rabs_R0. js_bool. reflexivity.
Qed.

(** The gate of [decideTrade] only looks at the configuration: it
    fires exactly when the configured daily loss limit is 0. *)
Lemma gate_literal (risk : RiskConfig) :
  RiskManager.shouldHaltTrading risk 0 0
    (RiskManager.marketCircuitBreaker 0 0 0 false false) = true
  <-> maxDailyLossUsd risk = 0.
Proof.
  rewrite circuit_literal. unfold RiskManager.shouldHaltTrading.
  replace (Js.ge 0 10) with false by (symmetry; apply ge_false; lra).
  pose proof (Rabs_pos (maxDailyLossUsd risk)) as Hp.
  destruct (Js.le 0 (- Rabs (maxDailyLossUsd risk))) eqn:E.
  - apply le_true in E. split; [intros _|reflexivity].
    destruct (Req_dec_T (maxDailyLossUsd risk) 0) as [Hz|Hnz]; [exact Hz|].
    apply Rabs_pos_lt in Hnz. lra.
  - apply le_false in E. split; [discriminate|].
    intros Hz. rewrite Hz, Rabs_R0 in E. lra.
Qed.

Lemma gate_open (risk : RiskConfig) :
  maxDailyLossUsd risk <> 0 ->
  RiskManager.shouldHaltTrading risk 0 0
    (RiskManager.marketCircuitBreaker 0 0 0 false false) = false.
Proof.
  intros H. destruct (RiskManager.shouldHaltTrading _ _ _ _) eqn:E; [|reflexivity].
  apply gate_literal in E. contradiction.
Qed.

Lemma decideTrade_halts_iff (risk : RiskConfig) inp adv :
  Orchestrator.decideTrade risk inp adv = RiskHalt <-> maxDailyLossUsd risk = 0.
Proof.
  unfold Orchestrator.decideTrade. cbv zeta.
  destruct (RiskManager.shouldHaltTrading _ _ _ _) eqn:E.
  - apply gate_literal in E. tauto.
  - split.
    + unfold Orchestrator.emit.
      destruct adv as [[l|]|]; try discriminate.
      destruct (Orchestrator.accepts _ _ _); try discriminate.
      destruct (Js.truthy _); try discriminate.
      destruct (Js.gt _ _); discriminate.
    + intros Hz. apply gate_literal in Hz. congruence.
Qed.

(** The overlay, whenever it is accepted with a position size and a
    positive capped advisory size, runs into the assignment to the
    constant [sizeUsd]. *)
Lemma decideTrade_overlay_assigns_const (risk : RiskConfig) inp l :
  maxDailyLossUsd risk <> 0 ->
  Orchestrator.accepts (fst (Orchestrator.localSignal inp))
                       (snd (Orchestrator.localSignal inp)) l = true ->
  positionSizePct l <> 0 ->
  0 < RiskManager.capOrderSizeUsd risk
        (Orchestrator.accountEquityUsd inp * (positionSizePct l / 100)) ->
  Orchestrator.decideTrade risk inp (Some (Sanitized l))
  = Throw TypeError_AssignmentToConstant.
Proof.
  intros Hgate Hacc Hpct Hsized. unfold Orchestrator.decideTrade. cbv zeta.
  rewrite (gate_open risk Hgate), Hacc.
  replace (Js.truthy (positionSizePct l)) with true
    by (symmetry; apply truthy_true; exact Hpct).
  replace (Js.gt _ 0) with true by (symmetry; apply gt_true; exact Hsized).
  reflexivity.
Qed.

(** ** Evaluation on an input without candles *)

Lemma tech_noCandles_action :
  tech_action (Technical.analyzeMultiTimeframe noCandles) = HOLD.
Proof.
  unfold Technical.analyzeMultiTimeframe, noCandles.
  cbn [candles5m candles1h candles4h Technical.toCloses map tech_action].
  unfold Indicators.bollinger, Indicators.ema.
  cbn [length Nat.ltb Nat.leb Technical.mrBias Technical.trendBias].
  match goal with |- context [Js.gt ?b 0.1] =>
    replace b with 0 by ring end.
  js_bool. reflexivity.
Qed.

Lemma tech_noCandles_context :
  let ctx := tech_context (Technical.analyzeMultiTimeframe noCandles) in
  ctx_atr1h ctx = None /\ ctx_ema9 ctx = None /\ ctx_ema21 ctx = None.
Proof.
  unfold Technical.analyzeMultiTimeframe, noCandles.
  cbn [candles5m candles1h candles4h Technical.toCloses map tech_context
       ctx_atr1h ctx_ema9 ctx_ema21].
  unfold Indicators.atr, Indicators.ema.
  cbn [length Nat.ltb Nat.leb Nat.add]. repeat split.
Qed.

Lemma techOf_empty :
  Orchestrator.techOf emptyInput = Technical.analyzeMultiTimeframe noCandles.
Proof. reflexivity. Qed.

Lemma lastClose_empty : Orchestrator.lastClose emptyInput = 0.
Proof. reflexivity. Qed.

Lemma atr1Of_empty : Orchestrator.atr1Of emptyInput = 0.
Proof.
  unfold Orchestrator.atr1Of. rewrite techOf_empty.
  destruct tech_noCandles_context as (Ha & _). cbv zeta in Ha. rewrite Ha.
  reflexivity.
Qed.

Lemma atrPctOf_empty : Orchestrator.atrPctOf emptyInput = 0.
Proof.
  unfold Orchestrator.atrPctOf. rewrite atr1Of_empty.
  replace (Js.truthy 0) with false by (symmetry; apply truthy_false; reflexivity).
  reflexivity.
Qed.

Lemma regimeOf_empty :
  Orchestrator.regimeOf emptyInput
  = {| highVol := false; trending := false; liquid := false |}.
Proof.
  unfold Orchestrator.regimeOf. rewrite atrPctOf_empty, techOf_empty, lastClose_empty.
  destruct tech_noCandles_context as (_ & H9 & H21). cbv zeta in H9, H21.
  rewrite H9, H21. cbn [events emptyInput Js.or_opt Js.nullish].
  unfold RiskManager.detectRegime. cbn [Js.nullish].
  replace ((0 - 0) / Rmax 1 0) with 0 by (unfold Rdiv; ring).
  rewrite Rabs_R0. js_bool. reflexivity.
Qed.

Lemma sentimentOf_empty :
  score (Orchestrator.sentimentOf emptyInput) = 49.
Proof.
  unfold Orchestrator.sentimentOf. cbn [events emptyInput].
  rewrite fuseSentiment_default. reflexivity.
Qed.

Lemma computePerfWeights_nil :
  Orchestrator.computePerfWeights [] = (/ 2, / 2).
Proof.
  unfold Orchestrator.computePerfWeights. cbn [filter Orchestrator.perfScore].
  rewrite or_nonzero by lra. f_equal; lra.
Qed.

Lemma localSignal_empty :
  Orchestrator.localSignal emptyInput = (hold, 21 / 2000).
Proof.
  unfold Orchestrator.localSignal.
  rewrite regimeOf_empty, sentimentOf_empty, techOf_empty, tech_noCandles_action.
  cbn [trending recentTrades emptyInput]. rewrite computePerfWeights_nil.
  cbn [fst snd].
  replace (0.5 * 0.45 + 0.5 * / 2) with (19 / 40) by lra.
  replace (0.5 * (1 - 0.45) + 0.5 * / 2) with (21 / 40) by lra.
  rewrite (Rmax_right 0.2 (19 / 40)), (Rmin_right 0.8 (19 / 40)) by lra.
  rewrite (Rmax_right 0.2 (21 / 40)), (Rmin_right 0.8 (21 / 40)) by lra.
  rewrite (or_nonzero (19 / 40 + 21 / 40)) by lra.
  match goal with |- context [Rabs ?f] =>
    replace f with (- (21 / 2000)) by (field_simplify; lra) end.
  rewrite Rabs_left by lra. rewrite Rmin_right by lra.
  js_bool. cbn [andb orb]. f_equal. lra.
Qed.

Lemma accountEquityUsd_empty : Orchestrator.accountEquityUsd emptyInput = 10000.
Proof. reflexivity. Qed.

Lemma accepts_holdAdvice_empty :
  Orchestrator.accepts (fst (Orchestrator.localSignal emptyInput))
                       (snd (Orchestrator.localSignal emptyInput)) holdAdvice
  = true.
Proof.
  rewrite localSignal_empty. cbn [fst snd].
  unfold Orchestrator.accepts, holdAdvice. cbn [llm_action llm_confidence].
  rewrite or_zero. js_bool. reflexivity.
Qed.

Lemma sized_holdAdvice_empty :
  RiskManager.capOrderSizeUsd defaultRisk
    (Orchestrator.accountEquityUsd emptyInput * (positionSizePct holdAdvice / 100))
  = 1000.
Proof.
  rewrite accountEquityUsd_empty. unfold RiskManager.capOrderSizeUsd, holdAdvice.
  cbn [positionSizePct maxPositionUsd defaultRisk].
  rewrite Rmin_left by lra. rewrite Rmax_right by lra. lra.
Qed.

Lemma localSizeUsd_empty : Orchestrator.localSizeUsd defaultRisk emptyInput = 0.
Proof.
  unfold Orchestrator.localSizeUsd. rewrite localSignal_empty, atrPctOf_empty,
    accountEquityUsd_empty. cbn [snd].
  unfold RiskManager.positionSizeUsd, RiskManager.kellyFraction.
  rewrite (Rmin_right 1 (21 / 2000)) by lra.
  rewrite (Rmax_right 0 (21 / 2000)) by lra.
  rewrite (Rmax_right 0.01 1.5) by lra.
  rewrite (Rmin_right 0.25) by lra.
  rewrite (Rmax_left 0) by lra.
  rewrite (Rmin_right 0.02 0) by lra.
  unfold RiskManager.capOrderSizeUsd. cbn [maxPositionUsd defaultRisk].
  rewrite Rmin_left by (rewrite !Rmult_0_r, !Rmult_0_l; lra).
  rewrite Rmax_left by (rewrite !Rmult_0_r, !Rmult_0_l; lra).
  reflexivity.
Qed.

(** Without an advisory reply the empty input yields a hold of size 0
    with the fallback stops at entry 0. *)
Lemma decideTrade_empty_no_advice :
  Orchestrator.decideTrade defaultRisk emptyInput None
  = Emit {| action := hold; confidence := 21 / 2000; sizeUsd := 0;
            regime := {| highVol := false; trending := false; liquid := false |};
            stops := RiskManager.computeStops defaultRisk 0 SideBuy (Some 0);
            llmDecision := None |}.
Proof.
  unfold Orchestrator.decideTrade. cbv zeta.
  rewrite gate_open by (cbn; lra).
  unfold Orchestrator.emit.
  rewrite localSignal_empty, localSizeUsd_empty, regimeOf_empty, lastClose_empty,
    atr1Of_empty, or_zero.
  reflexivity.
Qed.

(* ------------------------------------------------------------------ *)
(** ** The advisory overlay and the size *)

Lemma accepts_aligned_or_confident (act : Action) (conf : R) (l : LlmDecision) :
  (aligned act l /\ Rabs (llm_confidence l - conf) <= 0.1)
  \/ llm_confidence l > conf + 0.2 ->
  Orchestrator.accepts act conf l = true.
Proof.
  unfold Orchestrator.accepts. rewrite or_zero. intros [[Hal Hc]|Hc].
  - apply orb_true_iff. left. apply andb_true_iff. split.
    + unfold aligned in Hal. rewrite <- Hal.
      destruct (llm_action l); cbn [Orchestrator.lowerAction]; js_bool; reflexivity.
    + apply ge_true. unfold Rabs in Hc.
      destruct (Rcase_abs (llm_confidence l - conf)); lra.
  - apply orb_true_iff. right. apply gt_true. lra.
Qed.

(** C1, what the source does.  When the advisory reply is accepted (its
    action aligns with the local action and its confidence is within 0.1
    of the local one, or its confidence exceeds the local one by more
    than 0.2), names a non-zero position size and the capped advisory
    size is positive, [decideTrade] emits no size at all: the statement
    that should keep the smaller of the two sizes assigns to the
    constant [sizeUsd] and the call ends in a TypeError. *)
Theorem decideTrade_accepted_advisory_size_throws
        (risk : RiskConfig) (inp : Input) (l : LlmDecision) :
  maxDailyLossUsd risk <> 0 ->
  (aligned (fst (Orchestrator.localSignal inp)) l
   /\ Rabs (llm_confidence l - snd (Orchestrator.localSignal inp)) <= 0.1)
  \/ llm_confidence l > snd (Orchestrator.localSignal inp) + 0.2 ->
  positionSizePct l <> 0 ->
  0 < RiskManager.capOrderSizeUsd risk
        (Orchestrator.accountEquityUsd inp * (positionSizePct l / 100)) ->
  Orchestrator.decideTrade risk inp (Some (Sanitized l))
  = Throw TypeError_AssignmentToConstant.
Proof.
  intros Hgate Hacc Hpct Hsized.
  apply decideTrade_overlay_assigns_const; auto.
  apply accepts_aligned_or_confident. exact Hacc.
Qed.

Lemma decideTrade_accepted_advisory_size_throws_witness :
  Orchestrator.decideTrade defaultRisk emptyInput (Some (Sanitized holdAdvice))
  = Throw TypeError_AssignmentToConstant.
Proof.
  apply (decideTrade_accepted_advisory_size_throws defaultRisk emptyInput holdAdvice).
  - cbn. lra.
  - right. rewrite localSignal_empty. cbn. lra.
  - cbn. lra.
  - rewrite sized_holdAdvice_empty. lra.
Defined.

(* ------------------------------------------------------------------ *)
(** ** The risk gate *)

(** C2, at the input [imbalancedInput] and the default configuration.
    The order book of the input is imbalanced by 0.9, on which the
    market circuit breaker holds; [decideTrade] does not answer with the
    risk halt, whatever the advisory reply, because the gate evaluates
    the breaker on literal zeros. *)
Theorem decideTrade_gate_ignores_market :
  RiskManager.marketCircuitBreaker
    0 0 (orderbookImbalanceOf imbalancedInput) false false = true
  /\ forall adv, Orchestrator.decideTrade defaultRisk imbalancedInput adv <> RiskHalt.
Proof.
  split.
  - cbn [orderbookImbalanceOf imbalancedInput events ev_market orderbook
         imbalance Js.nullish].
    unfold RiskManager.marketCircuitBreaker. rewrite Rabs_R0.
    rewrite (Rabs_right 0.9) by lra. js_bool. reflexivity.
  - intros adv H. apply decideTrade_halts_iff in H. cbn in H. lra.
Qed.

(* ------------------------------------------------------------------ *)
(** ** Totality *)

(** C3, at the empty input with the reply [holdAdvice].  The call does
    not return a decision record: it raises the TypeError of the
    assignment to the constant [sizeUsd]. *)
Theorem decideTrade_raises_on_accepted_advice :
  Orchestrator.decideTrade defaultRisk emptyInput (Some (Sanitized holdAdvice))
  = Throw TypeError_AssignmentToConstant
  /\ ~ (forall inp adv,
         Orchestrator.decideTrade defaultRisk inp adv = RiskHalt
         \/ exists d, Orchestrator.decideTrade defaultRisk inp adv = Emit d).
Proof.
  assert (Hthrow :
    Orchestrator.decideTrade defaultRisk emptyInput (Some (Sanitized holdAdvice))
    = Throw TypeError_AssignmentToConstant).
  { apply decideTrade_overlay_assigns_const.
    - cbn. lra.
    - apply accepts_holdAdvice_empty.
    - cbn. lra.
    - rewrite sized_holdAdvice_empty. lra. }
  split; [exact Hthrow|].
  intros Htotal.
  destruct (Htotal emptyInput (Some (Sanitized holdAdvice))) as [H|[d H]];
    rewrite Hthrow in H; discriminate.
Qed.

(* ------------------------------------------------------------------ *)
(** ** Stops of a hold decision *)

(** The entry price of the stops is the last close of the 1-hour
    candles whenever the multi-timeframe input has one that is not 0. *)
Lemma lastClose_1h (inp : Input) (tf : MultiTf) (cs : list Candle) (c : Candle) :
  multiTf inp = Some tf -> candles1h tf = Some cs ->
  Js.last_opt cs = Some c -> c_close c <> 0 ->
  Orchestrator.lastClose inp = c_close c.
Proof.
  intros Htf Hcs Hlast Hnz. unfold Orchestrator.lastClose.
  rewrite Htf. unfold Orchestrator.lastCloseOf at 1. rewrite Hcs, Hlast.
  cbn [option_map Js.or_opt]. apply or_nonzero. exact Hnz.
Qed.

(* ================================================================== *)
(** * Risk manager: sizing *)
(* ================================================================== *)

(** Case analysis on every [Rmax], [Rmin] and [Rabs] of the goal. *)
Ltac r_cases :=
  unfold Rmax, Rmin, Rabs in *;
  repeat match goal with
  | |- context [Rle_dec ?a ?b] =>
      lazymatch a with
      | context [Rle_dec _ _] => fail | context [Rcase_abs _] => fail
      | _ => idtac end;
      lazymatch b with
      | context [Rle_dec _ _] => fail | context [Rcase_abs _] => fail
      | _ => idtac end;
      destruct (Rle_dec a b)
  | |- context [Rcase_abs ?a] =>
      lazymatch a with
      | context [Rle_dec _ _] => fail | context [Rcase_abs _] => fail
      | _ => idtac end;
      destruct (Rcase_abs a)
  end.

(** X1.  [capOrderSizeUsd] never returns a negative size, never exceeds a
    non-negative configured maximum, and capping twice is capping once. *)
Theorem capOrderSizeUsd_range_idempotent (risk : RiskConfig) (x : R) :
  0 <= RiskManager.capOrderSizeUsd risk x
  /\ (0 <= maxPositionUsd risk ->
      RiskManager.capOrderSizeUsd risk x <= maxPositionUsd risk)
  /\ RiskManager.capOrderSizeUsd risk (RiskManager.capOrderSizeUsd risk x)
     = RiskManager.capOrderSizeUsd risk x.
Proof.
  unfold RiskManager.capOrderSizeUsd. cbv zeta.
  repeat split; [| intros H |]; r_cases; lra.
Qed.

Lemma capOrderSizeUsd_range_idempotent_witness :
  RiskManager.capOrderSizeUsd defaultRisk 7000 <= 5000.
Proof.
  apply (proj1 (proj2 (capOrderSizeUsd_range_idempotent defaultRisk 7000))).
  cbn. lra.
Defined.

Lemma kelly_bounds (winProb winLossRatio : R) :
  0 <= RiskManager.kellyFraction winProb winLossRatio <= 0.25.
Proof.
  unfold RiskManager.kellyFraction. cbv zeta.
  set (f := _ - _ / _). clearbody f. r_cases; lra.
Qed.

(** At the ratio 1.5 that [positionSizeUsd] uses, the fraction is 0 up
    to the break-even probability 0.4 (over [R]; at the double 0.4 the
    source keeps a residue of 2^-54). *)
Lemma kelly_zero_below (p : R) :
  p <= 0.4 -> RiskManager.kellyFraction p 1.5 = 0.
Proof.
  intros Hc. unfold RiskManager.kellyFraction. cbv zeta.
  rewrite (Rmax_right 0.01 1.5) by lra.
  assert (Hp : Rmax 0 (Rmin 1 p) <= 0.4) by (r_cases; lra).
  set (q := Rmax 0 (Rmin 1 p)) in *. clearbody q.
  replace (q - (1 - q) / 1.5) with ((5 * q - 2) / 3) by lra.
  r_cases; lra.
Qed.

(** X2.  [kellyFraction] is between 0 and 0.25 for every win probability
    and every win/loss ratio, and it grows with the win probability. *)
Theorem kellyFraction_range_monotone (p q ratio : R) :
  0 <= RiskManager.kellyFraction p ratio <= 0.25
  /\ (p <= q ->
      RiskManager.kellyFraction p ratio <= RiskManager.kellyFraction q ratio).
Proof.
  split; [apply kelly_bounds|].
  intros Hpq. unfold RiskManager.kellyFraction. cbv zeta.
  assert (HR : 0 < Rmax 0.01 ratio) by (r_cases; lra).
  set (r := Rmax 0.01 ratio) in *. clearbody r.
  assert (Hc : Rmax 0 (Rmin 1 p) <= Rmax 0 (Rmin 1 q)) by (r_cases; lra).
  set (a := Rmax 0 (Rmin 1 p)) in *. set (b := Rmax 0 (Rmin 1 q)) in *.
  clearbody a b.
  assert (Hf : a - (1 - a) / r <= b - (1 - b) / r).
  { assert (Hinv : 0 < / r) by (apply Rinv_0_lt_compat; lra).
    unfold Rdiv. nra. }
  set (fa := a - (1 - a) / r) in *. set (fb := b - (1 - b) / r) in *.
  clearbody fa fb. r_cases; lra.
Qed.

Lemma kellyFraction_range_monotone_witness :
  RiskManager.kellyFraction 0.5 1.5 <= RiskManager.kellyFraction 0.7 1.5.
Proof.
  apply (proj2 (kellyFraction_range_monotone 0.5 0.7 1.5)). lra.
Defined.

(** X3.  [positionSizeUsd] for a non-negative risk budget: at a
    confidence strictly below 0.4, the Kelly break-even at the ratio 1.5,
    the notional is exactly 0, whatever the equity and the volatility;
    for a non-negative equity and ATR fraction it is between 0 and five
    times the risk budget times the equity (10% of the equity at the
    budget 0.02 of the orchestrator).  At 0.4 itself the value over [R]
    is 0 as well, but the source is left with the residue 2^-54 of the
    double 0.4, hence the strict bound. *)
Theorem positionSizeUsd_bounds (equity conf atrPct maxRisk : R) :
  0 <= maxRisk ->
  (conf < 0.4 -> RiskManager.positionSizeUsd equity conf atrPct maxRisk = 0)
  /\ (0 <= equity -> 0 <= atrPct ->
      0 <= RiskManager.positionSizeUsd equity conf atrPct maxRisk
        <= 5 * maxRisk * equity).
Proof.
  intros Hm. unfold RiskManager.positionSizeUsd. cbv zeta. split.
  - intros Hc. rewrite (kelly_zero_below conf (Rlt_le _ _ Hc)).
    rewrite (Rmin_right maxRisk 0) by lra. ring.
  - intros He Ha.
    pose proof (kelly_bounds conf 1.5) as Hk.
    set (k := RiskManager.kellyFraction conf 1.5) in *. clearbody k.
    assert (Hv : 0.25 <= Rmax 0.25 (1 - atrPct / 0.04) <= 1) by (r_cases; lra).
    set (v := Rmax 0.25 (1 - atrPct / 0.04)) in *. clearbody v.
    assert (Hmin : 0 <= Rmin maxRisk k <= maxRisk) by (r_cases; lra).
    set (m := Rmin maxRisk k) in *. clearbody m.
    assert (0 <= equity * m) by (apply Rmult_le_pos; lra).
    assert (equity * m <= equity * maxRisk) by (apply Rmult_le_compat_l; lra).
    split; nra.
Qed.

Lemma positionSizeUsd_bounds_witness :
  RiskManager.positionSizeUsd 10000 0.3 0.01 0.02 = 0
  /\ 0 <= RiskManager.positionSizeUsd 10000 0.9 0.01 0.02 <= 5 * 0.02 * 10000.
Proof.
  split.
  - apply (proj1 (positionSizeUsd_bounds 10000 0.3 0.01 0.02 ltac:(lra))). lra.
  - apply (proj2 (positionSizeUsd_bounds 10000 0.9 0.01 0.02 ltac:(lra))); lra.
Defined.


(* ================================================================== *)
(** * Risk manager: the correlation is a correlation *)
(* ================================================================== *)








Lemma wellConditioned_zigzag : wellConditioned zigzag.
Proof.
  unfold wellConditioned, variance, sqDev, mean, Js.sum, zigzag. simpl. lra.
Qed.


Lemma wellConditioned_lastn_zigzag : wellConditioned (Js.lastn 20 zigzag).
Proof. exact wellConditioned_zigzag. Qed.



(* ================================================================== *)
(** * Indicator library: ranges *)
(* ================================================================== *)

Lemma sum_bounds lo hi l :
  Forall (fun v => lo <= v <= hi) l ->
  INR (length l) * lo <= Js.sum l <= INR (length l) * hi.
Proof.
  induction 1 as [|x l Hx Hl IH].
  - cbn. lra.
  - rewrite sum_cons. change (length (x :: l)) with (S (length l)).
    rewrite S_INR. lra.
Qed.

Lemma Forall_firstn_range {A} (P : A -> Prop) n l :
  Forall P l -> Forall P (firstn n l).
Proof.
  revert l. induction n as [|n IH]; intros l H; [constructor|].
  destruct l as [|x l]; [constructor|].
  inversion H; subst. cbn [firstn]. constructor; auto.
Qed.

Lemma Forall_skipn_range {A} (P : A -> Prop) n l :
  Forall P l -> Forall P (skipn n l).
Proof.
  revert l. induction n as [|n IH]; intros l H; [exact H|].
  destruct l as [|x l]; [constructor|].
  inversion H; subst. cbn [skipn]. auto.
Qed.

(** Exponential smoothing with a factor in [0, 1] stays inside the
    range of its inputs. *)
Lemma smoothing_range lo hi k l e :
  0 <= k <= 1 -> lo <= e <= hi ->
  Forall (fun v => lo <= v <= hi) l ->
  lo <= fold_left (fun emaPrev v => v * k + emaPrev * (1 - k)) l e <= hi.
Proof.
  intros Hk. revert e. induction l as [|x l IH]; intros e He Hl; [exact He|].
  inversion Hl as [|? ? Hx Hl']; subst. cbn [fold_left].
  apply IH; [|exact Hl']. split; nra.
Qed.

Lemma ema_range_lemma (values : list R) (period : nat) (lo hi : R) :
  (0 < period)%nat -> (period <= length values)%nat ->
  Forall (fun v => lo <= v <= hi) values ->
  exists e, Indicators.ema values period = Some e /\ lo <= e <= hi.
Proof.
  intros Hp Hlen Hall. unfold Indicators.ema.
  replace (Nat.ltb (length values) period) with false
    by (symmetry; apply Nat.ltb_ge; lia).
  eexists. split; [reflexivity|].
  assert (Hn : 0 < INR period) by (apply lt_0_INR; lia).
  assert (H1 : 1 <= INR period) by (change 1 with (INR 1); apply le_INR; lia).
  apply smoothing_range.
  - split.
    + apply Rlt_le. apply Rdiv_lt_0_compat; lra.
    + apply Rmult_le_reg_r with (INR period + 1); [lra|].
      replace (2 / (INR period + 1) * (INR period + 1)) with 2 by (field; lra).
      lra.
  - pose proof (sum_bounds lo hi (firstn period values)
                  (Forall_firstn_range _ period values Hall)) as Hs.
    rewrite length_firstn, Nat.min_l in Hs by lia.
    split.
    + apply Rmult_le_reg_r with (INR period); [lra|].
      replace (Js.sum (firstn period values) / INR period * INR period)
        with (Js.sum (firstn period values)) by (field; lra). lra.
    + apply Rmult_le_reg_r with (INR period); [lra|].
      replace (Js.sum (firstn period values) / INR period * INR period)
        with (Js.sum (firstn period values)) by (field; lra). lra.
  - apply Forall_skipn_range. exact Hall.
Qed.

Lemma sum_nonneg l : Forall (fun t => 0 <= t) l -> 0 <= Js.sum l.
Proof.
  induction 1 as [|x l Hx Hl IH]; [cbn; lra|]. rewrite sum_cons. lra.
Qed.

(** Exponential smoothing with a factor in [0, 1] keeps non-negative
    inputs non-negative. *)
Lemma smoothing_nonneg k l e :
  0 <= k <= 1 -> 0 <= e ->
  Forall (fun v => 0 <= v) l ->
  0 <= fold_left (fun emaPrev v => v * k + emaPrev * (1 - k)) l e.
Proof.
  intros Hk. revert e. induction l as [|x l IH]; intros e He Hl; [exact He|].
  inversion Hl as [|? ? Hx Hl']; subst. cbn [fold_left].
  apply IH; [|exact Hl']. nra.
Qed.

(** X5.  For a look-back of at least one, [ema] is unavailable exactly
    when there are fewer values than the look-back; an available EMA of
    values that are all non-negative (prices) is non-negative; and with
    exactly as many values as the look-back the EMA is their plain
    average, no smoothing step being taken. *)
Theorem ema_available_nonneg (values : list R) (period : nat) :
  (0 < period)%nat ->
  (Indicators.ema values period = None <-> (length values < period)%nat)
  /\ (Forall (fun v => 0 <= v) values ->
      forall e, Indicators.ema values period = Some e -> 0 <= e)
  /\ (length values = period ->
      Indicators.ema values period = Some (Js.sum values / INR period)).
Proof.
  intros Hp.
  assert (Hn : 0 < INR period) by (apply lt_0_INR; lia).
  assert (H1 : 1 <= INR period) by (change 1 with (INR 1); apply le_INR; lia).
  unfold Indicators.ema. split; [|split].
  - destruct (Nat.ltb (length values) period) eqn:E.
    + apply Nat.ltb_lt in E. tauto.
    + apply Nat.ltb_ge in E. split; [discriminate|lia].
  - intros Hall e. destruct (Nat.ltb (length values) period); [discriminate|].
    cbv zeta. intros He. injection He as <-.
    apply smoothing_nonneg.
    + split.
      * apply Rlt_le. apply Rdiv_lt_0_compat; lra.
      * apply Rmult_le_reg_r with (INR period + 1); [lra|].
        replace (2 / (INR period + 1) * (INR period + 1)) with 2 by (field; lra).
        lra.
    + apply Rmult_le_pos; [|apply Rlt_le, Rinv_0_lt_compat; exact Hn].
      apply sum_nonneg. apply Forall_firstn_range. exact Hall.
    + apply Forall_skipn_range. exact Hall.
  - intros Hlen. subst period.
    rewrite Nat.ltb_irrefl, firstn_all, skipn_all. reflexivity.
Qed.

Lemma ema_available_nonneg_witness :
  Indicators.ema [1; 3] 2 = Some (Js.sum [1; 3] / INR 2)
  /\ exists e, Indicators.ema [1; 3; 2] 2 = Some e /\ 0 <= e.
Proof.
  split.
  - apply (proj2 (proj2 (ema_available_nonneg [1; 3] 2 ltac:(lia)))). reflexivity.
  - destruct (ema_available_nonneg [1; 3; 2] 2 ltac:(lia)) as (Hnone & Hpos & _).
    destruct (Indicators.ema [1; 3; 2] 2) as [e|].
    + exists e. split; [reflexivity|]. apply Hpos; [|reflexivity].
      repeat constructor; lra.
    + exfalso. apply proj1 in Hnone. specialize (Hnone eq_refl).
      simpl in Hnone. lia.
Defined.

(** The loop of [rsi] only ever adds non-negative amounts to the gains
    and to the losses. *)
Lemma rsi_loop_nonneg cs g l :
  0 <= g -> 0 <= l ->
  0 <= fst (fold_left Indicators.rsiStep cs (g, l))
  /\ 0 <= snd (fold_left Indicators.rsiStep cs (g, l)).
Proof.
  revert g l. induction cs as [|c cs IH]; intros g l Hg Hl; [cbn; lra|].
  cbn [fold_left]. unfold Indicators.rsiStep at 2 4. cbn [fst snd].
  destruct (Js.gt c 0) eqn:E.
  - apply gt_true in E. apply IH; lra.
  - apply gt_false in E. apply IH; lra.
Qed.

Lemma rsi_value_range (values : list R) (period : nat) (r : R) :
  (0 < period)%nat -> Indicators.rsi values period = Some r -> 0 <= r <= 100.
Proof.
  intros Hp. unfold Indicators.rsi.
  destruct (Nat.ltb (length values) (period + 1)); [discriminate|].
  cbv zeta.
  destruct (rsi_loop_nonneg
              (Indicators.changes (Js.lastn (period + 1) values)) 0 0
              ltac:(lra) ltac:(lra)) as [Hg Hl].
  set (gl := fold_left _ _ _) in *. clearbody gl.
  assert (Hn : 0 < INR period) by (apply lt_0_INR; lia).
  destruct (Js.eq (snd gl / INR period) 0) eqn:E.
  - intros H. injection H as <-. lra.
  - apply eq_false in E. intros H. injection H as <-.
    assert (Hal : 0 < snd gl / INR period).
    { assert (0 <= snd gl / INR period) by
        (apply Rmult_le_pos; [lra|apply Rlt_le, Rinv_0_lt_compat; lra]).
      lra. }
    assert (Hag : 0 <= fst gl / INR period) by
        (apply Rmult_le_pos; [lra|apply Rlt_le, Rinv_0_lt_compat; lra]).
    set (ag := fst gl / INR period) in *. set (al := snd gl / INR period) in *.
    assert (Hrs : 0 <= ag / al) by
        (apply Rmult_le_pos; [lra|apply Rlt_le, Rinv_0_lt_compat; lra]).
    set (rs := ag / al) in *.
    assert (Hq : 0 < 100 / (1 + rs) <= 100).
    { split.
      - apply Rdiv_lt_0_compat; lra.
      - apply Rmult_le_reg_r with (1 + rs); [lra|].
        replace (100 / (1 + rs) * (1 + rs)) with 100 by (field; lra). nra. }
    lra.
Qed.

(** X6.  For a look-back of at least one, [rsi] is unavailable exactly
    when there are no more values than the look-back, and an available
    RSI is between 0 and 100. *)
Theorem rsi_available_range (values : list R) (period : nat) :
  (0 < period)%nat ->
  (Indicators.rsi values period = None <-> (length values <= period)%nat)
  /\ forall r, Indicators.rsi values period = Some r -> 0 <= r <= 100.
Proof.
  intros Hp. split; [|intros r; apply rsi_value_range; exact Hp].
  unfold Indicators.rsi.
  destruct (Nat.ltb (length values) (period + 1)) eqn:E.
  - apply Nat.ltb_lt in E. split; [lia|reflexivity].
  - apply Nat.ltb_ge in E. cbv zeta.
    destruct (Js.eq _ 0); split; try discriminate; lia.
Qed.

Lemma rsi_available_range_witness :
  Indicators.rsi [1; 2] 2 = None.
Proof.
  apply (proj1 (rsi_available_range [1; 2] 2 ltac:(lia))). simpl. lia.
Defined.

Lemma strictlyDecreasing_tail a l :
  strictlyDecreasing (a :: l) -> strictlyDecreasing l.
Proof. destruct l; simpl; tauto. Qed.

Lemma strictlyDecreasing_skipn n l :
  strictlyDecreasing l -> strictlyDecreasing (skipn n l).
Proof.
  revert l. induction n as [|n IH]; intros l H; [exact H|].
  destruct l as [|a l]; [exact H|].
  simpl skipn. apply IH. eapply strictlyDecreasing_tail; eauto.
Qed.

Lemma changes_decreasing l :
  strictlyDecreasing l -> Forall (fun c => c < 0) (Indicators.changes l).
Proof.
  induction l as [|a l IH]; intros H; [constructor|].
  destruct l as [|b l]; [constructor|].
  destruct H as [Hab Hrest].
  change (Indicators.changes (a :: b :: l))
    with ((b - a) :: Indicators.changes (b :: l)).
  constructor; [lra|]. apply IH. exact Hrest.
Qed.

Lemma length_changes l : length (Indicators.changes l) = (length l - 1)%nat.
Proof.
  induction l as [|a l IH]; [reflexivity|].
  destruct l as [|b l]; [reflexivity|].
  change (Indicators.changes (a :: b :: l))
    with ((b - a) :: Indicators.changes (b :: l)).
  cbn [length] in *. lia.
Qed.

(** Over losses only, the gains stay put and the losses grow, strictly
    when there is at least one change. *)
Lemma rsi_loop_losses cs g l :
  Forall (fun c => c < 0) cs ->
  fst (fold_left Indicators.rsiStep cs (g, l)) = g
  /\ l <= snd (fold_left Indicators.rsiStep cs (g, l))
  /\ (cs <> [] -> l < snd (fold_left Indicators.rsiStep cs (g, l))).
Proof.
  revert g l. induction cs as [|c cs IH]; intros g l H.
  - cbn. repeat split; try lra. congruence.
  - inversion H as [|? ? Hc Hcs]; subst. cbn [fold_left].
    rewrite rsiStep_loss by lra.
    destruct (IH g (l - c) Hcs) as (Hg & Hle & _).
    repeat split; [exact Hg|lra|intros _; lra].
Qed.


Lemma nondecreasing_tail a l : nonDecreasing (a :: l) -> nonDecreasing l.
Proof. destruct l; simpl; tauto. Qed.

Lemma nondecreasing_skipn n l : nonDecreasing l -> nonDecreasing (skipn n l).
Proof.
  revert l. induction n as [|n IH]; intros l H; [exact H|].
  destruct l as [|a l]; [exact H|].
  simpl skipn. apply IH. eapply nondecreasing_tail; eauto.
Qed.

Lemma changes_nondecreasing l :
  nonDecreasing l -> Forall (fun c => 0 <= c) (Indicators.changes l).
Proof.
  induction l as [|a l IH]; intros H; [constructor|].
  destruct l as [|b l]; [constructor|].
  destruct H as [Hab Hrest].
  change (Indicators.changes (a :: b :: l))
    with ((b - a) :: Indicators.changes (b :: l)).
  constructor; [lra|]. apply IH. exact Hrest.
Qed.

(** A change of 0 goes through the loss branch and subtracts 0. *)
Lemma rsi_loop_no_loss cs g :
  Forall (fun c => 0 <= c) cs ->
  snd (fold_left Indicators.rsiStep cs (g, 0)) = 0.
Proof.
  revert g. induction cs as [|c cs IH]; intros g H; [reflexivity|].
  inversion H as [|? ? Hc Hcs]; subst. cbn [fold_left].
  destruct (Req_dec_T c 0) as [Hz|Hnz].
  - subst c. rewrite rsiStep_loss by lra.
    replace (0 - 0) with 0 by ring. apply IH. exact Hcs.
  - rewrite rsiStep_gain by lra. apply IH. exact Hcs.
Qed.

(** X7.  The two extremes of [rsi], for a series longer than the
    look-back: a series that never falls, a flat one included, has an
    RSI of exactly 100, and a strictly falling series an RSI of exactly
    0. *)
Theorem rsi_monotone_series (values : list R) (period : nat) :
  (0 < period)%nat -> (period < length values)%nat ->
  (nonDecreasing values -> Indicators.rsi values period = Some 100)
  /\ (strictlyDecreasing values -> Indicators.rsi values period = Some 0).
Proof.
  intros Hp Hlen. split.
  - intros Hnd. apply rsi_avgLoss_zero; [exact Hlen|].
    unfold trailingAvgLoss. rewrite rsi_loop_no_loss.
    + unfold Rdiv. apply Rmult_0_l.
    + apply changes_nondecreasing. unfold Js.lastn.
      apply nondecreasing_skipn. exact Hnd.
  - intros Hdec. unfold Indicators.rsi.
    replace (Nat.ltb (length values) (period + 1)) with false
      by (symmetry; apply Nat.ltb_ge; lia).
    cbv zeta.
    assert (Hcs : Forall (fun c => c < 0)
                    (Indicators.changes (Js.lastn (period + 1) values))).
    { apply changes_decreasing. unfold Js.lastn.
      apply strictlyDecreasing_skipn. exact Hdec. }
    assert (Hne : Indicators.changes (Js.lastn (period + 1) values) <> []).
    { intros E. apply (f_equal (@length R)) in E.
      rewrite length_changes in E. unfold Js.lastn in E.
      rewrite length_skipn in E. cbn [length] in E. lia. }
    destruct (rsi_loop_losses _ 0 0 Hcs) as (Hg & _ & Hl).
    specialize (Hl Hne).
    set (gl := fold_left _ _ _) in *. clearbody gl.
    assert (Hn : 0 < INR period) by (apply lt_0_INR; lia).
    assert (Hal : 0 < snd gl / INR period) by (apply Rdiv_lt_0_compat; lra).
    replace (Js.eq (snd gl / INR period) 0) with false
      by (symmetry; apply eq_false; lra).
    rewrite Hg. f_equal.
    replace (0 / INR period / (snd gl / INR period)) with 0
      by (unfold Rdiv; rewrite !Rmult_0_l; reflexivity).
    lra.
Qed.

Lemma rsi_monotone_series_witness :
  Indicators.rsi [5; 5; 5] 2 = Some 100 /\ Indicators.rsi [4; 2; 1] 2 = Some 0.
Proof.
  split.
  - apply (proj1 (rsi_monotone_series [5; 5; 5] 2 ltac:(lia) ltac:(simpl; lia))).
    simpl. lra.
  - apply (proj2 (rsi_monotone_series [4; 2; 1] 2 ltac:(lia) ltac:(simpl; lia))).
    simpl. lra.
Defined.

(* ------------------------------------------------------------------ *)
(** ** True range and ATR *)

Lemma trueRanges_nonneg l : Forall (fun t => 0 <= t) (Indicators.trueRanges l).
Proof.
  induction l as [|a l IH]; [constructor|].
  destruct l as [|b l]; [constructor|].
  change (Indicators.trueRanges (a :: b :: l))
    with (Rmax (Rmax (c_high b - c_low b) (Rabs (c_high b - c_close a)))
               (Rabs (c_low b - c_close a))
          :: Indicators.trueRanges (b :: l)).
  constructor; [|exact IH].
  pose proof (Rabs_pos (c_low b - c_close a)) as H.
  eapply Rle_trans; [exact H|apply Rmax_r].
Qed.

Lemma length_trueRanges l :
  length (Indicators.trueRanges l) = (length l - 1)%nat.
Proof.
  induction l as [|a l IH]; [reflexivity|].
  destruct l as [|b l]; [reflexivity|].
  change (Indicators.trueRanges (a :: b :: l))
    with (Rmax (Rmax (c_high b - c_low b) (Rabs (c_high b - c_close a)))
               (Rabs (c_low b - c_close a))
          :: Indicators.trueRanges (b :: l)).
  cbn [length] in *. lia.
Qed.

Lemma atr_nonneg (candles : list Candle) (period : nat) (a : R) :
  (0 < period)%nat -> Indicators.atr candles period = Some a -> 0 <= a.
Proof.
  intros Hp. unfold Indicators.atr.
  destruct (Nat.ltb (length candles) (period + 1)) eqn:E; [discriminate|].
  apply Nat.ltb_ge in E. intros H. injection H as <-.
  set (trs := Indicators.trueRanges (Js.lastn (period + 1) candles)).
  assert (Hlen : length trs = period).
  { unfold trs. rewrite length_trueRanges. unfold Js.lastn.
    rewrite length_skipn. lia. }
  rewrite Hlen.
  apply Rmult_le_pos.
  - apply sum_nonneg. apply trueRanges_nonneg.
  - apply Rlt_le, Rinv_0_lt_compat, lt_0_INR. exact Hp.
Qed.

(** X8.  [atr] is available exactly when there are more candles than
    the look-back, and it is never negative, whatever the candles hold
    (a high below the low included). *)
Theorem atr_available_nonneg (candles : list Candle) (period : nat) :
  (0 < period)%nat ->
  (Indicators.atr candles period = None <-> (length candles <= period)%nat)
  /\ forall a, Indicators.atr candles period = Some a -> 0 <= a.
Proof.
  intros Hp. split; [|intros a; apply atr_nonneg; exact Hp].
  unfold Indicators.atr.
  destruct (Nat.ltb (length candles) (period + 1)) eqn:E.
  - apply Nat.ltb_lt in E. split; [lia|reflexivity].
  - apply Nat.ltb_ge in E. split; [discriminate|lia].
Qed.

Lemma atr_available_nonneg_witness :
  Indicators.atr [] 14 = None.
Proof.
  apply (proj1 (atr_available_nonneg [] 14 ltac:(lia))). simpl. lia.
Defined.

(* ------------------------------------------------------------------ *)
(** ** Volume profile *)

Lemma length_addAt idx v nodes :
  length (Indicators.addAt idx v nodes) = length nodes.
Proof.
  revert idx. induction nodes as [|x t IH]; intros [|i]; cbn; auto.
Qed.

Lemma sum_addAt idx v nodes :
  (idx < length nodes)%nat ->
  Js.sum (Indicators.addAt idx v nodes) = Js.sum nodes + v.
Proof.
  revert idx. induction nodes as [|x t IH]; intros [|i] H; cbn [length] in H;
    try lia; cbn [Indicators.addAt].
  - rewrite !sum_cons. lra.
  - rewrite !sum_cons, IH by lia. lra.
Qed.

Lemma sum_repeat_0 n : Js.sum (repeat 0 n) = 0.
Proof.
  induction n as [|n IH]; [reflexivity|]. cbn [repeat]. rewrite sum_cons. lra.
Qed.

(** The bucket loop of [volumeProfile]. *)
Lemma bucket_loop (bins : nat) (mn step : R) (cs : list Candle) (nodes : list R) :
  (0 < bins)%nat -> length nodes = bins ->
  let nodes' :=
    fold_left
      (fun nodes c =>
         let idx := Z.min (Z.of_nat bins - 1)
                          (Z.max 0 (Js.floor ((c_close c - mn) / step))) in
         Indicators.addAt (Z.to_nat idx) (Js.or (c_volume c) 0) nodes)
      cs nodes in
  length nodes' = bins
  /\ Js.sum nodes' = Js.sum nodes + Js.sum (map c_volume cs).
Proof.
  intros Hb. revert nodes. induction cs as [|c cs IH]; intros nodes Hlen.
  - cbv zeta. cbn [fold_left map]. rewrite sum_nil. split; [exact Hlen|lra].
  - cbn [fold_left map]. cbv zeta in IH |- *.
    set (idx := Z.to_nat _).
    assert (Hidx : (idx < length nodes)%nat) by (unfold idx; lia).
    destruct (IH (Indicators.addAt idx (Js.or (c_volume c) 0) nodes)) as [H1 H2].
    { rewrite length_addAt. exact Hlen. }
    split; [exact H1|].
    rewrite H2, sum_addAt by exact Hidx. rewrite or_zero, sum_cons. lra.
Qed.

(** X9.  For a non-empty candle list and at least one bucket,
    [volumeProfile] returns exactly [bins] buckets and loses no volume:
    the buckets add up to the total volume of the candles. *)
Theorem volumeProfile_conserves_volume (candles : list Candle) (bins : nat) :
  (0 < bins)%nat -> candles <> [] ->
  let vp := Indicators.volumeProfile candles bins in
  length (vp_nodes vp) = bins
  /\ Js.sum (vp_nodes vp) = Js.sum (map c_volume candles).
Proof.
  intros Hb Hne. unfold Indicators.volumeProfile.
  destruct candles as [|c0 cs]; [contradiction|].
  cbv zeta. cbn [vp_nodes].
  pose proof (bucket_loop bins
              (Indicators.minOf (map c_close (c0 :: cs)))
              (Js.or ((Indicators.maxOf (map c_close (c0 :: cs))
                       - Indicators.minOf (map c_close (c0 :: cs))) / INR bins) 1)
              (c0 :: cs) (repeat 0 bins) Hb (repeat_length 0 bins)) as H.
  cbv zeta in H. destruct H as [H1 H2].
  split; [exact H1|]. rewrite H2, sum_repeat_0. lra.
Qed.

Lemma volumeProfile_conserves_volume_witness :
  Js.sum (vp_nodes (Indicators.volumeProfile
                      [{| c_open := 1; c_high := 2; c_low := 1; c_close := 2;
                          c_volume := 7 |}] 16))
  = Js.sum [7].
Proof.
  apply (proj2 (volumeProfile_conserves_volume
                  [{| c_open := 1; c_high := 2; c_low := 1; c_close := 2;
                      c_volume := 7 |}] 16 ltac:(lia) ltac:(discriminate))).
Defined.


(* ================================================================== *)
(** * Technical analyzer *)
(* ================================================================== *)

Lemma analyze_action tf :
  tech_action (Technical.analyzeMultiTimeframe tf)
  = if Js.gt (blendedBias tf) 0.1 then BUY
    else if Js.lt (blendedBias tf) (-0.1) then SELL else HOLD.
Proof. reflexivity. Qed.

Lemma analyze_confidence tf :
  tech_confidence (Technical.analyzeMultiTimeframe tf)
  = Js.toFixed2 (Rmin 0.99 (Rabs (blendedBias tf))).
Proof. reflexivity. Qed.

Lemma analyze_size tf :
  tech_size (Technical.analyzeMultiTimeframe tf)
  = Js.toFixed2 (Rmax 0.05 (Rmin 0.5 (0.25 * (0.5 + volNormOf tf / 2)))).
Proof. reflexivity. Qed.

Lemma normalize_range x a b : 0 <= Indicators.normalize x a b <= 1.
Proof.
  unfold Indicators.normalize. destruct (Js.eq b a); [lra|].
  set (q := (x - a) / (b - a)). clearbody q. r_cases; lra.
Qed.

Lemma volNormOf_range tf : 0 <= volNormOf tf <= 1.
Proof. apply normalize_range. Qed.

Lemma mrBias_values bb l r :
  Technical.mrBias bb l r = -1 \/ Technical.mrBias bb l r = 0
  \/ Technical.mrBias bb l r = 1.
Proof.
  unfold Technical.mrBias. destruct bb; [|auto]. destruct l; [|auto].
  destruct (_ && _ && _); [auto|]. destruct (_ && _ && _); auto.
Qed.

Lemma trendBias_values e9 e21 e50 m :
  Technical.trendBias e9 e21 e50 m = -1 \/ Technical.trendBias e9 e21 e50 m = 0
  \/ Technical.trendBias e9 e21 e50 m = 1.
Proof.
  unfold Technical.trendBias. destruct e9; [|auto]. destruct e21; [|auto].
  destruct e50; [|auto]. cbv zeta.
  destruct (_ && _ && _); [auto|]. destruct (_ && _ && _); auto.
Qed.

(** [toFixed(2)] rounds to the nearest hundredth, halves upwards. *)
Lemma toFixed2_between (a b : Z) (x : R) :
  0 <= x -> IZR a - / 2 <= x * 100 < IZR b + / 2 ->
  IZR a / 100 <= Js.toFixed2 x <= IZR b / 100.
Proof.
  intros H0 [Ha Hb]. unfold Js.toFixed2.
  replace (Js.lt x 0) with false by (symmetry; apply lt_false; lra).
  unfold Js.floor.
  destruct (base_Int_part (x * 100 + / 2)) as [Hlo Hhi].
  set (z := Int_part (x * 100 + / 2)) in *.
  assert (Hza : (a <= z)%Z).
  { assert (H : IZR a - 1 < IZR z) by lra.
    rewrite <- minus_IZR in H. apply lt_IZR in H. lia. }
  assert (Hzb : (z <= b)%Z).
  { assert (H : IZR z < IZR b + 1) by lra.
    rewrite <- plus_IZR in H. apply lt_IZR in H. lia. }
  apply IZR_le in Hza, Hzb. lra.
Qed.

Lemma toFixed2_0 : Js.toFixed2 0 = 0.
Proof.
  pose proof (toFixed2_between 0 0 0 ltac:(lra) ltac:(lra)). lra.
Qed.

Lemma blendedBias_bound tf : Rabs (blendedBias tf) <= 0.725.
Proof.
  unfold blendedBias. pose proof (volNormOf_range tf) as Hv.
  set (v := volNormOf tf) in *. clearbody v.
  destruct (mrBias_values
              (Indicators.bollinger (Technical.toCloses (candles5m tf)) 20 2)
              (Js.last_opt (Technical.toCloses (candles5m tf)))
              (Indicators.rsi (Technical.toCloses (candles5m tf)) 14))
    as [Hm|[Hm|Hm]];
  destruct (trendBias_values
              (Indicators.ema (Technical.toCloses (candles1h tf)) 9)
              (Indicators.ema (Technical.toCloses (candles1h tf)) 21)
              (Indicators.ema (Technical.toCloses (candles1h tf)) 50)
              (Indicators.macd (Technical.toCloses (candles1h tf)) 12 26 9))
    as [Ht|[Ht|Ht]];
  unfold mrBiasOf, Technical.meanReversionBias, trendBiasOf; cbv zeta;
  rewrite Hm, Ht; r_cases; lra.
Qed.

(** X10.  Whatever the candles, the signal of [analyzeMultiTimeframe] has
    a confidence between 0 and 0.73 and a size factor between 0.13 and
    0.25: the caps 0.99 on the confidence and [0.05, 0.5] on the size are
    never reached. *)
Theorem analyzeMultiTimeframe_ranges (tf : MultiTf) :
  let s := Technical.analyzeMultiTimeframe tf in
  0 <= tech_confidence s <= 0.73 /\ 0.13 <= tech_size s <= 0.25.
Proof.
  cbv zeta. rewrite analyze_confidence, analyze_size.
  pose proof (blendedBias_bound tf) as Hb.
  pose proof (Rabs_pos (blendedBias tf)) as Hp.
  pose proof (volNormOf_range tf) as Hv.
  split.
  - rewrite Rmin_right by lra.
    pose proof (toFixed2_between 0 73 (Rabs (blendedBias tf)) Hp
                  ltac:(lra)) as H. lra.
  - rewrite (Rmin_right 0.5) by lra. rewrite Rmax_right by lra.
    pose proof (toFixed2_between 13 25 (0.25 * (0.5 + volNormOf tf / 2))
                  ltac:(lra) ltac:(lra)) as H. lra.
Qed.

(** With both biases at 0 the signal is a hold of confidence 0. *)
Lemma analyze_no_bias tf :
  mrBiasOf tf = 0 -> trendBiasOf tf = 0 ->
  tech_action (Technical.analyzeMultiTimeframe tf) = HOLD
  /\ tech_confidence (Technical.analyzeMultiTimeframe tf) = 0.
Proof.
  intros Hm Ht. rewrite analyze_action, analyze_confidence.
  assert (Hb : blendedBias tf = 0) by (unfold blendedBias; rewrite Hm, Ht; ring).
  rewrite Hb, Rabs_R0. rewrite Rmin_right by lra. js_bool.
  split; [reflexivity|apply toFixed2_0].
Qed.

Lemma trendBias_no_ema50 e9 e21 m : Technical.trendBias e9 e21 None m = 0.
Proof. unfold Technical.trendBias. destruct e9; [|auto]. destruct e21; auto. Qed.

Lemma mrBiasOf_short tf :
  (length (Technical.toCloses (candles5m tf)) < 20)%nat -> mrBiasOf tf = 0.
Proof.
  intros H5. unfold mrBiasOf, Technical.meanReversionBias, Indicators.bollinger.
  replace (Nat.ltb _ 20) with true by (symmetry; apply Nat.ltb_lt; exact H5).
  reflexivity.
Qed.

Lemma trendBiasOf_short tf :
  (length (Technical.toCloses (candles1h tf)) < 50)%nat -> trendBiasOf tf = 0.
Proof.
  intros H1. unfold trendBiasOf. cbv zeta.
  replace (Indicators.ema (Technical.toCloses (candles1h tf)) 50) with (@None R).
  - apply trendBias_no_ema50.
  - unfold Indicators.ema.
    replace (Nat.ltb _ 50) with true by (symmetry; apply Nat.ltb_lt; exact H1).
    reflexivity.
Qed.

(** X11.  Too little history gives no signal: with fewer than 20
    five-minute closes and fewer than 50 one-hour closes the analyzer
    answers HOLD with confidence 0. *)
Theorem analyzeMultiTimeframe_insufficient_data (tf : MultiTf) :
  (length (Technical.toCloses (candles5m tf)) < 20)%nat ->
  (length (Technical.toCloses (candles1h tf)) < 50)%nat ->
  tech_action (Technical.analyzeMultiTimeframe tf) = HOLD
  /\ tech_confidence (Technical.analyzeMultiTimeframe tf) = 0.
Proof.
  intros H5 H1. apply analyze_no_bias.
  - apply mrBiasOf_short. exact H5.
  - apply trendBiasOf_short. exact H1.
Qed.

Lemma analyzeMultiTimeframe_insufficient_data_witness :
  tech_action (Technical.analyzeMultiTimeframe noCandles) = HOLD
  /\ tech_confidence (Technical.analyzeMultiTimeframe noCandles) = 0.
Proof.
  apply (analyzeMultiTimeframe_insufficient_data noCandles); simpl; lia.
Defined.

(** X12.  A trend signal that the mean-reversion signal does not oppose
    decides the action: trend +1 gives BUY, trend -1 gives SELL, with a
    confidence of at least 0.28, at any volatility. *)
Theorem analyzeMultiTimeframe_trend_decides (tf : MultiTf) :
  (trendBiasOf tf = 1 -> 0 <= mrBiasOf tf ->
   tech_action (Technical.analyzeMultiTimeframe tf) = BUY
   /\ 0.28 <= tech_confidence (Technical.analyzeMultiTimeframe tf))
  /\ (trendBiasOf tf = -1 -> mrBiasOf tf <= 0 ->
      tech_action (Technical.analyzeMultiTimeframe tf) = SELL
      /\ 0.28 <= tech_confidence (Technical.analyzeMultiTimeframe tf)).
Proof.
  pose proof (volNormOf_range tf) as Hv.
  pose proof (blendedBias_bound tf) as Hbb.
  split; intros Ht Hm; rewrite analyze_action, analyze_confidence.
  - assert (Hb : 0.275 <= blendedBias tf).
    { unfold blendedBias. rewrite Ht.
      assert (0 <= mrBiasOf tf * (0.45 * (1 - volNormOf tf))) by
        (apply Rmult_le_pos; lra). lra. }
    replace (Js.gt (blendedBias tf) 0.1) with true
      by (symmetry; apply gt_true; lra).
    split; [reflexivity|].
    rewrite Rmin_right by lra.
    assert (Hab : 0.275 <= Rabs (blendedBias tf)) by (rewrite Rabs_right; lra).
    pose proof (toFixed2_between 28 73 (Rabs (blendedBias tf))
                  ltac:(lra) ltac:(lra)) as H. lra.
  - assert (Hb : blendedBias tf <= - 0.275).
    { unfold blendedBias. rewrite Ht.
      assert (0 <= (- mrBiasOf tf) * (0.45 * (1 - volNormOf tf))) by
        (apply Rmult_le_pos; lra). lra. }
    replace (Js.gt (blendedBias tf) 0.1) with false
      by (symmetry; apply gt_false; lra).
    replace (Js.lt (blendedBias tf) (-0.1)) with true
      by (symmetry; apply lt_true; lra).
    split; [reflexivity|].
    rewrite Rmin_right by lra.
    assert (Hab : 0.275 <= Rabs (blendedBias tf)) by (rewrite Rabs_left; lra).
    pose proof (toFixed2_between 28 73 (Rabs (blendedBias tf))
                  ltac:(lra) ltac:(lra)) as H. lra.
Qed.


(* ------------------------------------------------------------------ *)
(** ** Bands, mean reversion and flat markets *)

Lemma bollinger_ordered values period mult bb :
  0 <= mult -> Indicators.bollinger values period mult = Some bb ->
  bbLower bb <= bbMiddle bb <= bbUpper bb.
Proof.
  intros Hm. unfold Indicators.bollinger.
  destruct (Nat.ltb (length values) period); [discriminate|].
  cbv zeta. intros H. injection H as <-. cbn [bbLower bbMiddle bbUpper].
  match goal with |- context [sqrt ?v] => pose proof (sqrt_pos v) as Hs end.
  split; nra.
Qed.

(** X13.  The mean-reversion bias only says buy (+1) when the last close
    is below the lower band, hence below the 20-period mean, with an RSI
    strictly between 0 and 30, and only says sell (-1) when the last
    close is above the upper band, hence above the mean, with an RSI
    above 70. *)
Theorem meanReversionBias_sides (closes5 : list R) :
  (Technical.meanReversionBias closes5 = 1 ->
   exists bb l r,
     Indicators.bollinger closes5 20 2 = Some bb
     /\ Js.last_opt closes5 = Some l /\ Indicators.rsi closes5 14 = Some r
     /\ l < bbLower bb <= bbMiddle bb /\ 0 < r < 30)
  /\ (Technical.meanReversionBias closes5 = -1 ->
      exists bb l r,
        Indicators.bollinger closes5 20 2 = Some bb
        /\ Js.last_opt closes5 = Some l /\ Indicators.rsi closes5 14 = Some r
        /\ bbMiddle bb <= bbUpper bb < l /\ 70 < r <= 100).
Proof.
  unfold Technical.meanReversionBias, Technical.mrBias.
  destruct (Indicators.bollinger closes5 20 2) as [bb|] eqn:Ebb;
    [|split; intros H; exfalso; lra].
  destruct (Js.last_opt closes5) as [l|] eqn:El;
    [|split; intros H; exfalso; lra].
  destruct (Indicators.rsi closes5 14) as [r|] eqn:Er.
  2:{ cbn [Js.truthy_opt]. rewrite !andb_false_r. cbn [andb].
      split; intros H; exfalso; lra. }
  pose proof (bollinger_ordered closes5 20 2 bb ltac:(lra) Ebb) as Hord.
  pose proof (rsi_value_range closes5 14 r ltac:(lia) Er) as Hr.
  cbn [Js.truthy_opt Js.nullish].
  destruct (Js.gt l (bbUpper bb)) eqn:E1, (Js.truthy r) eqn:E2,
           (Js.gt r 70) eqn:E3; cbn [andb];
    try (destruct (Js.lt l (bbLower bb)) eqn:E4, (Js.lt r 30) eqn:E5; cbn [andb]);
    split; intros H; try (exfalso; lra);
    exists bb, l, r; repeat (split; [reflexivity|]);
    rewrite ?gt_true, ?lt_true, ?truthy_true in *; lra.
Qed.

Lemma sum_const p l :
  Forall (fun v => v = p) l -> Js.sum l = INR (length l) * p.
Proof.
  induction 1 as [|x l Hx Hl IH]; [cbn; lra|].
  rewrite sum_cons, IH, Hx. cbn [length]. rewrite S_INR. ring.
Qed.

Lemma sqDev_const p l : Forall (fun v => v = p) l -> sqDev p l = 0.
Proof.
  induction 1 as [|x l Hx Hl IH]; [reflexivity|].
  rewrite sqDev_cons, IH, Hx. ring.
Qed.

Lemma last_opt_const (p : R) (l : list R) (v : R) :
  Forall (fun v => v = p) l -> Js.last_opt l = Some v -> v = p.
Proof.
  intros H Hl. unfold Js.last_opt in Hl. apply nth_error_In in Hl.
  rewrite Forall_forall in H. auto.
Qed.

Lemma meanReversionBias_flat p l :
  Forall (fun v => v = p) l -> Technical.meanReversionBias l = 0.
Proof.
  intros Hall. unfold Technical.meanReversionBias, Technical.mrBias.
  destruct (Indicators.bollinger l 20 2) as [bb|] eqn:Ebb; [|reflexivity].
  destruct (Js.last_opt l) as [v|] eqn:El; [|reflexivity].
  apply (last_opt_const p l v Hall) in El as ->.
  unfold Indicators.bollinger in Ebb.
  destruct (Nat.ltb (length l) 20) eqn:E20; [discriminate|].
  apply Nat.ltb_ge in E20. cbv zeta in Ebb.
  assert (Hs : Forall (fun v => v = p) (Js.lastn 20 l))
    by (apply Forall_skipn_range; exact Hall).
  assert (Hlen : length (Js.lastn 20 l) = 20%nat)
    by (unfold Js.lastn; rewrite length_skipn; lia).
  assert (Hmean : Js.sum (Js.lastn 20 l) / INR 20 = p).
  { rewrite (sum_const p _ Hs), Hlen. field.
    apply not_0_INR. discriminate. }
  rewrite Hmean in Ebb.
  change (fold_left (fun a b => a + (b - p) * (b - p)) (Js.lastn 20 l) 0)
    with (sqDev p (Js.lastn 20 l)) in Ebb.
  rewrite (sqDev_const p _ Hs) in Ebb.
  replace (0 / INR 20) with 0 in Ebb by (unfold Rdiv; ring).
  rewrite sqrt_0 in Ebb. injection Ebb as <-. cbn [bbUpper bbLower].
  replace (Js.gt p (p + 2 * 0)) with false by (symmetry; apply gt_false; lra).
  replace (Js.lt p (p - 2 * 0)) with false by (symmetry; apply lt_false; lra).
  reflexivity.
Qed.

(** X14.  A flat five-minute market never triggers the mean-reversion
    signal, however many candles there are: the last close is neither
    above the upper nor below the lower band.  With fewer than 50
    one-hour closes, so that no trend is read either, the analyzer
    answers HOLD with confidence 0. *)
Theorem analyzeMultiTimeframe_flat_market (tf : MultiTf) (p : R) :
  closesAt p (candles5m tf) ->
  (length (Technical.toCloses (candles1h tf)) < 50)%nat ->
  mrBiasOf tf = 0
  /\ tech_action (Technical.analyzeMultiTimeframe tf) = HOLD
  /\ tech_confidence (Technical.analyzeMultiTimeframe tf) = 0.
Proof.
  intros H5 H1.
  assert (Hmr : mrBiasOf tf = 0) by (apply (meanReversionBias_flat p); exact H5).
  split; [exact Hmr|]. apply analyze_no_bias.
  - exact Hmr.
  - apply trendBiasOf_short. exact H1.
Qed.

Lemma analyzeMultiTimeframe_flat_market_witness :
  tech_action (Technical.analyzeMultiTimeframe
                 {| candles5m := Some (repeat (flatCandle 7) 24);
                    candles1h := Some [flatCandle 7; flatCandle 8];
                    candles4h := None |})
  = HOLD.
Proof.
  apply (analyzeMultiTimeframe_flat_market _ 7).
  - unfold closesAt. cbn [candles5m Technical.toCloses].
    rewrite Forall_forall. intros x Hx. apply in_map_iff in Hx.
    destruct Hx as (c & <- & Hc). apply repeat_spec in Hc. subst c. reflexivity.
  - cbn. lia.
Defined.


(* ================================================================== *)
(** * Technical analyzer: a dip and a spike *)
(* ================================================================== *)

Lemma dip_bollinger :
  Indicators.bollinger dipCloses 20 2
  = Some {| bbMiddle := 96.05; bbUpper := 96.05 + 2 * sqrt 304.4475;
            bbLower := 96.05 - 2 * sqrt 304.4475; bbStd := sqrt 304.4475 |}.
Proof.
  unfold Indicators.bollinger, dipCloses, Js.lastn, Js.sum.
  cbn [repeat app length Nat.ltb Nat.leb Nat.sub skipn fold_left].
  inr_lit.
  match goal with |- context [?s / 20] =>
    replace (s / 20) with 96.05 by lra end.
  match goal with |- context [sqrt ?v] =>
    replace v with 304.4475 by lra end.
  reflexivity.
Qed.

Lemma dip_rsi : Indicators.rsi dipCloses 14 = Some (50 / 41).
Proof.
  unfold Indicators.rsi, dipCloses, Js.lastn.
  cbn [repeat app length Nat.ltb Nat.leb Nat.sub Nat.add skipn
       Indicators.changes fold_left].
  rewrite !rsiStep_loss by lra. rewrite rsiStep_gain by lra.
  rewrite rsiStep_loss by lra.
  cbn [fst snd]. inr_lit.
  js_bool. f_equal. field.
Qed.

Lemma dip_meanReversionBias : Technical.meanReversionBias dipCloses = 1.
Proof.
  unfold Technical.meanReversionBias.
  rewrite dip_bollinger, dip_rsi.
  replace (Js.last_opt dipCloses) with (Some 20) by reflexivity.
  unfold Technical.mrBias. cbn [Js.truthy_opt Js.nullish bbUpper bbLower].
  assert (Hs : 0 <= sqrt 304.4475 < 38).
  { split; [apply sqrt_pos|].
    replace 38 with (sqrt (38 * 38)) by (apply sqrt_square; lra).
    apply sqrt_lt_1_alt. lra. }
  replace (Js.truthy (50 / 41)) with true by (symmetry; apply truthy_true; lra).
  js_bool. reflexivity.
Qed.


Lemma firstn_repeat_app {A} (a : A) n p l :
  (p <= n)%nat -> firstn p (repeat a n ++ l) = repeat a p.
Proof.
  revert p. induction n as [|n IH]; intros p Hp.
  - replace p with 0%nat by lia. reflexivity.
  - destruct p as [|p]; [reflexivity|]. cbn [repeat app firstn].
    f_equal. apply IH. lia.
Qed.

Lemma skipn_repeat_app {A} (a : A) n p l :
  (p <= n)%nat -> skipn p (repeat a n ++ l) = repeat a (n - p) ++ l.
Proof.
  revert p. induction n as [|n IH]; intros p Hp.
  - replace p with 0%nat by lia. reflexivity.
  - destruct p as [|p]; [reflexivity|]. cbn [repeat app skipn Nat.sub].
    apply IH. lia.
Qed.

Lemma smoothing_zeros k n :
  fold_left (fun emaPrev v => v * k + emaPrev * (1 - k)) (repeat 0 n) 0 = 0.
Proof.
  induction n as [|n IH]; [reflexivity|]. cbn [repeat fold_left].
  replace (0 * k + 0 * (1 - k)) with 0 by ring. exact IH.
Qed.

Lemma ema_zeros m p :
  (0 < p)%nat -> (p <= m)%nat -> Indicators.ema (repeat 0 m) p = Some 0.
Proof.
  intros Hp Hm.
  destruct (ema_range_lemma (repeat 0 m) p 0 0 Hp) as (e & He & Hb).
  - rewrite repeat_length. exact Hm.
  - rewrite Forall_forall. intros x Hx. apply repeat_spec in Hx. lra.
  - rewrite He. f_equal. lra.
Qed.

Lemma ema_too_short (l : list R) p :
  (length l < p)%nat -> Indicators.ema l p = None.
Proof.
  intros H. unfold Indicators.ema.
  replace (Nat.ltb (length l) p) with true by (symmetry; apply Nat.ltb_lt; exact H).
  reflexivity.
Qed.

(** The EMA of zeros followed by a single 1 is the smoothing factor. *)
Lemma ema_spike n p :
  (0 < p)%nat -> (p <= n)%nat ->
  Indicators.ema (repeat 0 n ++ [1]) p = Some (2 / (INR p + 1)).
Proof.
  intros Hp Hn. unfold Indicators.ema.
  replace (Nat.ltb (length (repeat 0 n ++ [1])) p) with false
    by (symmetry; apply Nat.ltb_ge; rewrite length_app, repeat_length; lia).
  rewrite firstn_repeat_app, skipn_repeat_app by exact Hn.
  rewrite sum_repeat_0. replace (0 / INR p) with 0 by (unfold Rdiv; ring).
  rewrite fold_left_app, smoothing_zeros. cbn [fold_left]. f_equal. ring.
Qed.

Lemma ema_spike_full n :
  Indicators.ema (repeat 0 n ++ [1]) (n + 1) = Some (1 / INR (n + 1)).
Proof.
  unfold Indicators.ema.
  replace (Nat.ltb (length (repeat 0 n ++ [1])) (n + 1)) with false
    by (symmetry; apply Nat.ltb_ge; rewrite length_app, repeat_length; cbn; lia).
  assert (Hlen : length (repeat 0 n ++ [1]) = (n + 1)%nat)
    by (rewrite length_app, repeat_length; reflexivity).
  rewrite <- Hlen at 1 2. rewrite firstn_all, skipn_all. cbn [fold_left].
  f_equal. f_equal.
  unfold Js.sum. rewrite fold_left_app. fold (Js.sum (repeat 0 n)).
  rewrite sum_repeat_0. cbn [fold_left]. ring.
Qed.

Lemma spike_closes :
  Technical.toCloses (candles1h spikeTf) = repeat 0 49 ++ [1].
Proof. reflexivity. Qed.

Lemma macdAt_spike_early i :
  (i < 25)%nat -> Indicators.macdAt (repeat 0 49 ++ [1]) 12 26 i = [].
Proof.
  intros Hi. unfold Indicators.macdAt. cbv zeta.
  rewrite firstn_repeat_app by lia.
  rewrite (ema_too_short (repeat 0 (i + 1)) 26) by (rewrite repeat_length; lia).
  destruct (Indicators.ema (repeat 0 (i + 1)) 12); reflexivity.
Qed.

Lemma macdAt_spike_mid i :
  (25 <= i < 49)%nat -> Indicators.macdAt (repeat 0 49 ++ [1]) 12 26 i = [0 - 0].
Proof.
  intros Hi. unfold Indicators.macdAt. cbv zeta.
  rewrite firstn_repeat_app by lia.
  rewrite !ema_zeros by lia. reflexivity.
Qed.

Lemma macdAt_spike_last :
  Indicators.macdAt (repeat 0 49 ++ [1]) 12 26 49
  = [2 / (INR 12 + 1) - 2 / (INR 26 + 1)].
Proof.
  unfold Indicators.macdAt. cbv zeta.
  replace (firstn (49 + 1) (repeat 0 49 ++ [1])) with (repeat 0 49 ++ [1])
    by (symmetry; apply firstn_all2; rewrite length_app, repeat_length; cbn; lia).
  rewrite !ema_spike by lia. reflexivity.
Qed.

Lemma flat_map_seq_nil (f : nat -> list R) a n :
  (forall i, (a <= i < a + n)%nat -> f i = []) -> flat_map f (seq a n) = [].
Proof.
  revert a. induction n as [|n IH]; intros a H; [reflexivity|].
  cbn [seq flat_map]. rewrite H by lia. cbn [app]. apply IH.
  intros i Hi. apply H. lia.
Qed.

Lemma flat_map_seq_const (f : nat -> list R) (v : R) a n :
  (forall i, (a <= i < a + n)%nat -> f i = [v]) ->
  flat_map f (seq a n) = repeat v n.
Proof.
  revert a. induction n as [|n IH]; intros a H; [reflexivity|].
  cbn [seq flat_map repeat]. rewrite H by lia. cbn [app]. f_equal. apply IH.
  intros i Hi. apply H. lia.
Qed.

Lemma spike_macd_series :
  flat_map (Indicators.macdAt (repeat 0 49 ++ [1]) 12 26) (seq 0 50)
  = repeat (0 - 0) 24 ++ [2 / (INR 12 + 1) - 2 / (INR 26 + 1)].
Proof.
  change 50%nat with (25 + (24 + 1))%nat.
  rewrite seq_app, flat_map_app, seq_app, flat_map_app.
  rewrite (flat_map_seq_nil _ 0 25)
    by (intros i Hi; apply macdAt_spike_early; lia).
  rewrite (flat_map_seq_const _ (0 - 0) (0 + 25) 24)
    by (intros i Hi; apply macdAt_spike_mid; lia).
  cbn [seq flat_map app Nat.add]. rewrite macdAt_spike_last.
  rewrite app_nil_r. reflexivity.
Qed.

Lemma signal_zeros k n :
  fold_left (fun s m => m * k + s * (1 - k)) (repeat (0 - 0) n) (0 - 0) = 0.
Proof.
  induction n as [|n IH]; [cbn; ring|]. cbn [repeat fold_left].
  replace ((0 - 0) * k + (0 - 0) * (1 - k)) with (0 - 0) by ring. exact IH.
Qed.

Lemma spike_macd :
  exists m, Indicators.macd (repeat 0 49 ++ [1]) 12 26 9 = Some m
            /\ 0 < histogram m.
Proof.
  unfold Indicators.macd.
  replace (length (repeat 0 49 ++ [1])) with 50%nat by reflexivity.
  cbn [Nat.ltb Nat.leb Nat.add Nat.sub].
  rewrite !ema_spike by lia. cbv zeta.
  rewrite spike_macd_series.
  change (repeat (0 - 0) 24) with ((0 - 0) :: repeat (0 - 0) 23).
  cbn [app]. rewrite fold_left_app, signal_zeros. cbn [fold_left].
  eexists. split; [reflexivity|]. cbn [histogram]. inr_lit. lra.
Qed.

Lemma spike_trendBias : trendBiasOf spikeTf = 1.
Proof.
  unfold trendBiasOf. cbv zeta. rewrite spike_closes.
  rewrite (ema_spike 49 9), (ema_spike 49 21) by lia.
  change 50%nat with (49 + 1)%nat. rewrite ema_spike_full.
  destruct spike_macd as (m & Hm & Hh). rewrite Hm.
  unfold Technical.trendBias. inr_lit.
  replace (Js.gt (histogram m) 0) with true by (symmetry; apply gt_true; exact Hh).
  js_bool. reflexivity.
Qed.

Lemma spike_mrBias : mrBiasOf spikeTf = 0.
Proof. apply mrBiasOf_short. cbn. lia. Qed.


Lemma meanReversionBias_sides_witness :
  exists bb l r,
    Indicators.bollinger dipCloses 20 2 = Some bb
    /\ Js.last_opt dipCloses = Some l /\ Indicators.rsi dipCloses 14 = Some r
    /\ l < bbLower bb <= bbMiddle bb /\ 0 < r < 30.
Proof.
  apply (proj1 (meanReversionBias_sides dipCloses)).
  exact dip_meanReversionBias.
Defined.

Lemma analyzeMultiTimeframe_trend_decides_witness :
  tech_action (Technical.analyzeMultiTimeframe spikeTf) = BUY
  /\ 0.28 <= tech_confidence (Technical.analyzeMultiTimeframe spikeTf).
Proof.
  apply (proj1 (analyzeMultiTimeframe_trend_decides spikeTf)).
  - exact spike_trendBias.
  - rewrite spike_mrBias. lra.
Defined.


(* ================================================================== *)
(** * Sentiment fusion engine: ranges *)
(* ================================================================== *)

(** A clamped rounded value is an integer of the range. *)
Lemma clamp_round_integer x :
  exists z : Z, (0 <= z <= 100)%Z /\ Js.clamp (Js.round x) 0 100 = IZR z.
Proof.
  unfold Js.round. set (k := Js.floor (x + / 2)).
  exists (Z.min 100 (Z.max 0 k)). split; [lia|].
  unfold Js.clamp.
  destruct (Z.le_gt_cases k 0) as [H0|H0].
  - rewrite Z.max_l by lia. rewrite Z.min_r by lia.
    apply IZR_le in H0. rewrite Rmax_left by lra. rewrite Rmin_right by lra.
    reflexivity.
  - rewrite Z.max_r by lia. assert (0 <= IZR k) by (apply IZR_le; lia).
    rewrite Rmax_right by lra.
    destruct (Z.le_gt_cases k 100) as [H1|H1].
    + rewrite Z.min_r by lia. apply IZR_le in H1. rewrite Rmin_right by lra.
      reflexivity.
    + rewrite Z.min_l by lia. assert (100 <= IZR k) by (apply IZR_le; lia).
      rewrite Rmin_left by lra. reflexivity.
Qed.

Lemma round_integer_range x :
  0 <= x <= 100 -> exists z : Z, (0 <= z <= 100)%Z /\ Js.round x = IZR z.
Proof.
  intros Hx. unfold Js.round. exists (Js.floor (x + / 2)). split; [|reflexivity].
  unfold Js.floor. destruct (base_Int_part (x + / 2)) as [Hlo Hhi].
  split.
  - assert (H : IZR (-1) < IZR (Int_part (x + / 2))) by lra.
    apply lt_IZR in H. lia.
  - assert (H : IZR (Int_part (x + / 2)) < IZR 101) by lra.
    apply lt_IZR in H. lia.
Qed.



(* ================================================================== *)
(** * Orchestrator: weights, confidence, size and stops *)
(* ================================================================== *)

Lemma perfScore_range arr : 0 <= Orchestrator.perfScore arr <= 1.
Proof.
  unfold Orchestrator.perfScore. destruct arr as [|t arr]; [lra|].
  cbv zeta. set (x := _ + _). clearbody x. r_cases; lra.
Qed.

(** X16.  The performance weights of [computePerfWeights] are between 0
    and 1 and add up to 1, except when both strategy scores are 0, in
    which case both weights are 0. *)
Theorem computePerfWeights_normalized (trades : list Trade) :
  let w := Orchestrator.computePerfWeights trades in
  0 <= fst w <= 1 /\ 0 <= snd w <= 1
  /\ (fst w + snd w = 1 \/ (fst w = 0 /\ snd w = 0)).
Proof.
  cbv zeta. unfold Orchestrator.computePerfWeights. cbv zeta. cbn [fst snd].
  pose proof (perfScore_range (filter Orchestrator.isTechKey trades)) as Ht.
  pose proof (perfScore_range (filter Orchestrator.isSentimentKey trades)) as Hs.
  set (t := Orchestrator.perfScore (filter Orchestrator.isTechKey trades)) in *.
  set (s := Orchestrator.perfScore (filter Orchestrator.isSentimentKey trades)) in *.
  clearbody t s.
  destruct (Req_dec_T (t + s) 0) as [Hz|Hnz].
  - assert (t = 0) by lra. assert (s = 0) by lra. subst t s.
    unfold Js.or. replace (Js.truthy (0 + 0)) with false
      by (symmetry; apply truthy_false; lra).
    replace (0 / 1) with 0 by lra. repeat split; lra.
  - rewrite or_nonzero by exact Hnz.
    assert (Hpos : 0 < t + s) by lra.
    assert (Ht' : 0 <= t / (t + s) <= 1).
    { split.
      - apply Rmult_le_pos; [lra|apply Rlt_le, Rinv_0_lt_compat; lra].
      - apply Rmult_le_reg_r with (t + s); [lra|].
        replace (t / (t + s) * (t + s)) with t by (field; lra). lra. }
    assert (Hs' : 0 <= s / (t + s) <= 1).
    { split.
      - apply Rmult_le_pos; [lra|apply Rlt_le, Rinv_0_lt_compat; lra].
      - apply Rmult_le_reg_r with (t + s); [lra|].
        replace (s / (t + s) * (t + s)) with s by (field; lra). lra. }
    repeat split; try lra. left. field. lra.
Qed.

Lemma fuse_score_range social onchain market lastPrice :
  0 <= score (SentimentEngine.fuseSentiment social onchain market lastPrice) <= 100.
Proof.
  unfold SentimentEngine.fuseSentiment. cbv zeta. cbn [score].
  destruct (clamp_round_integer
              (let s := match social with Some s => s | None => SentimentEngine.emptySocial end in
               (0.35 * Js.nullish (twitterScore s) 0 + 0.2 * Js.nullish (telegramScore s) 0
                + 0.25 * Js.nullish (newsScore s) 0 + 0.2 * Js.nullish (trendsScore s) 0)
               * 50 + 50)) as (a & [Ha0 Ha1] & Ha).
  change (Js.clamp _ 0 100) with (SentimentEngine.scoreSocial social) in Ha.
  assert (Ho : exists z : Z, (0 <= z <= 100)%Z
                 /\ SentimentEngine.scoreOnChain onchain = IZR z)
    by apply clamp_round_integer.
  assert (Hm : exists z : Z, (0 <= z <= 100)%Z
                 /\ SentimentEngine.scoreMarketStructure market lastPrice = IZR z)
    by apply clamp_round_integer.
  destruct Ho as (b & [Hb0 Hb1] & ->), Hm as (c & [Hc0 Hc1] & ->). rewrite Ha.
  apply IZR_le in Ha0, Ha1, Hb0, Hb1, Hc0, Hc1.
  destruct (round_integer_range (0.45 * IZR a + 0.35 * IZR b + 0.2 * IZR c)
              ltac:(lra)) as (z & [Hz0 Hz1] & ->).
  apply IZR_le in Hz0, Hz1. lra.
Qed.

Lemma tech_confidence_range tf :
  0 <= tech_confidence (Technical.analyzeMultiTimeframe tf) <= 0.73.
Proof.
  rewrite analyze_confidence.
  pose proof (blendedBias_bound tf) as Hb.
  pose proof (Rabs_pos (blendedBias tf)) as Hp.
  rewrite Rmin_right by lra.
  pose proof (toFixed2_between 0 73 (Rabs (blendedBias tf)) Hp ltac:(lra)) as H.
  lra.
Qed.

(** The fused value of [localSignal] in absolute value. *)
Lemma fused_bound (tb ts tw sw sb : R) :
  -1 <= tb <= 1 -> 0 <= ts <= 0.73 -> 0.2 <= tw <= 0.8 -> 0.2 <= sw <= 0.8 ->
  -1 <= sb <= 1 ->
  Rabs ((tb * ts) * (tw / Js.or (tw + sw) 1) + sb * (sw / Js.or (tw + sw) 1))
  <= 0.946.
Proof.
  intros Htb Hts Htw Hsw Hsb.
  rewrite or_nonzero by lra.
  assert (Hn : 0 < tw + sw) by lra.
  set (a := tw / (tw + sw)). set (b := sw / (tw + sw)).
  assert (Hab : a + b = 1) by (unfold a, b; field; lra).
  assert (Ha : 0 <= a).
  { unfold a. apply Rmult_le_pos; [lra|apply Rlt_le, Rinv_0_lt_compat; lra]. }
  assert (Hb : 0 <= b <= 0.8).
  { split.
    - unfold b. apply Rmult_le_pos; [lra|apply Rlt_le, Rinv_0_lt_compat; lra].
    - apply Rmult_le_reg_r with (tw + sw); [lra|].
      replace (b * (tw + sw)) with sw by (unfold b; field; lra). lra. }
  clearbody a b.
  assert (Hx : -0.73 <= tb * ts <= 0.73) by (split; nra).
  set (x := tb * ts) in *. clearbody x.
  assert (-0.73 * a <= x * a <= 0.73 * a) by (split; nra).
  assert (- b <= sb * b <= b) by (split; nra).
  unfold Rabs. destruct (Rcase_abs _); lra.
Qed.

Lemma techStrength_range inp :
  0 <= Js.or (tech_confidence (Orchestrator.techOf inp)) 0.5 <= 0.73.
Proof.
  unfold Orchestrator.techOf.
  match goal with |- context [Technical.analyzeMultiTimeframe ?tf] =>
    pose proof (tech_confidence_range tf) as H;
    set (c := tech_confidence (Technical.analyzeMultiTimeframe tf)) in *
  end.
  clearbody c. unfold Js.or. destruct (Js.truthy c); lra.
Qed.

Lemma localSignal_confidence inp :
  0 <= snd (Orchestrator.localSignal inp) <= 0.946.
Proof.
  unfold Orchestrator.localSignal. cbv zeta. cbn [snd].
  match goal with |- context [Rabs ?f] =>
    assert (Hf : Rabs f <= 0.946); [|pose proof (Rabs_pos f) as Hp] end.
  { apply fused_bound.
    - destruct (tech_action (Orchestrator.techOf inp)); lra.
    - apply techStrength_range.
    - r_cases; lra.
    - r_cases; lra.
    - unfold Orchestrator.sentimentOf. cbv zeta.
      match goal with |- context [SentimentEngine.fuseSentiment ?a ?b ?c ?d] =>
        pose proof (fuse_score_range a b c d) as Hs end.
      lra. }
  rewrite Rmin_right by lra. lra.
Qed.

(** X17.  The locally computed confidence is between 0 and 0.946 for
    every input: the cap 0.99 of the fusion step is never reached. *)
Theorem localSignal_confidence_range (inp : Input) :
  let conf := snd (Orchestrator.localSignal inp) in
  0 <= conf /\ conf <= 0.946 /\ conf < 0.99.
Proof.
  cbv zeta. pose proof (localSignal_confidence inp) as [H0 H1].
  repeat split; lra.
Qed.

(* ------------------------------------------------------------------ *)
(** ** What an emitted decision carries *)

(** Every way out of [decideTrade] through the final [return]. *)
Lemma decideTrade_emit_cases (risk : RiskConfig) inp adv d :
  Orchestrator.decideTrade risk inp adv = Emit d ->
  exists act conf,
    Orchestrator.emit risk inp act conf (Orchestrator.localSizeUsd risk inp) adv
    = Emit d
    /\ snd (Orchestrator.localSignal inp) <= conf
    /\ (conf = snd (Orchestrator.localSignal inp)
        \/ exists l, adv = Some (Sanitized l) /\ conf = llm_confidence l).
Proof.
  unfold Orchestrator.decideTrade. cbv zeta.
  destruct (RiskManager.shouldHaltTrading _ _ _ _); [discriminate|].
  assert (Hloc : forall a,
            Orchestrator.emit risk inp (fst (Orchestrator.localSignal inp))
              (snd (Orchestrator.localSignal inp))
              (Orchestrator.localSizeUsd risk inp) a = Emit d ->
            exists act conf,
              Orchestrator.emit risk inp act conf
                (Orchestrator.localSizeUsd risk inp) a = Emit d
              /\ snd (Orchestrator.localSignal inp) <= conf
              /\ (conf = snd (Orchestrator.localSignal inp)
                  \/ exists l, a = Some (Sanitized l) /\ conf = llm_confidence l)).
  { intros a H. do 2 eexists. split; [exact H|]. split; [lra|]. left. reflexivity. }
  destruct adv as [[l|]|]; try (apply Hloc).
  destruct (Orchestrator.accepts _ _ _); try (apply Hloc).
  assert (Hov : Orchestrator.emit risk inp (Orchestrator.lowerAction (llm_action l))
              (Rmax (snd (Orchestrator.localSignal inp)) (Js.or (llm_confidence l) 0))
              (Orchestrator.localSizeUsd risk inp) (Some (Sanitized l)) = Emit d ->
            exists act conf,
              Orchestrator.emit risk inp act conf
                (Orchestrator.localSizeUsd risk inp) (Some (Sanitized l)) = Emit d
              /\ snd (Orchestrator.localSignal inp) <= conf
              /\ (conf = snd (Orchestrator.localSignal inp)
                  \/ exists l', Some (Sanitized l) = Some (Sanitized l')
                                /\ conf = llm_confidence l')).
  { intros H. do 2 eexists. split; [exact H|]. rewrite or_zero.
    split; [apply Rmax_l|].
    unfold Rmax. destruct (Rle_dec _ _); [right; exists l; auto|left; reflexivity]. }
  destruct (Js.truthy _); try (apply Hov).
  destruct (Js.gt _ _); [discriminate|apply Hov].
Qed.

Lemma cap_nonneg risk x : 0 <= RiskManager.capOrderSizeUsd risk x.
Proof. unfold RiskManager.capOrderSizeUsd. cbv zeta. r_cases; lra. Qed.

Lemma cap_le_max risk x :
  0 <= maxPositionUsd risk -> RiskManager.capOrderSizeUsd risk x <= maxPositionUsd risk.
Proof. intros H. unfold RiskManager.capOrderSizeUsd. cbv zeta. r_cases; lra. Qed.

Lemma cap_le_arg risk x : 0 <= x -> RiskManager.capOrderSizeUsd risk x <= x.
Proof. intros H. unfold RiskManager.capOrderSizeUsd. cbv zeta. r_cases; lra. Qed.

Lemma atr1Of_nonneg inp : 0 <= Orchestrator.atr1Of inp.
Proof.
  unfold Orchestrator.atr1Of, Orchestrator.techOf.
  match goal with |- context [Technical.analyzeMultiTimeframe ?tf] =>
    change (ctx_atr1h (tech_context (Technical.analyzeMultiTimeframe tf)))
      with (Indicators.atr (match candles1h tf with Some l => l | None => [] end) 14)
  end.
  match goal with |- context [Indicators.atr ?cs 14] =>
    destruct (Indicators.atr cs 14) as [a|] eqn:E;
      [pose proof (atr_nonneg cs 14 a ltac:(lia) E) as Ha|cbn; lra]
  end.
  cbn [Js.or_opt]. unfold Js.or. destruct (Js.truthy a); lra.
Qed.

Lemma atrPctOf_nonneg inp :
  0 <= Orchestrator.lastClose inp -> 0 <= Orchestrator.atrPctOf inp.
Proof.
  intros Hl. unfold Orchestrator.atrPctOf. pose proof (atr1Of_nonneg inp) as Ha.
  destruct (Js.truthy (Orchestrator.atr1Of inp)
            && Js.truthy (Orchestrator.lastClose inp)) eqn:E; [|lra].
  apply andb_true_iff in E. destruct E as [_ E]. apply truthy_true in E.
  apply Rmult_le_pos; [lra|apply Rlt_le, Rinv_0_lt_compat; lra].
Qed.

(** X18.  The size of every emitted decision is the locally computed,
    capped size: an advisory reply never changes it.  It is never
    negative, never above a non-negative configured maximum and, for a
    non-negative equity and last close, never above 10% of the equity. *)
Theorem decideTrade_emitted_size
        (risk : RiskConfig) (inp : Input) (adv : option Advisory)
        (d : TradeDecision) :
  Orchestrator.decideTrade risk inp adv = Emit d ->
  sizeUsd d = Orchestrator.localSizeUsd risk inp
  /\ 0 <= sizeUsd d
  /\ (0 <= maxPositionUsd risk -> sizeUsd d <= maxPositionUsd risk)
  /\ (0 <= Orchestrator.accountEquityUsd inp -> 0 <= Orchestrator.lastClose inp ->
      sizeUsd d <= Orchestrator.accountEquityUsd inp / 10).
Proof.
  intros H. destruct (decideTrade_emit_cases risk inp adv d H)
    as (act & conf & He & _).
  unfold Orchestrator.emit in He. injection He as <-. cbn [sizeUsd].
  split; [reflexivity|]. unfold Orchestrator.localSizeUsd.
  split; [apply cap_nonneg|]. split; [apply cap_le_max|].
  intros Heq Hlc.
  pose proof (atrPctOf_nonneg inp Hlc) as Hatr.
  set (e := Orchestrator.accountEquityUsd inp) in *.
  set (c := snd (Orchestrator.localSignal inp)).
  set (p := Orchestrator.atrPctOf inp) in *. clearbody e c p.
  assert (Hps : 0 <= RiskManager.positionSizeUsd e c p 0.02 <= e / 10).
  { unfold RiskManager.positionSizeUsd. cbv zeta.
    pose proof (kelly_bounds c 1.5) as Hk.
    set (k := RiskManager.kellyFraction c 1.5) in *. clearbody k.
    assert (Hv : 0.25 <= Rmax 0.25 (1 - p / 0.04) <= 1) by (r_cases; lra).
    set (v := Rmax 0.25 (1 - p / 0.04)) in *. clearbody v.
    assert (Hmin : 0 <= Rmin 0.02 k <= 0.02) by (r_cases; lra).
    set (m := Rmin 0.02 k) in *. clearbody m.
    assert (0 <= e * m) by (apply Rmult_le_pos; lra).
    assert (e * m <= e * 0.02) by (apply Rmult_le_compat_l; lra).
    split; nra. }
  eapply Rle_trans; [apply cap_le_arg; lra|lra].
Qed.

Lemma decideTrade_emitted_size_witness :
  exists d, Orchestrator.decideTrade defaultRisk emptyInput None = Emit d
            /\ 0 <= sizeUsd d <= 5000 /\ sizeUsd d <= 10000 / 10.
Proof.
  eexists. split; [apply decideTrade_empty_no_advice|].
  pose proof (decideTrade_emitted_size defaultRisk emptyInput None _
                decideTrade_empty_no_advice) as (_ & H0 & Hmax & Heq).
  split; [split; [exact H0|apply Hmax; cbn; lra]|].
  apply Heq; cbn; lra.
Defined.

Lemma localSignal_tech_hold inp :
  tech_action (Orchestrator.techOf inp) = HOLD ->
  snd (Orchestrator.localSignal inp)
  <= 0.8 * Rabs ((score (Orchestrator.sentimentOf inp) - 50) / 50).
Proof.
  intros Hh. unfold Orchestrator.localSignal. cbv zeta. cbn [snd]. rewrite Hh.
  set (sb := (score (Orchestrator.sentimentOf inp) - 50) / 50).
  match goal with |- context [sb * (?sw / Js.or (?tw + ?sw) 1)] =>
    assert (Htw : 0.2 <= tw <= 0.8) by (r_cases; lra);
    assert (Hsw : 0.2 <= sw <= 0.8) by (r_cases; lra);
    set (TW := tw) in *; set (SW := sw) in *
  end.
  clearbody TW SW sb. rewrite (or_nonzero (TW + SW)) by lra.
  assert (Hb : 0 <= SW / (TW + SW) <= 0.8).
  { split.
    - apply Rmult_le_pos; [lra|apply Rlt_le, Rinv_0_lt_compat; lra].
    - apply Rmult_le_reg_r with (TW + SW); [lra|].
      replace (SW / (TW + SW) * (TW + SW)) with SW by (field; lra). lra. }
  set (b := SW / (TW + SW)) in *. clearbody b.
  eapply Rle_trans; [apply Rmin_r|].
  replace (0 * Js.or (tech_confidence (Orchestrator.techOf inp)) 0.5
           * (TW / (TW + SW)) + sb * b) with (sb * b) by ring.
  rewrite Rabs_mult, (Rabs_right b) by lra.
  pose proof (Rabs_pos sb). nra.
Qed.

(** Up to the Kelly break-even the local size is 0 (over [R], as
    [kelly_zero_below]). *)
Lemma localSizeUsd_zero (risk : RiskConfig) inp :
  snd (Orchestrator.localSignal inp) <= 0.4 ->
  Orchestrator.localSizeUsd risk inp = 0.
Proof.
  intros Hc.
  unfold Orchestrator.localSizeUsd, RiskManager.positionSizeUsd. cbv zeta.
  rewrite (kelly_zero_below _ Hc). rewrite (Rmin_right 0.02 0) by lra.
  rewrite Rmult_0_r, !Rmult_0_l.
  unfold RiskManager.capOrderSizeUsd. cbv zeta. r_cases; lra.
Qed.

(** X19.  Sizing looks at the local confidence only: whenever the local
    confidence is strictly below 0.4, the Kelly break-even, the emitted
    size is 0, even if an accepted advisory reply raised the emitted
    confidence.  In particular sentiment alone opens a position only at
    the extremes: with a technical signal of HOLD and a sentiment score
    between 25 and 75, every emitted decision has size 0. *)
Theorem decideTrade_no_size_below_breakeven
        (risk : RiskConfig) (inp : Input) (adv : option Advisory)
        (d : TradeDecision) :
  Orchestrator.decideTrade risk inp adv = Emit d ->
  (snd (Orchestrator.localSignal inp) < 0.4 -> sizeUsd d = 0)
  /\ (tech_action (Orchestrator.techOf inp) = HOLD ->
      25 <= score (Orchestrator.sentimentOf inp) <= 75 ->
      sizeUsd d = 0).
Proof.
  intros H. destruct (decideTrade_emit_cases risk inp adv d H)
    as (act & conf & He & _).
  unfold Orchestrator.emit in He. injection He as <-. cbn [sizeUsd].
  split; [intros Hc; apply localSizeUsd_zero; lra|].
  intros Hh Hs. apply localSizeUsd_zero.
  eapply Rle_trans; [apply (localSignal_tech_hold inp Hh)|].
  set (sc := score (Orchestrator.sentimentOf inp)) in *. clearbody sc.
  assert (Rabs ((sc - 50) / 50) <= 0.5)
    by (unfold Rabs; destruct (Rcase_abs _); lra).
  lra.
Qed.

Lemma decideTrade_no_size_below_breakeven_witness :
  exists d, Orchestrator.decideTrade defaultRisk emptyInput None = Emit d
            /\ snd (Orchestrator.localSignal emptyInput) < 0.4
            /\ tech_action (Orchestrator.techOf emptyInput) = HOLD
            /\ sizeUsd d = 0.
Proof.
  eexists. split; [apply decideTrade_empty_no_advice|].
  assert (Hc : snd (Orchestrator.localSignal emptyInput) < 0.4)
    by (rewrite localSignal_empty; cbn; lra).
  split; [exact Hc|].
  split; [rewrite techOf_empty; apply tech_noCandles_action|].
  apply (proj1 (decideTrade_no_size_below_breakeven defaultRisk emptyInput None _
                  decideTrade_empty_no_advice)).
  exact Hc.
Defined.

(** X20.  The emitted confidence is never below the local confidence and
    never negative, and it is at most 1 whenever the advisory reply, if
    there is one, has a confidence of at most 1. *)
Theorem decideTrade_emitted_confidence
        (risk : RiskConfig) (inp : Input) (adv : option Advisory)
        (d : TradeDecision) :
  Orchestrator.decideTrade risk inp adv = Emit d ->
  snd (Orchestrator.localSignal inp) <= confidence d
  /\ 0 <= confidence d
  /\ ((forall l, adv = Some (Sanitized l) -> llm_confidence l <= 1) ->
      confidence d <= 1).
Proof.
  intros H. destruct (decideTrade_emit_cases risk inp adv d H)
    as (act & conf & He & Hge & Hcase).
  unfold Orchestrator.emit in He. injection He as <-. cbn [confidence].
  pose proof (localSignal_confidence inp) as [H0 H1].
  split; [exact Hge|]. split; [lra|].
  intros Hadv. destruct Hcase as [->|(l & Hl & ->)]; [lra|].
  apply Hadv. exact Hl.
Qed.

Lemma decideTrade_emitted_confidence_witness :
  exists d, Orchestrator.decideTrade defaultRisk emptyInput None = Emit d
            /\ 0 <= confidence d <= 1.
Proof.
  eexists. split; [apply decideTrade_empty_no_advice|].
  pose proof (decideTrade_emitted_confidence defaultRisk emptyInput None _
                decideTrade_empty_no_advice) as (_ & H0 & H1).
  split; [exact H0|]. apply H1. intros l Hl. discriminate Hl.
Defined.

(** X21.  An absent, malformed or rejected advisory reply never blocks
    or alters the decision: with the gate open, [decideTrade] emits the
    local action, confidence and size, and attaches the reply as it
    came. *)
Theorem decideTrade_without_accepted_advice
        (risk : RiskConfig) (inp : Input) (adv : option Advisory) :
  maxDailyLossUsd risk <> 0 ->
  (forall l, adv = Some (Sanitized l) ->
     Orchestrator.accepts (fst (Orchestrator.localSignal inp))
                          (snd (Orchestrator.localSignal inp)) l = false) ->
  exists d,
    Orchestrator.decideTrade risk inp adv = Emit d
    /\ action d = fst (Orchestrator.localSignal inp)
    /\ confidence d = snd (Orchestrator.localSignal inp)
    /\ sizeUsd d = Orchestrator.localSizeUsd risk inp
    /\ llmDecision d = adv.
Proof.
  intros Hgate Hrej. unfold Orchestrator.decideTrade. cbv zeta.
  rewrite (gate_open risk Hgate).
  destruct adv as [[l|]|].
  - rewrite (Hrej l eq_refl). eexists. split; [reflexivity|]. cbn. auto.
  - eexists. split; [reflexivity|]. cbn. auto.
  - eexists. split; [reflexivity|]. cbn. auto.
Qed.

Lemma decideTrade_without_accepted_advice_witness :
  exists d,
    Orchestrator.decideTrade defaultRisk emptyInput (Some RawText) = Emit d
    /\ action d = fst (Orchestrator.localSignal emptyInput)
    /\ confidence d = snd (Orchestrator.localSignal emptyInput)
    /\ sizeUsd d = Orchestrator.localSizeUsd defaultRisk emptyInput
    /\ llmDecision d = Some RawText.
Proof.
  apply (decideTrade_without_accepted_advice defaultRisk emptyInput (Some RawText)).
  - cbn. lra.
  - intros l H. discriminate.
Defined.

(** X22.  The stops of every emitted decision are on the right side of a
    positive last close, for positive configured basis points: above
    and below for a sell, below and above for a buy or a hold. *)
Theorem decideTrade_emitted_stops_side
        (risk : RiskConfig) (inp : Input) (adv : option Advisory)
        (d : TradeDecision) :
  Orchestrator.decideTrade risk inp adv = Emit d ->
  0 < Orchestrator.lastClose inp ->
  0 < stopLossBps risk -> 0 < takeProfitBps risk ->
  (action d = sell ->
   takeProfit (stops d) < Orchestrator.lastClose inp < stopLoss (stops d))
  /\ (action d <> sell ->
      stopLoss (stops d) < Orchestrator.lastClose inp < takeProfit (stops d)).
Proof.
  intros H Hl Hsl Htp. destruct (decideTrade_emit_cases risk inp adv d H)
    as (act & conf & He & _).
  unfold Orchestrator.emit in He. injection He as <-. cbn [action stops].
  rewrite or_zero. pose proof (atr1Of_nonneg inp) as Ha.
  set (p := Orchestrator.lastClose inp) in *.
  set (a := Orchestrator.atr1Of inp) in *. clearbody p a.
  assert (Hs1 : 0 < p * (stopLossBps risk / 10000)) by
    (apply Rmult_lt_0_compat; lra).
  assert (Hs2 : 0 < p * (takeProfitBps risk / 10000)) by
    (apply Rmult_lt_0_compat; lra).
  unfold RiskManager.computeStops, RiskManager.bps. cbv zeta.
  cbn [Js.truthy_opt Js.nullish].
  replace (Js.truthy p) with true by (symmetry; apply truthy_true; lra).
  rewrite andb_true_r.
  destruct (Js.truthy a) eqn:Et.
  - apply truthy_true in Et. assert (0 < a) by lra.
    split; intros Hact; destruct act; try congruence;
      cbn [stopLoss takeProfit]; lra.
  - split; intros Hact; destruct act; try congruence;
      cbn [stopLoss takeProfit]; lra.
Qed.


(** With a technical HOLD and a sentiment score between 45 and 55 the
    local action is hold. *)
Lemma localSignal_quiet inp :
  tech_action (Orchestrator.techOf inp) = HOLD ->
  45 <= score (Orchestrator.sentimentOf inp) <= 55 ->
  fst (Orchestrator.localSignal inp) = hold.
Proof.
  intros Hh Hs. unfold Orchestrator.localSignal. cbv zeta. cbn [fst]. rewrite Hh.
  set (sb := (score (Orchestrator.sentimentOf inp) - 50) / 50).
  assert (Hsb : -0.1 <= sb <= 0.1) by (unfold sb; lra).
  match goal with |- context [sb * (?sw / Js.or (?tw + ?sw) 1)] =>
    assert (Htw : 0.2 <= tw <= 0.8) by (r_cases; lra);
    assert (Hsw : 0.2 <= sw <= 0.8) by (r_cases; lra);
    set (TW := tw) in *; set (SW := sw) in *
  end.
  clearbody TW SW sb. rewrite (or_nonzero (TW + SW)) by lra.
  assert (Hb : 0 <= SW / (TW + SW) <= 0.8).
  { split.
    - apply Rmult_le_pos; [lra|apply Rlt_le, Rinv_0_lt_compat; lra].
    - apply Rmult_le_reg_r with (TW + SW); [lra|].
      replace (SW / (TW + SW) * (TW + SW)) with SW by (field; lra). lra. }
  set (b := SW / (TW + SW)) in *. clearbody b.
  replace (0 * Js.or (tech_confidence (Orchestrator.techOf inp)) 0.5
           * (TW / (TW + SW)) + sb * b) with (sb * b) by ring.
  assert (Hf : -0.08 <= sb * b <= 0.08) by (split; nra).
  replace (Js.gt 0 0) with false by (symmetry; apply gt_false; lra).
  replace (Js.lt 0 0) with false by (symmetry; apply lt_false; lra).
  cbn [andb orb].
  replace (Js.gt (sb * b) 0.1) with false by (symmetry; apply gt_false; lra).
  replace (Js.lt (sb * b) (-0.1)) with false by (symmetry; apply lt_false; lra).
  reflexivity.
Qed.

Lemma lastClose_oneCandle : Orchestrator.lastClose oneCandleInput = 100.
Proof.
  unfold Orchestrator.lastClose, Orchestrator.lastCloseOf, oneCandleInput.
  cbn [multiTf candles Js.or_opt Js.last_opt length Nat.sub nth_error option_map
       flatCandle c_close].
  rewrite or_zero. reflexivity.
Qed.

Lemma techOf_oneCandle_hold :
  tech_action (Orchestrator.techOf oneCandleInput) = HOLD.
Proof.
  unfold Orchestrator.techOf, oneCandleInput. cbn [multiTf candles].
  apply analyze_no_bias.
  - apply mrBiasOf_short. cbn. lia.
  - apply trendBiasOf_short. cbn. lia.
Qed.

Lemma sentimentOf_oneCandle :
  score (Orchestrator.sentimentOf oneCandleInput) = 49.
Proof.
  unfold Orchestrator.sentimentOf. cbv zeta. cbn [events oneCandleInput].
  rewrite fuseSentiment_default. reflexivity.
Qed.

Lemma decideTrade_oneCandle :
  exists d, Orchestrator.decideTrade defaultRisk oneCandleInput None = Emit d
            /\ action d = hold.
Proof.
  unfold Orchestrator.decideTrade. cbv zeta.
  rewrite gate_open by (cbn; lra).
  eexists. split; [reflexivity|]. cbn [action].
  apply localSignal_quiet.
  - exact techOf_oneCandle_hold.
  - rewrite sentimentOf_oneCandle. lra.
Qed.

Lemma decideTrade_emitted_stops_side_witness :
  exists d, Orchestrator.decideTrade defaultRisk oneCandleInput None = Emit d
            /\ stopLoss (stops d) < 100 < takeProfit (stops d).
Proof.
  destruct decideTrade_oneCandle as (d & Hd & Hact).
  exists d. split; [exact Hd|].
  rewrite <- lastClose_oneCandle.
  apply (proj2 (decideTrade_emitted_stops_side defaultRisk oneCandleInput None d Hd
                  ltac:(rewrite lastClose_oneCandle; lra)
                  ltac:(cbn; lra) ltac:(cbn; lra))).
  rewrite Hact. discriminate.
Defined.

(* ------------------------------------------------------------------ *)
(** ** Stops of a hold decision *)

Lemma lastClose_hour : Orchestrator.lastClose hourInput = 100.
Proof.
  apply (lastClose_1h hourInput
           {| candles5m := None; candles1h := Some [flatCandle 100];
              candles4h := None |} [flatCandle 100] (flatCandle 100));
    try reflexivity.
  cbn [flatCandle c_close]. lra.
Qed.

Lemma techOf_hour_hold : tech_action (Orchestrator.techOf hourInput) = HOLD.
Proof.
  unfold Orchestrator.techOf, hourInput. cbn [multiTf].
  apply analyze_no_bias.
  - apply mrBiasOf_short. cbn. lia.
  - apply trendBiasOf_short. cbn. lia.
Qed.

Lemma sentimentOf_hour : score (Orchestrator.sentimentOf hourInput) = 49.
Proof.
  unfold Orchestrator.sentimentOf. cbv zeta. cbn [events hourInput].
  rewrite fuseSentiment_default. reflexivity.
Qed.

Lemma atr1Of_hour : Orchestrator.atr1Of hourInput = 0.
Proof. reflexivity. Qed.

(** The single 1-hour candle at 100 is answered with a hold. *)
Lemma decideTrade_hour :
  exists d, Orchestrator.decideTrade defaultRisk hourInput None = Emit d
            /\ action d = hold.
Proof.
  unfold Orchestrator.decideTrade. cbv zeta.
  rewrite gate_open by (cbn; lra).
  eexists. split; [reflexivity|]. cbn [action].
  apply localSignal_quiet.
  - exact techOf_hour_hold.
  - rewrite sentimentOf_hour. lra.
Qed.

(** C9, as the source has it.  A hold comes out of [decideTrade] in
    two ways.  When the gate fires (the configured daily loss limit is
    0) the result is the record of the gate, a hold that carries no
    stops.  When the gate is open and the advisory overlay does not run
    into its assignment to [sizeUsd], [decideTrade] returns its full
    decision record, and whenever the action of that record is hold its
    stops are the buy-side stops of [computeStops] at the last close
    (the last 1-hour close, see [lastClose_1h]) and the 1-hour ATR. *)
Theorem decideTrade_hold_has_buy_stops
        (risk : RiskConfig) (inp : Input) (adv : option Advisory) :
  (maxDailyLossUsd risk = 0 ->
   outcomeAction (Orchestrator.decideTrade risk inp adv) = Some hold
   /\ outcomeStops (Orchestrator.decideTrade risk inp adv) = None)
  /\ (maxDailyLossUsd risk <> 0 ->
      (forall l, adv = Some (Sanitized l) -> overlayAssigns risk inp l = false) ->
      exists d,
        Orchestrator.decideTrade risk inp adv = Emit d
        /\ (action d = hold ->
            stops d = RiskManager.computeStops risk (Orchestrator.lastClose inp)
                        SideBuy (Some (Orchestrator.atr1Of inp)))).
Proof.
  split.
  - intros Hz. apply decideTrade_halts_iff with (inp := inp) (adv := adv) in Hz.
    rewrite Hz. split; reflexivity.
  - intros Hgate Hover. unfold Orchestrator.decideTrade. cbv zeta.
    rewrite (gate_open risk Hgate).
    assert (Hemit : forall act conf size a,
              exists d,
                Orchestrator.emit risk inp act conf size a = Emit d
                /\ (action d = hold ->
                    stops d = RiskManager.computeStops risk
                                (Orchestrator.lastClose inp) SideBuy
                                (Some (Orchestrator.atr1Of inp)))).
    { intros act conf size a. eexists. split; [reflexivity|].
      cbn [action stops]. intros ->. rewrite or_zero. reflexivity. }
    destruct adv as [[l|]|]; try (apply Hemit).
    specialize (Hover l eq_refl). unfold overlayAssigns in Hover.
    destruct (Orchestrator.accepts _ _ l); [|apply Hemit].
    destruct (Js.truthy (positionSizePct l)); [|apply Hemit].
    cbn [andb] in Hover. rewrite Hover. apply Hemit.
Qed.

Lemma decideTrade_hold_has_buy_stops_witness :
  outcomeStops (Orchestrator.decideTrade zeroLossLimitRisk hourInput None) = None
  /\ exists d,
       Orchestrator.decideTrade defaultRisk hourInput None = Emit d
       /\ action d = hold
       /\ stops d = {| stopLoss := 99; takeProfit := 102 |}.
Proof.
  split.
  - apply (proj1 (decideTrade_hold_has_buy_stops zeroLossLimitRisk hourInput None)).
    reflexivity.
  - destruct (proj2 (decideTrade_hold_has_buy_stops defaultRisk hourInput None))
      as (d & Hd & Hstops).
    + cbn. lra.
    + intros l Hl. discriminate Hl.
    + destruct decideTrade_hour as (d' & Hd' & Hact).
      rewrite Hd in Hd'. injection Hd' as <-.
      exists d. split; [exact Hd|]. split; [exact Hact|].
      rewrite (Hstops Hact), lastClose_hour, atr1Of_hour.
      unfold RiskManager.computeStops, RiskManager.bps. cbv zeta.
      cbn [Js.truthy_opt Js.nullish defaultRisk stopLossBps takeProfitBps].
      replace (Js.truthy 0) with false by (symmetry; apply truthy_false; reflexivity).
      cbn [andb]. f_equal; lra.
Defined.

(** C9 as stated fails at the gate: with a daily loss limit of 0 the
    result is a hold, and it carries no stops at all. *)
Lemma decideTrade_halt_is_hold_without_stops :
  outcomeAction (Orchestrator.decideTrade zeroLossLimitRisk hourInput None)
  = Some hold
  /\ outcomeStops (Orchestrator.decideTrade zeroLossLimitRisk hourInput None)
     <> Some (RiskManager.computeStops zeroLossLimitRisk
                (Orchestrator.lastClose hourInput) SideBuy
                (Some (Orchestrator.atr1Of hourInput))).
Proof.
  assert (H : Orchestrator.decideTrade zeroLossLimitRisk hourInput None = RiskHalt)
    by (apply decideTrade_halts_iff; reflexivity).
  rewrite H. split; [reflexivity|discriminate].
Qed.


(* ================================================================== *)
(** * Risk manager: portfolio analysis *)
(* ================================================================== *)

Lemma fold_max_ge l x : x <= fold_left Rmax l x.
Proof.
  revert x. induction l as [|y l IH]; intros x; cbn [fold_left]; [lra|].
  eapply Rle_trans; [apply (Rmax_l x y)|apply IH].
Qed.

Lemma fold_max_in l x y : In y l -> y <= fold_left Rmax l x.
Proof.
  revert x. induction l as [|z l IH]; intros x Hin; [contradiction|].
  cbn [fold_left]. destruct Hin as [->|Hin].
  - eapply Rle_trans; [apply (Rmax_r x y)|apply fold_max_ge].
  - apply IH. exact Hin.
Qed.

Lemma maxOf_ge l y : In y l -> y <= Indicators.maxOf l.
Proof.
  destruct l as [|x l]; [contradiction|]. cbn [Indicators.maxOf].
  intros [->|Hin]; [apply fold_max_ge|apply fold_max_in; exact Hin].
Qed.

(** For non-negative entries the sum of squares is at most the square
    of the sum. *)
Lemma sumSq_le_sq_sum l :
  Forall (fun v => 0 <= v) l ->
  RiskManager.sumSq l <= Js.sum l * Js.sum l.
Proof.
  induction 1 as [|x l Hx Hl IH]; [cbn; lra|].
  rewrite sumSq_cons, sum_cons. pose proof (sum_nonneg l Hl). nra.
Qed.

Section Portfolio.
Context {Symbol : Type}.
Implicit Types (h : PortfolioRisk.PriceHistory Symbol)
               (positions : PortfolioRisk.PositionsObj Symbol).

Lemma pairCorrelation_short h s1 s2 :
  (length (PortfolioRisk.historyOf Symbol h s1) < 10)%nat
  \/ (length (PortfolioRisk.historyOf Symbol h s2) < 10)%nat ->
  PortfolioRisk.pairCorrelation Symbol h s1 s2 = [].
Proof.
  intros H. unfold PortfolioRisk.pairCorrelation. cbv zeta.
  destruct H as [H|H].
  - replace (Nat.leb 10 (length (PortfolioRisk.historyOf Symbol h s1))) with false
      by (symmetry; apply Nat.leb_gt; exact H).
    reflexivity.
  - replace (Nat.leb 10 (length (PortfolioRisk.historyOf Symbol h s2))) with false
      by (symmetry; apply Nat.leb_gt; exact H).
    rewrite andb_false_r. reflexivity.
Qed.

Lemma pairCorrelations_short h symbols :
  (forall s, In s symbols ->
             (length (PortfolioRisk.historyOf Symbol h s) < 10)%nat) ->
  PortfolioRisk.pairCorrelations Symbol h symbols = [].
Proof.
  induction symbols as [|s rest IH]; intros H; [reflexivity|].
  cbn [PortfolioRisk.pairCorrelations].
  rewrite IH by (intros s' Hs'; apply H; right; exact Hs').
  rewrite app_nil_r.
  assert (Hs : (length (PortfolioRisk.historyOf Symbol h s) < 10)%nat)
    by (apply H; left; reflexivity).
  clear IH H. induction rest as [|s2 rest IH]; [reflexivity|].
  cbn [flat_map]. rewrite pairCorrelation_short by (left; exact Hs).
  exact IH.
Qed.

(** X23.  [analyzePortfolioCorrelation] reports no correlation at all,
    an average and a maximum of 0, in two situations: with fewer than
    two positions (where the concentration is reported as 0 too), and
    when no position has a history of 10 points, however many positions
    there are.  In the second the correlation-breakdown flag of
    [advancedRiskCheck] stays down. *)
Theorem analyzePortfolioCorrelation_short_histories positions h :
  let st := PortfolioRisk.analyzePortfolioCorrelation Symbol positions h in
  ((length positions < 2)%nat ->
   avgCorrelation st = 0 /\ maxCorrelation st = 0
   /\ riskConcentration st = Some 0)
  /\ ((forall s, In s (map fst positions) ->
                 (length (PortfolioRisk.historyOf Symbol h s) < 10)%nat) ->
      avgCorrelation st = 0 /\ maxCorrelation st = 0
      /\ forall dd vm,
           correlationBreakdown
             (riskFlags (PortfolioRisk.advancedRiskCheck Symbol positions h dd vm))
           = false).
Proof.
  cbv zeta. split.
  - intros Hlen. unfold PortfolioRisk.analyzePortfolioCorrelation.
    replace (Nat.ltb (length (map fst positions)) 2) with true
      by (symmetry; apply Nat.ltb_lt; rewrite length_map; lia).
    repeat split.
  - intros Hshort.
    assert (Hst : avgCorrelation
                    (PortfolioRisk.analyzePortfolioCorrelation Symbol positions h) = 0
                  /\ maxCorrelation
                       (PortfolioRisk.analyzePortfolioCorrelation Symbol positions h)
                     = 0).
    { unfold PortfolioRisk.analyzePortfolioCorrelation.
      destruct (Nat.ltb (length (map fst positions)) 2); [split; reflexivity|].
      cbv zeta. cbn [avgCorrelation maxCorrelation].
      rewrite (pairCorrelations_short h _ Hshort). split; reflexivity. }
    destruct Hst as [Havg Hmax]. repeat split; [exact Havg|exact Hmax|].
    intros dd vm. unfold PortfolioRisk.advancedRiskCheck. cbv zeta.
    cbn [riskFlags correlationBreakdown]. rewrite Hmax.
    apply gt_false. lra.
Qed.

Lemma totalValue_sum positions :
  fold_left (fun sum pos => sum + PortfolioRisk.absNotional (snd pos)) positions 0
  = totalNotional positions.
Proof.
  unfold totalNotional.
  induction positions as [|p ps IH]; [reflexivity|].
  cbn [fold_left map]. rewrite sum_cons.
  rewrite (fold_add_acc _ (fun pos => PortfolioRisk.absNotional (snd pos)) ps
             (0 + PortfolioRisk.absNotional (snd p))).
  rewrite IH. lra.
Qed.

Lemma weights_sum positions (T : R) :
  T <> 0 ->
  Js.sum (map (fun pos => PortfolioRisk.absNotional (snd pos) / T) positions)
  = totalNotional positions / T.
Proof.
  intros HT. unfold totalNotional.
  induction positions as [|p ps IH].
  - cbn. unfold Rdiv. rewrite Rmult_0_l. reflexivity.
  - cbn [map]. rewrite !sum_cons, IH. field. exact HT.
Qed.

Lemma totalNotional_nonneg positions : 0 <= totalNotional positions.
Proof.
  unfold totalNotional. apply sum_nonneg. rewrite Forall_forall.
  intros x Hx. apply in_map_iff in Hx. destruct Hx as (p & <- & _).
  apply Rabs_pos.
Qed.

(** X24.  For two or more positions the concentration index of
    [analyzePortfolioCorrelation] lies between 1/n and 1 when some
    notional value is not 0, and is NaN (the concentration flag of
    [advancedRiskCheck] then stays down) when all of them are 0. *)
Theorem riskConcentration_range positions h :
  (2 <= length positions)%nat ->
  let st := PortfolioRisk.analyzePortfolioCorrelation Symbol positions h in
  (totalNotional positions = 0 ->
   riskConcentration st = None
   /\ forall dd vm,
        concentrationRisk
          (riskFlags (PortfolioRisk.advancedRiskCheck Symbol positions h dd vm))
        = false)
  /\ (totalNotional positions <> 0 ->
      exists rc, riskConcentration st = Some rc
                 /\ 1 / INR (length positions) <= rc <= 1).
Proof.
  intros Hlen. cbv zeta.
  assert (Hst : riskConcentration
                  (PortfolioRisk.analyzePortfolioCorrelation Symbol positions h)
                = if Js.eq (totalNotional positions) 0 then None
                  else Some (RiskManager.sumSq
                               (map (fun pos => PortfolioRisk.absNotional (snd pos)
                                                / totalNotional positions)
                                    positions))).
  { unfold PortfolioRisk.analyzePortfolioCorrelation.
    replace (Nat.ltb (length (map fst positions)) 2) with false
      by (symmetry; apply Nat.ltb_ge; rewrite length_map; lia).
    cbv zeta. cbn [riskConcentration]. rewrite totalValue_sum. reflexivity. }
  split.
  - intros Hz. rewrite Hz in Hst.
    replace (Js.eq 0 0) with true in Hst by (symmetry; apply eq_true; reflexivity).
    split; [exact Hst|]. intros dd vm.
    unfold PortfolioRisk.advancedRiskCheck. cbv zeta.
    cbn [riskFlags concentrationRisk]. rewrite Hst. reflexivity.
  - intros Hnz.
    replace (Js.eq (totalNotional positions) 0) with false in Hst
      by (symmetry; apply eq_false; exact Hnz).
    eexists. split; [exact Hst|].
    set (T := totalNotional positions) in *.
    set (ws := map (fun pos => PortfolioRisk.absNotional (snd pos) / T) positions).
    pose proof (totalNotional_nonneg positions) as HT0. fold T in HT0.
    assert (HT : 0 < T) by lra.
    assert (Hsum : Js.sum ws = 1).
    { unfold ws. rewrite weights_sum by exact Hnz. fold T. field. exact Hnz. }
    assert (Hnn : Forall (fun v => 0 <= v) ws).
    { unfold ws. rewrite Forall_forall. intros x Hx.
      apply in_map_iff in Hx. destruct Hx as (p & <- & _).
      apply Rmult_le_pos; [apply Rabs_pos|apply Rlt_le, Rinv_0_lt_compat; lra]. }
    assert (Hlw : length ws = length positions) by (unfold ws; apply length_map).
    assert (Hn : 0 < INR (length positions)) by (apply lt_0_INR; lia).
    split.
    + pose proof (sum_sq_le ws) as Hcs. rewrite Hsum, Hlw in Hcs.
      apply Rmult_le_reg_l with (INR (length positions)); [exact Hn|].
      replace (INR (length positions) * (1 / INR (length positions))) with 1
        by (field; lra). lra.
    + pose proof (sumSq_le_sq_sum ws Hnn) as Hub. rewrite Hsum in Hub. lra.
Qed.

Lemma pairCorrelations_contains h s1 s2 l1 l2 l3 x :
  In x (PortfolioRisk.pairCorrelation Symbol h s1 s2) ->
  In x (PortfolioRisk.pairCorrelations Symbol h (l1 ++ s1 :: l2 ++ s2 :: l3)).
Proof.
  intros Hin. induction l1 as [|a l1 IH].
  - cbn [app PortfolioRisk.pairCorrelations]. apply in_or_app. left.
    apply in_flat_map. exists s2. split; [|exact Hin].
    apply in_or_app. right. left. reflexivity.
  - cbn [app PortfolioRisk.pairCorrelations]. apply in_or_app. right. exact IH.
Qed.

(** X25.  Two positions anywhere in the portfolio whose return histories
    are the same series, of at least 10 points, drive [maxCorrelation]
    to at least 1, which raises the correlation-breakdown flag and makes
    [advancedRiskCheck] halt.  This is for a portfolio in which every
    history of 10 points or more is well conditioned over its last 20:
    a single constant history among the positions makes a pair
    correlation of the source NaN, which the maximum and the comparison
    with 0.8 then inherit. *)
Theorem identical_histories_halt positions h s1 s2 l1 l2 l3 (r : list R) dd vm :
  map fst positions = l1 ++ s1 :: l2 ++ s2 :: l3 ->
  h s1 = Some r -> h s2 = Some r ->
  (10 <= length r)%nat ->
  (forall s, In s (map fst positions) ->
             (length (PortfolioRisk.historyOf Symbol h s) < 10)%nat
             \/ wellConditioned (Js.lastn 20 (PortfolioRisk.historyOf Symbol h s))) ->
  1 <= maxCorrelation (PortfolioRisk.analyzePortfolioCorrelation Symbol positions h)
  /\ correlationBreakdown
       (riskFlags (PortfolioRisk.advancedRiskCheck Symbol positions h dd vm)) = true
  /\ shouldHalt (PortfolioRisk.advancedRiskCheck Symbol positions h dd vm) = true.
Proof.
  intros Hsym H1 H2 Hlen Hcond.
  assert (Hw : (2 <= length (Js.lastn 20 r))%nat)
    by (unfold Js.lastn; rewrite length_skipn; lia).
  assert (Hvar : 0 < variance (Js.lastn 20 r)).
  { destruct (Hcond s1) as [Hs|Hs].
    - rewrite Hsym. apply in_or_app. right. left. reflexivity.
    - unfold PortfolioRisk.historyOf in Hs. rewrite H1 in Hs. lia.
    - unfold PortfolioRisk.historyOf in Hs. rewrite H1 in Hs. apply Hs. }
  assert (Hpair : In 1 (PortfolioRisk.pairCorrelation Symbol h s1 s2)).
  { unfold PortfolioRisk.pairCorrelation, PortfolioRisk.historyOf. rewrite H1, H2.
    cbv zeta.
    replace (Nat.leb 10 (length r)) with true by (symmetry; apply Nat.leb_le; lia).
    cbn [andb]. left.
    rewrite calculateCorrelation_self; [apply Rabs_R1|exact Hw|].
    intros Hz. apply windowVar_zero_iff in Hz; [lra|lia]. }
  assert (Hin : In 1 (PortfolioRisk.pairCorrelations Symbol h (map fst positions))).
  { rewrite Hsym. apply pairCorrelations_contains. exact Hpair. }
  assert (Hmax : 1 <= maxCorrelation
                        (PortfolioRisk.analyzePortfolioCorrelation Symbol positions h)).
  { unfold PortfolioRisk.analyzePortfolioCorrelation.
    replace (Nat.ltb (length (map fst positions)) 2) with false
      by (symmetry; apply Nat.ltb_ge; rewrite Hsym, !length_app; cbn [length];
          rewrite length_app; cbn [length]; lia).
    cbv zeta. cbn [maxCorrelation].
    destruct (PortfolioRisk.pairCorrelations Symbol h (map fst positions))
      as [|c cs] eqn:E; [contradiction|].
    apply (maxOf_ge (c :: cs) 1 Hin). }
  split; [exact Hmax|].
  unfold PortfolioRisk.advancedRiskCheck. cbv zeta.
  cbn [riskFlags correlationBreakdown shouldHalt].
  replace (Js.gt (maxCorrelation
                    (PortfolioRisk.analyzePortfolioCorrelation Symbol positions h))
                 0.8) with true
    by (symmetry; apply gt_true; lra).
  split; reflexivity.
Qed.
End Portfolio.

Lemma riskConcentration_range_witness :
  exists rc,
    riskConcentration
      (PortfolioRisk.analyzePortfolioCorrelation nat
         [(1%nat, {| notionalValue := Some 3 |});
          (2%nat, {| notionalValue := Some 1 |})]
         (fun _ => None)) = Some rc
    /\ 1 / INR 2 <= rc <= 1.
Proof.
  apply (proj2 (riskConcentration_range
                  [(1%nat, {| notionalValue := Some 3 |});
                   (2%nat, {| notionalValue := Some 1 |})]
                  (fun _ => None) ltac:(simpl; lia))).
  unfold totalNotional, PortfolioRisk.absNotional.
  cbn [map snd notionalValue Js.or_opt].
  rewrite !sum_cons, sum_nil, !or_nonzero by lra.
  rewrite !Rabs_right by lra. lra.
Defined.

Lemma identical_histories_halt_witness :
  shouldHalt
    (PortfolioRisk.advancedRiskCheck nat
       [(1%nat, {| notionalValue := Some 3 |});
        (2%nat, {| notionalValue := Some 1 |});
        (3%nat, {| notionalValue := Some 1 |})]
       (fun s => if Nat.eqb s 3 then Some [1; 2] else Some zigzag) 0 None) = true.
Proof.
  apply (identical_histories_halt
           [(1%nat, {| notionalValue := Some 3 |});
            (2%nat, {| notionalValue := Some 1 |});
            (3%nat, {| notionalValue := Some 1 |})]
           (fun s => if Nat.eqb s 3 then Some [1; 2] else Some zigzag)
           1%nat 2%nat [] [] [3%nat] zigzag 0 None).
  - reflexivity.
  - reflexivity.
  - reflexivity.
  - simpl. lia.
  - intros s Hs. cbn [map fst] in Hs.
    destruct Hs as [<-|[<-|[<-|[]]]].
    + right. exact wellConditioned_lastn_zigzag.
    + right. exact wellConditioned_lastn_zigzag.
    + left. simpl. lia.
Defined.

Lemma analyzePortfolioCorrelation_short_histories_witness :
  maxCorrelation
    (PortfolioRisk.analyzePortfolioCorrelation nat
       [(1%nat, {| notionalValue := Some 3 |});
        (2%nat, {| notionalValue := Some 1 |})]
       (fun _ => Some [1; 2; 3])) = 0
  /\ riskConcentration
       (PortfolioRisk.analyzePortfolioCorrelation nat
          [(1%nat, {| notionalValue := Some 3 |})] (fun _ => None)) = Some 0.
Proof.
  split.
  - apply (proj2 (analyzePortfolioCorrelation_short_histories
                    [(1%nat, {| notionalValue := Some 3 |});
                     (2%nat, {| notionalValue := Some 1 |})]
                    (fun _ => Some [1; 2; 3]))).
    intros s _. simpl. lia.
  - apply (proj1 (analyzePortfolioCorrelation_short_histories
                    [(1%nat, {| notionalValue := Some 3 |})] (fun _ => None))).
    simpl. lia.
Defined.

(* ================================================================== *)
(** * Simulator *)
(* ================================================================== *)

Section Sim.
Context {Symbol : Type} (symbol_eqb : Symbol -> Symbol -> bool).
Implicit Types (s : SimState Symbol) (d : TradeDecision) (c : Candle).

(** X26.  [executeTrade] keeps every held quantity strictly positive:
    if all entries of [positions] are positive before a trade of
    positive size at a positive price, they are positive after it (a
    position sold down to 0 is deleted). *)
Theorem executeTrade_positions_positive s (symbol : Symbol) d c :
  positiveHoldings s -> 0 < sizeUsd d -> 0 < c_close c ->
  positiveHoldings (snd (Simulator.executeTrade Symbol symbol_eqb s symbol d c)).
Proof.
  intros Hinv Hsz Hpr. unfold Simulator.executeTrade. cbv zeta.
  assert (Hq : 0 < sizeUsd d / c_close c) by (apply Rdiv_lt_0_compat; lra).
  destruct (action d).
  - destruct (Js.lt _ _); [exact Hinv|].
    unfold Simulator.recordTrade, Simulator.withBalanceQty. cbv zeta.
    cbn [snd]. unfold positiveHoldings. cbn [heldQty].
    intros k q. unfold Simulator.setQty.
    destruct (symbol_eqb k symbol); [|apply Hinv].
    intros Hk. injection Hk as <-.
    destruct (heldQty s symbol) as [q0|] eqn:E; cbn [Js.or_opt].
    + pose proof (Hinv symbol q0 E). rewrite or_nonzero by lra. lra.
    + lra.
  - destruct (Js.le _ 0); [exact Hinv|].
    unfold Simulator.recordTrade, Simulator.withBalanceQty. cbv zeta.
    cbn [snd]. unfold positiveHoldings. cbn [heldQty].
    intros k q. unfold Simulator.setQty.
    destruct (symbol_eqb k symbol); [|apply Hinv].
    destruct (Js.le _ 0) eqn:E; [discriminate|].
    apply le_false in E. intros Hk. injection Hk as <-. exact E.
  - unfold Simulator.recordTrade. cbv zeta. cbn [snd].
    unfold positiveHoldings. cbn [heldQty]. exact Hinv.
Qed.

(** X27.  A buy never overdraws: it is refused, leaving the simulator
    untouched, when the balance does not cover size plus fee; otherwise
    the balance drops by exactly size times (1 + fee rate) and stays
    non-negative.  Whatever the side, a refused trade changes nothing. *)
Theorem executeTrade_buy_no_overdraw s (symbol : Symbol) d c :
  let r := Simulator.executeTrade Symbol symbol_eqb s symbol d c in
  (fst r = None -> snd r = s)
  /\ (action d = buy ->
      (balance s < sizeUsd d * (1 + fees s) -> fst r = None)
      /\ (sizeUsd d * (1 + fees s) <= balance s ->
          fst r <> None
          /\ balance (snd r) = balance s - sizeUsd d * (1 + fees s)
          /\ 0 <= balance (snd r))).
Proof.
  cbv zeta. unfold Simulator.executeTrade. cbv zeta. split.
  - destruct (action d).
    + destruct (Js.lt _ _); [reflexivity|cbn; discriminate].
    + destruct (Js.le _ 0); [reflexivity|cbn; discriminate].
    + cbn. discriminate.
  - intros Hb. rewrite Hb. split.
    + intros Hlow.
      replace (Js.lt (balance s) (sizeUsd d + sizeUsd d * fees s)) with true
        by (symmetry; apply lt_true; lra).
      reflexivity.
    + intros Hok.
      replace (Js.lt (balance s) (sizeUsd d + sizeUsd d * fees s)) with false
        by (symmetry; apply lt_false; lra).
      unfold Simulator.recordTrade, Simulator.withBalanceQty. cbv zeta.
      cbn [fst snd balance]. repeat split; [discriminate|lra|lra].
Qed.

(** X28.  After [updateEquity], for a positive peak: the equity is the
    cash balance, the peak is at least the equity and never lower than
    before, and the maximum drawdown is never lower than before and at
    least the current, non-negative, drawdown. *)
Theorem updateEquity_invariants s :
  0 < peakEquity s ->
  let s' := Simulator.updateEquity Symbol s in
  let dd := (peakEquity s' - equity s') / peakEquity s' in
  equity s' = balance s
  /\ peakEquity s <= peakEquity s' /\ equity s' <= peakEquity s'
  /\ maxDrawdown s <= maxDrawdown s'
  /\ 0 <= dd <= maxDrawdown s'.
Proof.
  intros Hp. cbv zeta. unfold Simulator.updateEquity. cbv zeta.
  cbn [equity peakEquity maxDrawdown].
  set (pk := if Js.gt (balance s) (peakEquity s) then balance s else peakEquity s).
  assert (Hpk : peakEquity s <= pk /\ balance s <= pk).
  { unfold pk. destruct (Js.gt (balance s) (peakEquity s)) eqn:E.
    - apply gt_true in E. lra.
    - apply gt_false in E. lra. }
  assert (Hpos : 0 < pk) by lra.
  assert (Hdd : 0 <= (pk - balance s) / pk).
  { apply Rmult_le_pos; [lra|apply Rlt_le, Rinv_0_lt_compat; lra]. }
  destruct Hpk as [Hpk1 Hpk2].
  split; [reflexivity|]. split; [exact Hpk1|]. split; [exact Hpk2|].
  destruct (Js.gt ((pk - balance s) / pk) (maxDrawdown s)) eqn:E.
  - apply gt_true in E. lra.
  - apply gt_false in E. lra.
Qed.

Lemma filter_none {A} (f : A -> bool) (l : list A) :
  (forall x, f x = false) -> filter f l = [].
Proof.
  intros H. induction l as [|x l IH]; [reflexivity|].
  cbn [filter]. rewrite H. exact IH.
Qed.

Lemma sum_zeros (l : list R) : Forall (fun v => v = 0) l -> Js.sum l = 0.
Proof.
  intros H. rewrite (sum_const 0 l H). ring.
Qed.

Lemma stddev_zeros (l : list R) :
  Forall (fun v => v = 0) l ->
  Simulator.calculateStandardDeviation l = 0.
Proof.
  intros H. unfold Simulator.calculateStandardDeviation.
  destruct (Nat.ltb (length l) 2); [reflexivity|]. cbv zeta.
  rewrite (sum_zeros l H).
  replace (0 / INR (length l)) with 0 by (unfold Rdiv; ring).
  assert (Hsq : Forall (fun v => v = 0)
                  (map (fun value => (value - 0) * (value - 0)) l)).
  { rewrite Forall_forall in *. intros x Hx. apply in_map_iff in Hx.
    destruct Hx as (v & <- & Hv). rewrite (H v Hv). ring. }
  rewrite (sum_zeros _ Hsq).
  replace (0 / INR (length l)) with 0 by (unfold Rdiv; ring).
  apply sqrt_0.
Qed.

(** X29.  The trade records of the simulator carry no profit or loss, so
    [calculatePerformance] reports a win rate of 0 and a Sharpe ratio
    of 0 for every simulator state, however many trades were made. *)
Theorem calculatePerformance_no_wins s :
  winRate (Simulator.calculatePerformance Symbol s) = 0
  /\ sharpeRatio (Simulator.calculatePerformance Symbol s) = 0
  /\ totalTrades (Simulator.calculatePerformance Symbol s) = length (trades s).
Proof.
  unfold Simulator.calculatePerformance. cbv zeta.
  cbn [winRate sharpeRatio totalTrades].
  split; [|split; [|reflexivity]].
  - rewrite filter_none by reflexivity. cbn [length INR].
    destruct (Nat.ltb 0 (length (trades s))); [|reflexivity].
    unfold Rdiv. ring.
  - rewrite stddev_zeros.
    + replace (Js.gt 0 0) with false by (symmetry; apply gt_false; lra).
      reflexivity.
    + rewrite Forall_forall. intros x Hx. apply in_map_iff in Hx.
      destruct Hx as (t & <- & _). reflexivity.
Qed.

Lemma backtest_tech_hold s (symbol : Symbol) c :
  tech_action (Orchestrator.techOf (Simulator.backtestInput Symbol s symbol c))
  = HOLD.
Proof.
  unfold Orchestrator.techOf, Simulator.backtestInput. cbn [multiTf].
  apply analyze_no_bias.
  - apply mrBiasOf_short. cbn. lia.
  - apply trendBiasOf_short. cbn. lia.
Qed.

Lemma backtest_sentiment s (symbol : Symbol) c :
  score (Orchestrator.sentimentOf (Simulator.backtestInput Symbol s symbol c)) = 49.
Proof.
  unfold Orchestrator.sentimentOf. cbv zeta.
  cbn [events Simulator.backtestInput Simulator.backtestEvents
       ev_social ev_onchain ev_market].
  change (SentimentEngine.fuseSentiment (Some SentimentEngine.emptySocial) None
            (Some SentimentEngine.emptyMarket))
    with (SentimentEngine.fuseSentiment None None None).
  rewrite fuseSentiment_default. reflexivity.
Qed.

(** X30.  The backtest never trades.  With one candle per data point and
    the placeholder events, every decision that [decideTrade] emits has
    size 0, whatever the candle, the account and the advisory reply; a
    loop iteration therefore records no trade and leaves the simulator
    as it was. *)
Theorem backtest_never_trades (risk : RiskConfig) s (symbol : Symbol) c
        (adv : option Advisory) :
  let out := Orchestrator.decideTrade risk
               (Simulator.backtestInput Symbol s symbol c) adv in
  (forall d, out = Emit d -> sizeUsd d = 0)
  /\ fst (fst (Simulator.backtestStep Symbol symbol_eqb s symbol c out)) = None
  /\ snd (Simulator.backtestStep Symbol symbol_eqb s symbol c out) = s.
Proof.
  cbv zeta.
  assert (Hz : forall d,
            Orchestrator.decideTrade risk
              (Simulator.backtestInput Symbol s symbol c) adv = Emit d ->
            sizeUsd d = 0).
  { intros d H. destruct (decideTrade_emit_cases risk _ adv d H)
      as (act & conf & He & _).
    unfold Orchestrator.emit in He. injection He as <-. cbn [sizeUsd].
    apply localSizeUsd_zero.
    eapply Rle_trans;
      [apply (localSignal_tech_hold _ (backtest_tech_hold s symbol c))|].
    rewrite backtest_sentiment.
    replace ((49 - 50) / 50) with (- (1 / 50)) by lra.
    rewrite Rabs_left by lra. lra. }
  split; [exact Hz|].
  destruct (Orchestrator.decideTrade risk
              (Simulator.backtestInput Symbol s symbol c) adv) as [|d|e] eqn:E.
  - split; reflexivity.
  - unfold Simulator.backtestStep. cbv zeta.
    rewrite (Hz d eq_refl).
    replace (Js.gt 0 0) with false by (symmetry; apply gt_false; lra).
    rewrite andb_false_r. split; reflexivity.
  - split; reflexivity.
Qed.
End Sim.


Lemma executeTrade_positions_positive_witness :
  positiveHoldings
    (snd (Simulator.executeTrade nat Nat.eqb (Simulator.construct nat None None)
            0%nat buyDecision (flatCandle 50))).
Proof.
  apply (executeTrade_positions_positive Nat.eqb).
  - intros k q H. discriminate H.
  - cbn. lra.
  - cbn. lra.
Defined.

Lemma executeTrade_buy_no_overdraw_witness :
  balance (snd (Simulator.executeTrade nat Nat.eqb
                  (Simulator.construct nat None None) 0%nat buyDecision
                  (flatCandle 50)))
  = 10000 - 100 * (1 + 0.001).
Proof.
  apply (proj2 (executeTrade_buy_no_overdraw Nat.eqb
                  (Simulator.construct nat None None) 0%nat buyDecision
                  (flatCandle 50)) eq_refl).
  cbn. lra.
Defined.

Lemma updateEquity_invariants_witness :
  equity (Simulator.updateEquity nat (Simulator.construct nat None None)) = 10000
  /\ 0 <= maxDrawdown (Simulator.updateEquity nat
                         (Simulator.construct nat None None)).
Proof.
  pose proof (updateEquity_invariants (Simulator.construct nat None None)
                ltac:(cbn; lra)) as H.
  cbv zeta in H. destruct H as (He & _ & _ & Hm & _).
  split; [exact He|]. cbn [Simulator.construct maxDrawdown] in Hm. lra.
Defined.

Lemma backtest_never_trades_witness :
  exists d,
    Orchestrator.decideTrade defaultRisk
      (Simulator.backtestInput nat (Simulator.construct nat None None) 0%nat
         (flatCandle 100)) None = Emit d
    /\ sizeUsd d = 0.
Proof.
  assert (H : exists d,
             Orchestrator.decideTrade defaultRisk
               (Simulator.backtestInput nat (Simulator.construct nat None None)
                  0%nat (flatCandle 100)) None = Emit d).
  { unfold Orchestrator.decideTrade. cbv zeta.
    rewrite gate_open by (cbn; lra). eexists. reflexivity. }
  destruct H as (d & Hd). exists d. split; [exact Hd|].
  apply (proj1 (backtest_never_trades Nat.eqb defaultRisk
                  (Simulator.construct nat None None) 0%nat (flatCandle 100) None)).
  exact Hd.
Defined.
